(** * SuiForge: deployment pipeline and on-chain guards

    A shallow embedding of the parts of the SuiForge repository that carry
    its abuse-control and accounting rules:

    - the Move modules [suiforge::anti_bot], [suiforge::liquidity_locker]
      and [suiforge::fee_distributor];
    - the Telegram listener's per-user rate limiter ([isRateLimited]);
    - the request normaliser ([validateTokenParams]);
    - the deployment orchestrator ([deployToken], [processTokenDeployment]).

    Move code is embedded in a state-and-abort monad over the transaction
    context: a [u64] is an [N] whose arithmetic aborts outside
    [0 .. 2^64 - 1], a [Table] is a [gmap], a [vector] is a [list], and an
    abort discards every effect of the transaction.  JavaScript code is
    embedded as pure functions of the answers of its collaborators. *)

From Stdlib Require Import ZArith NArith List String Ascii Bool Lia.
From stdpp Require Import base option list gmap strings pretty.

Import ListNotations.

(** ** The Sui framework, as far as the three modules use it *)

Module Sui.

Definition address := N.

Definition MAX_U64 : N := 18446744073709551615.

(** Why a transaction stops.  [Abort] is an [assert!] (or [abort]) of the
    module under execution; the others are raised by the Move VM
    (checked [u64] arithmetic) or by the framework modules
    [sui::dynamic_field] (behind [sui::table]), [sui::balance] and
    [std::vector]. *)
Inductive failure : Type :=
| Abort (code : N)
| Overflow
| Underflow
| DivisionByZero
| EFieldAlreadyExists
| EFieldDoesNotExist
| ENotEnough
| EIndexOutOfBounds.

Inductive result (A : Type) : Type :=
| Ok (a : A)
| Fail (f : failure).
Arguments Ok {A} a.
Arguments Fail {A} f.

(** [TxContext]: the sender, the epoch timestamp, and the generator of
    object ids ([fresh_id n] is the id derived from the transaction digest
    and the counter [n]). *)
Record TxContext : Type := mkTxContext {
  sender : address;
  epoch_timestamp_ms : N;
  fresh_id : nat -> address;
  ids_created : nat
}.

Record Clock : Type := mkClock { timestamp_ms : N }.

(** Events of the three modules. *)
Inductive Event : Type :=
| TradingEnabled (token_id : address) (timestamp : N)
| AddressWhitelisted (token_id addr : address)
| AddressBlacklisted (token_id addr : address)
| LiquidityLocked (lock_id token_id locker : address) (amount unlock_time : N)
| LiquidityUnlocked (lock_id token_id locker : address) (amount : N)
| FeesCollected (amount : N) (token_id : address) (timestamp : N)
| FeesDistributed (protocol_amount creator_amount : N)
                  (token_id creator : address) (timestamp : N).

(** What a running transaction accumulates besides the objects it was
    handed: the context, the emitted events, and the coins sent by
    [transfer::public_transfer] (recipient, value). *)
Record TxState : Type := mkTxState {
  ctx : TxContext;
  emitted : list Event;
  transferred : list (address * N)
}.

Definition begin_tx (c : TxContext) : TxState :=
  {| ctx := c; emitted := []; transferred := [] |}.

Definition M (A : Type) : Type := TxState -> result (A * TxState).

#[export] Instance M_ret : MRet M := fun A a st => Ok (a, st).

#[export] Instance M_bind : MBind M := fun A B f m st =>
  match m st with
  | Ok (a, st') => f a st'
  | Fail e => Fail e
  end.

Definition fail {A} (e : failure) : M A := fun _ => Fail e.

(** [assert!(cond, code)] *)
Definition assert (cond : bool) (code : N) : M unit :=
  if cond then mret tt else fail (Abort code).

(** Checked [u64] arithmetic. *)
Definition add (a b : N) : M N :=
  if (a + b <=? MAX_U64)%N then mret (a + b)%N else fail Overflow.

Definition sub (a b : N) : M N :=
  if (b <=? a)%N then mret (a - b)%N else fail Underflow.

Definition mul (a b : N) : M N :=
  if (a * b <=? MAX_U64)%N then mret (a * b)%N else fail Overflow.

Definition div (a b : N) : M N :=
  if (b =? 0)%N then fail DivisionByZero else mret (a / b)%N.

(** [tx_context::sender], [tx_context::epoch_timestamp_ms] *)
Definition tx_sender : M address := fun st => Ok (sender (ctx st), st).

Definition tx_epoch_timestamp_ms : M N :=
  fun st => Ok (epoch_timestamp_ms (ctx st), st).

(** [object::new]: hands out the next id of the context. *)
Definition object_new : M address := fun st =>
  let c := ctx st in
  Ok (fresh_id c (ids_created c),
      {| ctx := {| sender := sender c;
                   epoch_timestamp_ms := epoch_timestamp_ms c;
                   fresh_id := fresh_id c;
                   ids_created := S (ids_created c) |};
         emitted := emitted st;
         transferred := transferred st |}).

(** [event::emit] *)
Definition emit (e : Event) : M unit := fun st =>
  Ok (tt, {| ctx := ctx st;
             emitted := emitted st ++ [e];
             transferred := transferred st |}).

(** [transfer::public_transfer] of a coin of value [value]. *)
Definition public_transfer (value : N) (recipient : address) : M unit :=
  fun st =>
    Ok (tt, {| ctx := ctx st;
               emitted := emitted st;
               transferred := transferred st ++ [(recipient, value)] |}).

(** [table::new] creates the table's own [UID]. *)
Definition table_new {V} : M (gmap address V) :=
  _ ← object_new; mret ∅.

(** [table::add] aborts on a key that is present, [table::remove] on one
    that is absent. *)
Definition table_add {V} (t : gmap address V) (k : address) (v : V)
  : M (gmap address V) :=
  match t !! k with
  | Some _ => fail EFieldAlreadyExists
  | None => mret (<[k := v]> t)
  end.

Definition table_remove {V} (t : gmap address V) (k : address)
  : M (V * gmap address V) :=
  match t !! k with
  | Some v => mret (v, delete k t)
  | None => fail EFieldDoesNotExist
  end.

Definition table_contains {V} (t : gmap address V) (k : address) : bool :=
  bool_decide (is_Some (t !! k)).

(** [vector::contains], [vector::index_of], [vector::remove] *)
Definition vector_contains (v : list address) (a : address) : bool :=
  existsb (N.eqb a) v.

Fixpoint vector_index_of (v : list address) (a : address) : bool * nat :=
  match v with
  | [] => (false, 0)
  | x :: v' =>
      if (x =? a)%N then (true, 0)
      else let '(found, i) := vector_index_of v' a in (found, S i)
  end.

Definition vector_remove (v : list address) (i : nat)
  : M (address * list address) :=
  match v !! i with
  | Some x => mret (x, take i v ++ drop (S i) v)
  | None => fail EIndexOutOfBounds
  end.

(** [balance::split] and [balance::join] on balances kept as their value. *)
Definition balance_split (b : N) (value : N) : M (N * N) :=
  if (value <=? b)%N then mret (value, (b - value)%N) else fail ENotEnough.

Definition balance_join (b : N) (other : N) : M N := add b other.

(** The state an object is left in once the transaction that was handed
    [before] has run: the result on success, [before] itself when the
    transaction aborted. *)
Definition committed {O} (before : O) (r : result (O * TxState)) : O :=
  match r with
  | Ok (after, _) => after
  | Fail _ => before
  end.

End Sui.

Import Sui.

(** ** [suiforge::anti_bot] *)

Module anti_bot.

(* Errors *)
Definition ETradingNotEnabled : N := 0.
Definition EAddressAlreadyWhitelisted : N := 1.
Definition EAddressNotWhitelisted : N := 2.
Definition EExceedsMaxBuyLimit : N := 3.
Definition EInsufficientCooldown : N := 4.
Definition EAddressBlacklisted : N := 5.

(* Tracking buys for each address *)
Record BuyInfo : Type := mkBuyInfo {
  total_bought : N;
  last_buy_time : N
}.

(* Anti-bot settings per token *)
Record TokenProtection : Type := mkTokenProtection {
  id : address;
  token_id : address;
  owner : address;
  trading_enabled : bool;
  enable_time : N;
  cooldown_period : N;
  max_buy_percent : N;  (* in basis points (10000 = 100%) *)
  whitelist : list address;
  blacklist : gmap address bool;
  buy_tracking : gmap address BuyInfo
}.

Definition set_trading_enabled (p : TokenProtection) (b : bool) :=
  {| id := id p; token_id := token_id p; owner := owner p;
     trading_enabled := b;
     enable_time := enable_time p; cooldown_period := cooldown_period p;
     max_buy_percent := max_buy_percent p; whitelist := whitelist p;
     blacklist := blacklist p; buy_tracking := buy_tracking p |}.

Definition set_whitelist (p : TokenProtection) (w : list address) :=
  {| id := id p; token_id := token_id p; owner := owner p;
     trading_enabled := trading_enabled p;
     enable_time := enable_time p; cooldown_period := cooldown_period p;
     max_buy_percent := max_buy_percent p; whitelist := w;
     blacklist := blacklist p; buy_tracking := buy_tracking p |}.

Definition set_blacklist (p : TokenProtection) (b : gmap address bool) :=
  {| id := id p; token_id := token_id p; owner := owner p;
     trading_enabled := trading_enabled p;
     enable_time := enable_time p; cooldown_period := cooldown_period p;
     max_buy_percent := max_buy_percent p; whitelist := whitelist p;
     blacklist := b; buy_tracking := buy_tracking p |}.

Definition set_buy_tracking (p : TokenProtection) (t : gmap address BuyInfo) :=
  {| id := id p; token_id := token_id p; owner := owner p;
     trading_enabled := trading_enabled p;
     enable_time := enable_time p; cooldown_period := cooldown_period p;
     max_buy_percent := max_buy_percent p; whitelist := whitelist p;
     blacklist := blacklist p; buy_tracking := t |}.

Definition set_max_buy_percent (p : TokenProtection) (n : N) :=
  {| id := id p; token_id := token_id p; owner := owner p;
     trading_enabled := trading_enabled p;
     enable_time := enable_time p; cooldown_period := cooldown_period p;
     max_buy_percent := n; whitelist := whitelist p;
     blacklist := blacklist p; buy_tracking := buy_tracking p |}.

Definition set_cooldown_period (p : TokenProtection) (n : N) :=
  {| id := id p; token_id := token_id p; owner := owner p;
     trading_enabled := trading_enabled p;
     enable_time := enable_time p; cooldown_period := n;
     max_buy_percent := max_buy_percent p; whitelist := whitelist p;
     blacklist := blacklist p; buy_tracking := buy_tracking p |}.

(* Check if address is whitelisted *)
Definition is_whitelisted (protection : TokenProtection) (a : address) : bool :=
  vector_contains (whitelist protection) a.

(* Create a new token protection; the object is shared, here returned. *)
Definition create_protection (token_id cooldown_period max_buy_percent
                              enable_time_delay : N) (clock : Clock)
  : M TokenProtection :=
  (* Calculate when trading will be enabled *)
  let current_time := (timestamp_ms clock / 1000)%N in
  enable_time ← add current_time enable_time_delay;
  uid ← object_new;
  who ← tx_sender;
  black ← table_new;
  tracking ← table_new;
  let protection :=
    {| id := uid; token_id := token_id; owner := who;
       trading_enabled := false; enable_time := enable_time;
       cooldown_period := cooldown_period;
       max_buy_percent := max_buy_percent;
       whitelist := []; blacklist := black; buy_tracking := tracking |} in
  (* Whitelist owner by default *)
  who' ← tx_sender;
  mret (set_whitelist protection (whitelist protection ++ [who'])).

(* Check if an address is allowed to buy *)
Definition check_can_buy (protection : TokenProtection) (buyer : address)
           (amount total_supply : N) (clock : Clock)
  : M (bool * TokenProtection) :=
  (* Whitelist can always buy *)
  if is_whitelisted protection buyer then mret (true, protection) else
  (* Check if blacklisted *)
  if table_contains (blacklist protection) buyer
  then mret (false, protection) else
  (* Check if trading is enabled *)
  let current_time := (timestamp_ms clock / 1000)%N in
  protection ←
    (if negb (trading_enabled protection)
        && (enable_time protection <=? current_time)%N
     then
       emit (TradingEnabled (token_id protection) current_time);;
       mret (set_trading_enabled protection true)
     else mret protection);
  assert (trading_enabled protection) ETradingNotEnabled;;
  (* Check buy limit *)
  product ← mul total_supply (max_buy_percent protection);
  max_buy_amount ← div product 10000;
  assert (amount <=? max_buy_amount)%N EExceedsMaxBuyLimit;;
  (* Check cooldown *)
  match buy_tracking protection !! buyer with
  | Some buy_info =>
      (* Ensure cooldown period has passed *)
      elapsed ← sub current_time (last_buy_time buy_info);
      assert (cooldown_period protection <=? elapsed)%N
             EInsufficientCooldown;;
      (* Update tracking *)
      total ← add (total_bought buy_info) amount;
      mret (true,
            set_buy_tracking protection
              (<[buyer := {| total_bought := total;
                             last_buy_time := current_time |}]>
                 (buy_tracking protection)))
  | None =>
      (* First buy for this address *)
      tracking ← table_add (buy_tracking protection) buyer
                   {| total_bought := amount;
                      last_buy_time := current_time |};
      mret (true, set_buy_tracking protection tracking)
  end.

(* Add address to whitelist *)
Definition add_to_whitelist (protection : TokenProtection) (a : address)
  : M TokenProtection :=
  (* Only owner can modify whitelist *)
  who ← tx_sender;
  assert (owner protection =? who)%N 0;;
  (* Check if already whitelisted *)
  assert (negb (is_whitelisted protection a)) EAddressAlreadyWhitelisted;;
  (* Add to whitelist *)
  let protection := set_whitelist protection (whitelist protection ++ [a]) in
  emit (AddressWhitelisted (token_id protection) a);;
  mret protection.

(* Remove address from whitelist *)
Definition remove_from_whitelist (protection : TokenProtection) (a : address)
  : M TokenProtection :=
  (* Only owner can modify whitelist *)
  who ← tx_sender;
  assert (owner protection =? who)%N 0;;
  (* Find and remove address *)
  let '(found, index) := vector_index_of (whitelist protection) a in
  assert found EAddressNotWhitelisted;;
  '(_, w) ← vector_remove (whitelist protection) index;
  mret (set_whitelist protection w).

(* Add address to blacklist *)
Definition add_to_blacklist (protection : TokenProtection) (a : address)
  : M TokenProtection :=
  who ← tx_sender;
  assert (owner protection =? who)%N 0;;
  black ← table_add (blacklist protection) a true;
  emit (AddressBlacklisted (token_id protection) a);;
  mret (set_blacklist protection black).

(* Remove address from blacklist *)
Definition remove_from_blacklist (protection : TokenProtection) (a : address)
  : M TokenProtection :=
  who ← tx_sender;
  assert (owner protection =? who)%N 0;;
  assert (table_contains (blacklist protection) a) EAddressNotWhitelisted;;
  '(_, black) ← table_remove (blacklist protection) a;
  mret (set_blacklist protection black).

(* Enable trading immediately *)
Definition enable_trading (protection : TokenProtection) : M TokenProtection :=
  (* Only owner can enable trading *)
  who ← tx_sender;
  assert (owner protection =? who)%N 0;;
  let protection := set_trading_enabled protection true in
  now_ms ← tx_epoch_timestamp_ms;
  emit (TradingEnabled (token_id protection) (now_ms / 1000)%N);;
  mret protection.

(* Update max buy percent *)
Definition update_max_buy_percent (protection : TokenProtection)
           (new_percent : N) : M TokenProtection :=
  who ← tx_sender;
  assert (owner protection =? who)%N 0;;
  mret (set_max_buy_percent protection new_percent).

(* Update cooldown period *)
Definition update_cooldown_period (protection : TokenProtection)
           (new_period : N) : M TokenProtection :=
  who ← tx_sender;
  assert (owner protection =? who)%N 0;;
  mret (set_cooldown_period protection new_period).

(** The calls a transaction can make on a shared [TokenProtection]. *)
Inductive call : Type :=
| CheckCanBuy (buyer : address) (amount total_supply : N)
| AddToWhitelist (a : address)
| RemoveFromWhitelist (a : address)
| AddToBlacklist (a : address)
| RemoveFromBlacklist (a : address)
| EnableTrading
| UpdateMaxBuyPercent (new_percent : N)
| UpdateCooldownPeriod (new_period : N).

Definition dispatch (c : call) (clock : Clock) (p : TokenProtection)
  : M TokenProtection :=
  match c with
  | CheckCanBuy buyer amount total_supply =>
      r ← check_can_buy p buyer amount total_supply clock; mret (snd r)
  | AddToWhitelist a => add_to_whitelist p a
  | RemoveFromWhitelist a => remove_from_whitelist p a
  | AddToBlacklist a => add_to_blacklist p a
  | RemoveFromBlacklist a => remove_from_blacklist p a
  | EnableTrading => enable_trading p
  | UpdateMaxBuyPercent n => update_max_buy_percent p n
  | UpdateCooldownPeriod n => update_cooldown_period p n
  end.

(** One transaction: the call runs against the stored object and either
    commits its result or, on abort, leaves the object as it was. *)
Definition transact (p : TokenProtection) (t : call * Clock * TxContext)
  : TokenProtection :=
  let '(c, clock, context) := t in
  committed p (dispatch c clock p (begin_tx context)).

Definition history (p : TokenProtection) (ts : list (call * Clock * TxContext))
  : TokenProtection :=
  fold_left transact ts p.

End anti_bot.

(** ** [suiforge::liquidity_locker] *)

Module liquidity_locker.

(* Errors *)
Definition ELockStillActive : N := 0.
Definition EInvalidLockDuration : N := 1.
Definition EInvalidLock : N := 2.
Definition ELockNotFound : N := 3.

(* Capability for managing the locker *)
Record AdminCap : Type := mkAdminCap { cap_id : address }.

(* Individual lock info; the balance is kept as its value. *)
Record Lock : Type := mkLock {
  token_balance : N;
  token_type : address;
  locker : address;
  unlock_time : N
}.

(* Shared locker object *)
Record LiquidityLocker : Type := mkLiquidityLocker {
  id : address;
  locks : gmap address Lock;
  min_lock_duration : N;  (* In seconds *)
  lock_count : N
}.

(** A [Coin<CoinType>]: its value, and the address that
    [coin::type_into_address<CoinType>()] gives for its type parameter. *)
Record Coin : Type := mkCoin {
  coin_type : address;
  value : N
}.

(* Initialize the module *)
Definition init : M (AdminCap * LiquidityLocker) :=
  cap ← object_new;
  uid ← object_new;
  table ← table_new;
  (* Create locker with 30 days minimum lock *)
  mret ({| cap_id := cap |},
        {| id := uid; locks := table;
           min_lock_duration := 30 * 24 * 60 * 60;
           lock_count := 0 |}).

(* Lock liquidity tokens *)
Definition lock_liquidity (l : LiquidityLocker) (clock : Clock)
           (lp_tokens : Coin) (lock_duration : N) : M LiquidityLocker :=
  (* Validate lock duration *)
  assert (min_lock_duration l <=? lock_duration)%N EInvalidLockDuration;;
  (* Calculate unlock time *)
  let current_time := (timestamp_ms clock / 1000)%N in
  unlock_time ← add current_time lock_duration;
  (* Create the lock *)
  let amount := value lp_tokens in
  let token_type := coin_type lp_tokens in
  who ← tx_sender;
  let lock := {| token_balance := value lp_tokens;
                 token_type := token_type;
                 locker := who;
                 unlock_time := unlock_time |} in
  (* Generate unique lock ID *)
  lock_addr ← object_new;
  (* Store lock *)
  table ← table_add (locks l) lock_addr lock;
  count ← add (lock_count l) 1;
  (* Emit event *)
  who' ← tx_sender;
  emit (LiquidityLocked lock_addr token_type who' amount unlock_time);;
  mret {| id := id l; locks := table;
          min_lock_duration := min_lock_duration l;
          lock_count := count |}.

(* Unlock liquidity once the lock period is over *)
Definition unlock_liquidity (l : LiquidityLocker) (clock : Clock)
           (lock_id : address) : M LiquidityLocker :=
  (* Check if lock exists *)
  assert (table_contains (locks l) lock_id) ELockNotFound;;
  (* Get lock info *)
  '(lock, table) ← table_remove (locks l) lock_id;
  let l := {| id := id l; locks := table;
              min_lock_duration := min_lock_duration l;
              lock_count := lock_count l |} in
  let lock_owner := locker lock in
  (* Verify lock ownership *)
  who ← tx_sender;
  assert (lock_owner =? who)%N EInvalidLock;;
  (* Check if lock duration has passed *)
  let current_time := (timestamp_ms clock / 1000)%N in
  assert (unlock_time lock <=? current_time)%N ELockStillActive;;
  (* Return tokens to locker *)
  _ ← object_new;
  let returned_tokens := token_balance lock in
  public_transfer returned_tokens lock_owner;;
  (* Emit event *)
  emit (LiquidityUnlocked lock_id (token_type lock) lock_owner
                          returned_tokens);;
  mret l.

(* Admin can update minimum lock duration *)
Definition update_min_lock_duration (_ : AdminCap) (l : LiquidityLocker)
           (new_duration : N) : M LiquidityLocker :=
  mret {| id := id l; locks := locks l;
          min_lock_duration := new_duration;
          lock_count := lock_count l |}.

(* Get lock info *)
Definition get_lock_info (l : LiquidityLocker) (lock_id : address)
  : M (address * address * N * N) :=
  assert (table_contains (locks l) lock_id) ELockNotFound;;
  match locks l !! lock_id with
  | Some lock =>
      mret (token_type lock, locker lock, token_balance lock,
            unlock_time lock)
  | None => fail EFieldDoesNotExist
  end.

End liquidity_locker.

(** ** [suiforge::fee_distributor] *)

Module fee_distributor.

(* Errors *)
Definition EInvalidFeeShare : N := 0.
Definition EInsufficientBalance : N := 1.

(* Fee Distributor Capability *)
Record AdminCap : Type := mkAdminCap { cap_id : address }.

(* Fee Distributor object *)
Record FeeDistributor : Type := mkFeeDistributor {
  id : address;
  protocol_fee_bps : N;
  creator_fee_bps : N;
  protocol_fee_recipient : address;
  protocol_balance : N;
  total_fees_collected : N
}.

(* Token Fee Config *)
Record TokenFeeConfig : Type := mkTokenFeeConfig {
  config_id : address;
  token_id : address;
  creator : address;
  creator_balance : N;
  fees_collected : N
}.

(* Initialize the module *)
Definition init : M (AdminCap * FeeDistributor) :=
  cap ← object_new;
  uid ← object_new;
  who ← tx_sender;
  (* Create fee distributor with default 80/20 split *)
  mret ({| cap_id := cap |},
        {| id := uid;
           protocol_fee_bps := 200;  (* 20% of fees to protocol *)
           creator_fee_bps := 800;   (* 80% of fees to creator *)
           protocol_fee_recipient := who;
           protocol_balance := 0;
           total_fees_collected := 0 |}).

(* Create a new token fee config *)
Definition create_token_fee_config (token_id creator : address)
  : M TokenFeeConfig :=
  uid ← object_new;
  mret {| config_id := uid; token_id := token_id; creator := creator;
          creator_balance := 0; fees_collected := 0 |}.

(* Collect fees from trading; [fee] is the value of the [Coin<SUI>]. *)
Definition collect_fees (distributor : FeeDistributor)
           (config : TokenFeeConfig) (fee : N)
  : M (FeeDistributor * TokenFeeConfig) :=
  let fee_amount := fee in
  (* Calculate fee splits *)
  total_bps ← add (protocol_fee_bps distributor) (creator_fee_bps distributor);
  product ← mul fee_amount (protocol_fee_bps distributor);
  protocol_amount ← div product total_bps;
  creator_amount ← sub fee_amount protocol_amount;
  (* Split the fee *)
  let fee_balance := fee in
  (* Add protocol portion to protocol balance *)
  '(protocol_portion, fee_balance) ← balance_split fee_balance protocol_amount;
  protocol_balance' ← balance_join (protocol_balance distributor)
                                   protocol_portion;
  (* Add creator portion to creator balance *)
  creator_balance' ← balance_join (creator_balance config) fee_balance;
  (* Update counters *)
  total ← add (total_fees_collected distributor) fee_amount;
  collected ← add (fees_collected config) fee_amount;
  (* Emit event *)
  now_ms ← tx_epoch_timestamp_ms;
  emit (FeesCollected fee_amount (token_id config) now_ms);;
  mret ({| id := id distributor;
           protocol_fee_bps := protocol_fee_bps distributor;
           creator_fee_bps := creator_fee_bps distributor;
           protocol_fee_recipient := protocol_fee_recipient distributor;
           protocol_balance := protocol_balance';
           total_fees_collected := total |},
        {| config_id := config_id config;
           token_id := token_id config;
           creator := creator config;
           creator_balance := creator_balance';
           fees_collected := collected |}).

(* Withdraw protocol fees *)
Definition withdraw_protocol_fees (_ : AdminCap) (distributor : FeeDistributor)
  : M FeeDistributor :=
  let amount := protocol_balance distributor in
  assert (0 <? amount)%N EInsufficientBalance;;
  '(portion, rest) ← balance_split (protocol_balance distributor) amount;
  _ ← object_new;
  public_transfer portion (protocol_fee_recipient distributor);;
  mret {| id := id distributor;
          protocol_fee_bps := protocol_fee_bps distributor;
          creator_fee_bps := creator_fee_bps distributor;
          protocol_fee_recipient := protocol_fee_recipient distributor;
          protocol_balance := rest;
          total_fees_collected := total_fees_collected distributor |}.

(* Withdraw creator fees *)
Definition withdraw_creator_fees (config : TokenFeeConfig)
  : M TokenFeeConfig :=
  (* Only creator can withdraw *)
  who ← tx_sender;
  assert (creator config =? who)%N 0;;
  let amount := creator_balance config in
  assert (0 <? amount)%N EInsufficientBalance;;
  '(portion, rest) ← balance_split (creator_balance config) amount;
  _ ← object_new;
  public_transfer portion (creator config);;
  (* Emit event *)
  now_ms ← tx_epoch_timestamp_ms;
  emit (FeesDistributed 0 amount (token_id config) (creator config) now_ms);;
  mret {| config_id := config_id config;
          token_id := token_id config;
          creator := creator config;
          creator_balance := rest;
          fees_collected := fees_collected config |}.

(* Update fee distribution ratio *)
Definition update_fee_distribution (_ : AdminCap)
           (distributor : FeeDistributor)
           (protocol_fee_bps' creator_fee_bps' : N) : M FeeDistributor :=
  (* Validate fee share *)
  total ← add protocol_fee_bps' creator_fee_bps';
  assert (total =? 1000)%N EInvalidFeeShare;;
  mret {| id := id distributor;
          protocol_fee_bps := protocol_fee_bps';
          creator_fee_bps := creator_fee_bps';
          protocol_fee_recipient := protocol_fee_recipient distributor;
          protocol_balance := protocol_balance distributor;
          total_fees_collected := total_fees_collected distributor |}.

(* Update protocol fee recipient *)
Definition update_protocol_fee_recipient (_ : AdminCap)
           (distributor : FeeDistributor) (new_recipient : address)
  : M FeeDistributor :=
  mret {| id := id distributor;
          protocol_fee_bps := protocol_fee_bps distributor;
          creator_fee_bps := creator_fee_bps distributor;
          protocol_fee_recipient := new_recipient;
          protocol_balance := protocol_balance distributor;
          total_fees_collected := total_fees_collected distributor |}.

(** The calls a transaction can make on the shared [FeeDistributor]. *)
Inductive call : Type :=
| CollectFees (config : TokenFeeConfig) (fee : N)
| WithdrawProtocolFees (cap : AdminCap)
| UpdateFeeDistribution (cap : AdminCap) (protocol_fee_bps creator_fee_bps : N)
| UpdateProtocolFeeRecipient (cap : AdminCap) (new_recipient : address).

Definition dispatch (c : call) (d : FeeDistributor) : M FeeDistributor :=
  match c with
  | CollectFees config fee => r ← collect_fees d config fee; mret (fst r)
  | WithdrawProtocolFees cap => withdraw_protocol_fees cap d
  | UpdateFeeDistribution cap p c => update_fee_distribution cap d p c
  | UpdateProtocolFeeRecipient cap a => update_protocol_fee_recipient cap d a
  end.

Definition transact (d : FeeDistributor) (t : call * TxContext)
  : FeeDistributor :=
  committed d (dispatch (fst t) d (begin_tx (snd t))).

(** The distributor states that exist on chain: the one [init] shares at
    publication, and whatever transactions make of it. *)
Inductive reachable : FeeDistributor -> Prop :=
| reachable_init (c : TxContext) (cap : AdminCap) (d : FeeDistributor)
                 (st : TxState) :
    init (begin_tx c) = Ok ((cap, d), st) -> reachable d
| reachable_transact (d : FeeDistributor) (t : call * TxContext) :
    reachable d -> reachable (transact d t).

End fee_distributor.


(** ** [listeners/telegram.js]: the per-user rate limiter *)

Module telegram.

(* Rate limiting configuration *)
Module RATE_LIMIT.
Definition maxRequests : Z := 3.    (* Maximum 3 requests *)
Definition timeWindow : Z := 3600.  (* Within 1 hour (in seconds) *)
Definition cooldown : Z := 86400.   (* 24-hour cooldown if exceeded (in seconds) *)
End RATE_LIMIT.

(** The object kept per user in [userActivityTracker]. *)
Record UserData : Type := mkUserData {
  count : Z;
  firstRequest : Z;
  isCoolingDown : bool;
  cooldownUntil : Z
}.

(** [isRateLimited(userId)].  [date_now] is what [Date.now()] answers, in
    milliseconds; the [Map] is threaded through.  The object read from the
    map is updated in place, so each branch stores the updated object under
    the same key. *)
Definition isRateLimited (userId : Z) (date_now : Z)
           (userActivityTracker : gmap Z UserData)
  : bool * gmap Z UserData :=
  let now := (date_now / 1000)%Z in
  match userActivityTracker !! userId with
  | None =>
      (* First request from this user *)
      (false,
       <[userId := {| count := 1; firstRequest := now;
                      isCoolingDown := false; cooldownUntil := 0 |}]>
         userActivityTracker)
  | Some userData =>
      (* Check if user is in cooldown *)
      if isCoolingDown userData then
        if (now <? cooldownUntil userData)%Z then (true, userActivityTracker)
        else
          (* Cooldown period has ended, reset tracking *)
          (false,
           <[userId := {| count := 1; firstRequest := now;
                          isCoolingDown := false;
                          cooldownUntil := cooldownUntil userData |}]>
             userActivityTracker)
      (* Check if we're still within the time window *)
      else if (now - firstRequest userData <? RATE_LIMIT.timeWindow)%Z then
        (* Still within time window, check the count *)
        if (RATE_LIMIT.maxRequests <=? count userData)%Z then
          (* Rate limit exceeded, put user in cooldown *)
          (true,
           <[userId := {| count := count userData;
                          firstRequest := firstRequest userData;
                          isCoolingDown := true;
                          cooldownUntil := (now + RATE_LIMIT.cooldown)%Z |}]>
             userActivityTracker)
        else
          (* Increment request count *)
          (false,
           <[userId := {| count := (count userData + 1)%Z;
                          firstRequest := firstRequest userData;
                          isCoolingDown := isCoolingDown userData;
                          cooldownUntil := cooldownUntil userData |}]>
             userActivityTracker)
      else
        (* Time window has passed, reset tracking *)
        (false,
         <[userId := {| count := 1; firstRequest := now;
                        isCoolingDown := isCoolingDown userData;
                        cooldownUntil := cooldownUntil userData |}]>
           userActivityTracker)
  end.

(** A stream of admission checks [(userId, Date.now())], served in order. *)
Definition serve (tracker : gmap Z UserData) (requests : list (Z * Z))
  : gmap Z UserData :=
  fold_left (fun m r => snd (isRateLimited (fst r) (snd r) m)) requests tracker.

End telegram.

(** ** [processors/text_parser.js]: request validation *)

Module text_parser.

(** JavaScript strings are embedded as [string]; the embedding is exact on
    ASCII text (code points below 128), where [toUpperCase] and
    [toLowerCase] only touch the 26 letters. *)

Definition code (c : ascii) : N := N_of_ascii c.

Definition is_ascii (c : ascii) : bool := (code c <? 128)%N.

(* [\s] and the characters [trim] strips *)
Definition isWhiteSpace (c : ascii) : bool :=
  ((9 <=? code c) && (code c <=? 13) || (code c =? 32))%N.

Definition isUpper (c : ascii) : bool := ((65 <=? code c) && (code c <=? 90))%N.
Definition isLower (c : ascii) : bool := ((97 <=? code c) && (code c <=? 122))%N.
Definition isDigit (c : ascii) : bool := ((48 <=? code c) && (code c <=? 57))%N.

(* [\w] is [A-Za-z0-9_] *)
Definition isWord (c : ascii) : bool :=
  isUpper c || isLower c || isDigit c || (code c =? 95)%N.

Definition upper (c : ascii) : ascii :=
  if isLower c then ascii_of_N (code c - 32) else c.

Definition lower (c : ascii) : ascii :=
  if isUpper c then ascii_of_N (code c + 32) else c.

Fixpoint map_chars (f : ascii -> ascii) (s : string) : string :=
  match s with
  | EmptyString => EmptyString
  | String c s' => String (f c) (map_chars f s')
  end.

Fixpoint keep_chars (f : ascii -> bool) (s : string) : string :=
  match s with
  | EmptyString => EmptyString
  | String c s' => if f c then String c (keep_chars f s') else keep_chars f s'
  end.

Fixpoint reverse_onto (s acc : string) : string :=
  match s with
  | EmptyString => acc
  | String c s' => reverse_onto s' (String c acc)
  end.

Definition reverse (s : string) : string := reverse_onto s EmptyString.

Fixpoint trimStart (s : string) : string :=
  match s with
  | EmptyString => EmptyString
  | String c s' => if isWhiteSpace c then trimStart s' else s
  end.

Definition trimEnd (s : string) : string := reverse (trimStart (reverse s)).

Definition trim (s : string) : string := trimEnd (trimStart s).

Definition toUpperCase (s : string) : string := map_chars upper s.
Definition toLowerCase (s : string) : string := map_chars lower s.

(** A string-or-null field is truthy when it is a non-empty string. *)
Definition truthy (field : option string) : bool :=
  match field with
  | Some (String _ _) => true
  | _ => false
  end.

(** What [parseTokenRequest] resolves to. *)
Module Parsed.
Record TokenRequest : Type := mkTokenRequest {
  isTokenRequest : bool;
  confidence : Z;
  tokenName : option string;
  tokenSymbol : option string;
  memeTheme : option string;
  emoji : option string
}.
End Parsed.

(** What [validateTokenParams] returns. *)
Record ValidatedParams : Type := mkValidatedParams {
  isValid : bool;
  reason : option string;
  tokenName : option string;
  tokenSymbol : option string;
  memeTheme : option string;
  emoji : option string
}.

(** The eight default strings, byte for byte as the source file holds
    them. *)
Definition defaultEmojis : list string :=
  ["üöÄ"; "üåï"; "üíé"; "üî•"; "ü¶ç"; "üê∂"; "üê±"; "ü§ñ"]%string.

(** The symbol as stored: [.trim().toUpperCase().replace(/[^\w]/g, '')]. *)
Definition formatSymbol (raw : string) : string :=
  keep_chars isWord (toUpperCase (trim raw)).

(** The name as stored: [.trim().replace(/[^\w\s]/g, '')]. *)
Definition formatName (raw : string) : string :=
  keep_chars (fun c => isWord c || isWhiteSpace c) (trim raw).

(** [validateTokenParams(tokenParams)]; [pick] is the index
    [Math.floor(Math.random() * defaultEmojis.length)] would draw. *)
Definition validateTokenParams (tokenParams : Parsed.TokenRequest) (pick : nat)
  : ValidatedParams :=
  if negb (Parsed.isTokenRequest tokenParams)
     || (Parsed.confidence tokenParams <? 70)%Z
  then {| isValid := false;
          reason := Some "Not a token request or low confidence"%string;
          tokenName := None; tokenSymbol := None;
          memeTheme := None; emoji := None |}
  else
  (* Validate and format token name *)
  match Parsed.tokenName tokenParams with
  | Some (String _ _ as name) =>
    let tokenName' := formatName name in
    (* Validate and format token symbol *)
    match Parsed.tokenSymbol tokenParams with
    | Some (String _ _ as symbol) =>
      (* Convert to uppercase and remove special characters *)
      let tokenSymbol' := formatSymbol symbol in
      (* Ensure it's 2-5 characters *)
      if (String.length tokenSymbol' <? 2)%nat
         || (5 <? String.length tokenSymbol')%nat
      then {| isValid := false;
              reason := Some "Token symbol must be 2-5 characters"%string;
              tokenName := Some tokenName'; tokenSymbol := Some tokenSymbol';
              memeTheme := None; emoji := None |}
      else
        {| isValid := true;
           reason := None;
           tokenName := Some tokenName';
           tokenSymbol := Some tokenSymbol';
           (* Validate meme theme *)
           memeTheme :=
             if truthy (Parsed.memeTheme tokenParams)
             then trim <$> Parsed.memeTheme tokenParams
             else Some "Generic meme token"%string;
           (* Validate emoji *)
           emoji :=
             if truthy (Parsed.emoji tokenParams)
             then Parsed.emoji tokenParams
             else defaultEmojis !! (pick mod 8)%nat |}
    | _ =>
      {| isValid := false;
         reason := Some "Missing token symbol"%string;
         tokenName := Some tokenName'; tokenSymbol := None;
         memeTheme := None; emoji := None |}
    end
  | _ =>
    {| isValid := false;
       reason := Some "Missing token name"%string;
       tokenName := None; tokenSymbol := None;
       memeTheme := None; emoji := None |}
  end.

End text_parser.

(** ** [ai/deployer.js] and [dex/deepbook.js]: the deployment workflow *)

Module deployer.

Import text_parser.

(** An awaited call either resolves to a value or throws an error with a
    message. *)
Inductive js (A : Type) : Type :=
| Return (a : A)
| Throw (message : string).
Arguments Return {A} a.
Arguments Throw {A} message.

#[export] Instance js_ret : MRet js := fun A a => Return a.

#[export] Instance js_bind : MBind js := fun A B f m =>
  match m with
  | Return a => f a
  | Throw e => Throw e
  end.

(** [try { body } catch (error) { handler(error.message) }] *)
Definition try_catch {A} (body : js A) (handler : string -> A) : A :=
  match body with
  | Return a => a
  | Throw e => handler e
  end.

(** [s.includes(needle)] *)
Fixpoint includes (s needle : string) : bool :=
  String.prefix needle s ||
  match s with
  | EmptyString => false
  | String _ s' => includes s' needle
  end.

(** What the ledger answers to a submitted transaction block. *)
Record ParsedJson : Type := mkParsedJson {
  token_id : option string;
  pool_id : option string
}.

Record LedgerEvent : Type := mkLedgerEvent {
  type : string;
  parsedJson : option ParsedJson
}.

Record LedgerResponse : Type := mkLedgerResponse {
  digest : string;
  events : list LedgerEvent
}.

(** The Move calls [deployer.js] submits. *)
Inductive moveCall : Type :=
| create_token (name symbol description image_url : string)
               (decimals max_supply initial_supply : N)
| create_protection (token_id : string)
                    (cooldown_period max_buy_percent enable_time_delay : N)
| create_token_fee_config (token_id creator : string).

(** The result object of a single step: [{success, transactionDigest}] or
    [{success: false, error}]. *)
Module Step.
Record t : Type := mk {
  success : bool;
  transactionDigest : option string;
  error : option string
}.
Definition failed (message : string) : t :=
  {| success := false; transactionDigest := None; error := Some message |}.
End Step.

(** Token parameters after [generateTokenMetadata] and the image URLs. *)
Record TokenMetadata : Type := mkTokenMetadata {
  base : ValidatedParams;
  shortDescription : string;
  tokenomics : string;
  hashtags : list string;
  imageUrl : option string;
  animatedUrl : option string
}.

Record GeneratedMetadata : Type := mkGeneratedMetadata {
  g_shortDescription : string;
  g_tokenomics : string;
  g_hashtags : list string
}.

Record Imagery : Type := mkImagery {
  staticImage : option string;
  animatedGif : option string
}.

(** The collaborators, as the answers they give.  [generateTokenImagery],
    [createPool], [depositLiquidity] and [placeLimitOrders] catch every
    error themselves and always resolve to a result object; [lockLiquidity]
    is given by the outcome of its [try] block. *)
Record World : Type := mkWorld {
  (* the chat completion and [JSON.parse] of [parseTokenRequest] *)
  completeTokenRequest : string -> js Parsed.TokenRequest;
  (* the index [Math.random] draws in [validateTokenParams] *)
  randomPick : nat;
  (* the chat completion and [JSON.parse] of [generateTokenMetadata] *)
  completeMetadata : ValidatedParams -> js GeneratedMetadata;
  generateTokenImagery : TokenMetadata -> Imagery;
  (* [createSigner(deployerKey)] *)
  createSigner : js unit;
  (* [signer.signAndExecuteTransactionBlock] *)
  signAndExecuteTransactionBlock : moveCall -> js LedgerResponse;
  (* [signer.getAddress()] *)
  getAddress : js string;
  (* [deepbook.js] *)
  createPool : string -> Step.t * option string;
  depositLiquidity : string -> string -> N -> N -> Step.t;
  placeLimitOrders : string -> string -> Step.t;
  (* the [try] block of [cetus.js]'s [lockLiquidity] *)
  lockLiquidityAttempt : string -> N -> js string
}.

(** The result object of [deployToken]. *)
Module Deployment.
Record t : Type := mk {
  success : bool;
  tokenId : option string;
  transactionDigest : option string;
  error : option string;
  tokenParams : TokenMetadata
}.
End Deployment.

(** The result object of [processTokenDeployment]. *)
Module Outcome.
Record t : Type := mk {
  success : bool;
  reason : option string;
  tokenId : option string;
  tokenParams : option TokenMetadata;
  transactionDigest : option string;
  liquidityAdded : option bool;
  liquidityLocked : option bool;
  source : string;
  userId : string
}.
Definition rejected (why source userId : string) : t :=
  {| success := false; reason := Some why; tokenId := None;
     tokenParams := None; transactionDigest := None;
     liquidityAdded := None; liquidityLocked := None;
     source := source; userId := userId |}.
End Outcome.

Section Workflow.

Variable world : World.

(** [text_parser.js]: [parseTokenRequest] *)
Definition parseTokenRequest (message : string) : Parsed.TokenRequest :=
  try_catch (completeTokenRequest world message)
    (fun _ => {| Parsed.isTokenRequest := false; Parsed.confidence := 0;
                 Parsed.tokenName := None; Parsed.tokenSymbol := None;
                 Parsed.memeTheme := None; Parsed.emoji := None |}).

Definition orEmpty (field : option string) : string := default EmptyString field.

(** [text_parser.js]: [generateTokenMetadata] *)
Definition generateTokenMetadata (baseParams : ValidatedParams)
  : TokenMetadata :=
  try_catch
    (metadata ← completeMetadata world baseParams;
     mret {| base := baseParams;
             shortDescription := g_shortDescription metadata;
             tokenomics := g_tokenomics metadata;
             hashtags := g_hashtags metadata;
             imageUrl := None; animatedUrl := None |})
    (fun _ =>
       {| base := baseParams;
          shortDescription :=
            ("The next big " ++ orEmpty (memeTheme baseParams)
                             ++ " meme token!")%string;
          tokenomics :=
            "1% fee: 80% to creator, 20% to protocol. Initial LP locked for 30 days.";
          hashtags := [("#" ++ orEmpty (tokenSymbol baseParams))%string;
                       "#SuiMeme"%string; "#SuiForge"%string];
          imageUrl := None; animatedUrl := None |}).

(** [Buffer.from(field, 'utf8')] throws on [null]. *)
Definition bufferFrom (field : option string) : js string :=
  match field with
  | Some s => Return s
  | None => Throw "The first argument must be of type string"
  end.

(** [setupAntiBot(tokenId, signer)] *)
Definition setupAntiBot (tokenId : string) : Step.t :=
  try_catch
    (result ← signAndExecuteTransactionBlock world
                (create_protection tokenId 300 500 300);
     mret {| Step.success := true;
             Step.transactionDigest := Some (digest result);
             Step.error := None |})
    Step.failed.

(** [setupFeeDistribution(tokenId, signer)] *)
Definition setupFeeDistribution (tokenId : string) : Step.t :=
  try_catch
    (address ← getAddress world;
     result ← signAndExecuteTransactionBlock world
                (create_token_fee_config tokenId address);
     mret {| Step.success := true;
             Step.transactionDigest := Some (digest result);
             Step.error := None |})
    Step.failed.

(** [extractTokenIdFromEvents(result)] *)
Definition extractTokenIdFromEvents (result : LedgerResponse) : option string :=
  match find (fun event => includes (type event) "::token_factory::TokenCreated")
             (events result) with
  | Some tokenCreatedEvent =>
      match parsedJson tokenCreatedEvent with
      | Some json => token_id json
      | None => None
      end
  | None => None
  end.

(** [deployToken(tokenParams)] *)
Definition deployToken (tokenParams : TokenMetadata) : Deployment.t :=
  try_catch
    (createSigner world;;
     name ← bufferFrom (tokenName (base tokenParams));
     symbol ← bufferFrom (tokenSymbol (base tokenParams));
     description ← bufferFrom (Some (shortDescription tokenParams));
     image_url ← bufferFrom (imageUrl tokenParams);
     (* Execute transaction *)
     result ← signAndExecuteTransactionBlock world
                (create_token name symbol description image_url
                              9 1000000000000 500000000000);
     (* Extract token ID from events *)
     tokenId ← match extractTokenIdFromEvents result with
               | Some (String _ _ as tokenId) => Return tokenId
               | _ => Throw "Failed to extract token ID from events"
               end;
     (* Set up anti-bot protection *)
     let _ := setupAntiBot tokenId in
     (* Create fee configuration *)
     let _ := setupFeeDistribution tokenId in
     (* Return deployment info *)
     mret {| Deployment.success := true;
             Deployment.tokenId := Some tokenId;
             Deployment.transactionDigest := Some (digest result);
             Deployment.error := None;
             Deployment.tokenParams := tokenParams |})
    (fun message =>
       {| Deployment.success := false;
          Deployment.tokenId := None;
          Deployment.transactionDigest := None;
          Deployment.error := Some message;
          Deployment.tokenParams := tokenParams |}).

(** [deepbook.js]: [provideLiquidity(tokenId, tokenAmount, suiAmount)] *)
Definition provideLiquidity (tokenId : string) (tokenAmount suiAmount : N)
  : Step.t :=
  try_catch
    (* First create a pool for the token *)
    (let '(poolResult, poolId) := createPool world tokenId in
     (if Step.success poolResult then Return tt
      else Throw ("Failed to create pool: "
                    ++ orEmpty (Step.error poolResult))%string);;
     let poolId := orEmpty poolId in
     (* Deposit liquidity *)
     let depositResult :=
       depositLiquidity world poolId tokenId tokenAmount suiAmount in
     (if Step.success depositResult then Return tt
      else Throw ("Failed to deposit liquidity: "
                    ++ orEmpty (Step.error depositResult))%string);;
     (* Place limit orders *)
     let orderResult := placeLimitOrders world poolId tokenId in
     (if Step.success orderResult then Return tt
      else Throw ("Failed to place limit orders: "
                    ++ orEmpty (Step.error orderResult))%string);;
     mret {| Step.success := true;
             Step.transactionDigest := Step.transactionDigest orderResult;
             Step.error := None |})
    Step.failed.

(** [cetus.js]: [lockLiquidity(tokenId, lockDuration)] *)
Definition lockLiquidity (tokenId : string) (lockDuration : N) : Step.t :=
  try_catch
    (txDigest ← lockLiquidityAttempt world tokenId lockDuration;
     mret {| Step.success := true;
             Step.transactionDigest := Some txDigest;
             Step.error := None |})
    Step.failed.

(** [s.toLowerCase()] on a field that may be [null] *)
Definition lowerCased (field : option string) : js string :=
  match field with
  | Some s => Return (toLowerCase s)
  | None => Throw "Cannot read properties of null (reading 'toLowerCase')"
  end.

(** [processTokenDeployment(message, source, userId)] *)
Definition processTokenDeployment (message source userId : string)
  : Outcome.t :=
  try_catch
    ((* Parse token request *)
     let parsedRequest := parseTokenRequest message in
     (* Check if this is a token request *)
     if negb (Parsed.isTokenRequest parsedRequest)
        || (Parsed.confidence parsedRequest <? 70)%Z
     then Return (Outcome.rejected
                    "Not a valid token request or low confidence"
                    source userId)
     else
     (* Validate token parameters *)
     let validatedParams :=
       validateTokenParams parsedRequest (randomPick world) in
     if negb (isValid validatedParams)
     then Return (Outcome.rejected (orEmpty (reason validatedParams))
                                   source userId)
     else
     (* Generate metadata *)
     let tokenMetadata := generateTokenMetadata validatedParams in
     (* Generate images *)
     let tokenImagery := generateTokenImagery world tokenMetadata in
     (* Add image URLs to metadata *)
     imageUrl' ←
       (if truthy (staticImage tokenImagery)
        then symbol ← lowerCased (tokenSymbol (base tokenMetadata));
             mret ("https://suiforge.io/tokens/" ++ symbol
                     ++ "_static.png")%string
        else mret "https://suiforge.io/default_token.png"%string);
     animatedUrl' ←
       (if truthy (animatedGif tokenImagery)
        then symbol ← lowerCased (tokenSymbol (base tokenMetadata));
             mret (Some ("https://suiforge.io/tokens/" ++ symbol
                           ++ "_animated.gif")%string)
        else mret None);
     let tokenMetadata :=
       {| base := base tokenMetadata;
          shortDescription := shortDescription tokenMetadata;
          tokenomics := tokenomics tokenMetadata;
          hashtags := hashtags tokenMetadata;
          imageUrl := Some imageUrl';
          animatedUrl := animatedUrl' |} in
     (* Deploy token *)
     let deploymentResult := deployToken tokenMetadata in
     if negb (Deployment.success deploymentResult)
     then Return (Outcome.rejected
                    ("Deployment failed: "
                       ++ orEmpty (Deployment.error deploymentResult))
                    source userId)
     else
     let tokenId := orEmpty (Deployment.tokenId deploymentResult) in
     (* Add liquidity to DeepBook *)
     let liquidityResult :=
       provideLiquidity tokenId 1000000000 50000000000 in
     (* Lock liquidity on Cetus *)
     let lockResult := lockLiquidity tokenId (30 * 24 * 60 * 60) in
     Return {| Outcome.success := true;
               Outcome.reason := None;
               Outcome.tokenId := Deployment.tokenId deploymentResult;
               Outcome.tokenParams := Some tokenMetadata;
               Outcome.transactionDigest :=
                 Deployment.transactionDigest deploymentResult;
               Outcome.liquidityAdded := Some (Step.success liquidityResult);
               Outcome.liquidityLocked := Some (Step.success lockResult);
               Outcome.source := source;
               Outcome.userId := userId |})
    (fun message =>
       Outcome.rejected ("Processing error: " ++ message) source userId).

End Workflow.


End deployer.

(** ** Auxiliary notions used to state the properties *)

Module anti_bot_checks.

Import anti_bot.

(** The buy-limit and cooldown checks of [check_can_buy], together with the
    range checks of the [u64] arithmetic they go through, at time [now]
    (in seconds). *)
Definition within_limits (p : TokenProtection) (buyer : address)
           (amount total_supply now : N) : bool :=
  (total_supply * max_buy_percent p <=? MAX_U64)%N
  && (amount <=? total_supply * max_buy_percent p / 10000)%N
  && match buy_tracking p !! buyer with
     | Some info =>
         (last_buy_time info <=? now)%N
         && (cooldown_period p <=? now - last_buy_time info)%N
         && (total_bought info + amount <=? MAX_U64)%N
     | None => true
     end.

(** What the buyer had bought before the call, as far as the tracking table
    knows. *)
Definition bought_so_far (p : TokenProtection) (buyer : address) : N :=
  match buy_tracking p !! buyer with
  | Some info => total_bought info
  | None => 0%N
  end.

(** The protection with the [total_bought] of [buyer]'s record replaced. *)
Definition with_total_bought (p : TokenProtection) (buyer : address) (v : N)
  : TokenProtection :=
  set_buy_tracking p
    (alter (fun info => {| total_bought := v;
                           last_buy_time := last_buy_time info |})
           buyer (buy_tracking p)).

(** The largest single purchase the protection lets through. *)
Definition total_supply_cap (p : TokenProtection) (total_supply : N) : N :=
  (total_supply * max_buy_percent p / 10000)%N.

(** Whether a call got through, and what it answered, without the state. *)
Definition verdict {A S} (r : result (A * S * TxState)) : result A :=
  match r with
  | Ok ((a, _), _) => Ok a
  | Fail f => Fail f
  end.

End anti_bot_checks.

(** ** The rate limiter seen from one user *)

Module rate_view.

Import telegram.

(** What [isRateLimited] answers and stores for a user whose entry in the
    tracker is [entry], at second [now]. *)
Definition check (entry : option UserData) (now : Z) : bool * UserData :=
  match entry with
  | None =>
      (false, {| count := 1; firstRequest := now;
                 isCoolingDown := false; cooldownUntil := 0 |})
  | Some userData =>
      if isCoolingDown userData then
        if (now <? cooldownUntil userData)%Z then (true, userData)
        else (false, {| count := 1; firstRequest := now;
                        isCoolingDown := false;
                        cooldownUntil := cooldownUntil userData |})
      else if (now - firstRequest userData <? RATE_LIMIT.timeWindow)%Z then
        if (RATE_LIMIT.maxRequests <=? count userData)%Z then
          (true, {| count := count userData;
                    firstRequest := firstRequest userData;
                    isCoolingDown := true;
                    cooldownUntil := (now + RATE_LIMIT.cooldown)%Z |})
        else
          (false, {| count := (count userData + 1)%Z;
                     firstRequest := firstRequest userData;
                     isCoolingDown := isCoolingDown userData;
                     cooldownUntil := cooldownUntil userData |})
      else
        (false, {| count := 1; firstRequest := now;
                   isCoolingDown := isCoolingDown userData;
                   cooldownUntil := cooldownUntil userData |})
  end.

(** A request at second [now] opens a new window for the user: there is no
    entry yet, or the window of the entry has passed, or its cooldown has
    ended. *)
Definition opens_window (entry : option UserData) (now : Z) : bool :=
  match entry with
  | None => true
  | Some userData =>
      if isCoolingDown userData then (cooldownUntil userData <=? now)%Z
      else negb (now - firstRequest userData <? RATE_LIMIT.timeWindow)%Z
  end.

(** Requests of users other than [userId]. *)
Definition by_others (userId : Z) (requests : list (Z * Z)) : Prop :=
  Forall (fun r => fst r <> userId) requests.

End rate_view.

(** ** Text made of ASCII characters *)

Module ascii_text.

Fixpoint all_chars (f : ascii -> bool) (s : string) : bool :=
  match s with
  | EmptyString => true
  | String c s' => f c && all_chars f s'
  end.

Definition is_ascii_text (s : string) : bool :=
  all_chars text_parser.is_ascii s.

(** The characters of a symbol that survive: upper-cased word characters. *)
Definition kept (s : string) : string :=
  text_parser.keep_chars text_parser.isWord (text_parser.toUpperCase s).

End ascii_text.

(** ** What a run hands to [deployToken] *)

Module deployment_view.

Import text_parser deployer.

(** The steps of [processTokenDeployment] up to the call of [deployToken]:
    the token metadata that call is given.  [Return None] when the request
    is turned down before, by the confidence test or by the validation;
    [Throw] when building an image URL throws. *)
Definition tokenMetadata (world : World) (message : string)
  : js (option TokenMetadata) :=
  (* Parse token request *)
  let parsedRequest := parseTokenRequest world message in
  (* Check if this is a token request *)
  if negb (Parsed.isTokenRequest parsedRequest)
     || (Parsed.confidence parsedRequest <? 70)%Z
  then Return None
  else
  (* Validate token parameters *)
  let validatedParams :=
    validateTokenParams parsedRequest (randomPick world) in
  if negb (isValid validatedParams)
  then Return None
  else
  (* Generate metadata *)
  let tokenMetadata := generateTokenMetadata world validatedParams in
  (* Generate images *)
  let tokenImagery := generateTokenImagery world tokenMetadata in
  (* Add image URLs to metadata *)
  imageUrl' ←
    (if truthy (staticImage tokenImagery)
     then symbol ← lowerCased (tokenSymbol (base tokenMetadata));
          mret ("https://suiforge.io/tokens/" ++ symbol
                  ++ "_static.png")%string
     else mret "https://suiforge.io/default_token.png"%string);
  animatedUrl' ←
    (if truthy (animatedGif tokenImagery)
     then symbol ← lowerCased (tokenSymbol (base tokenMetadata));
          mret (Some ("https://suiforge.io/tokens/" ++ symbol
                        ++ "_animated.gif")%string)
     else mret None);
  Return (Some {| base := base tokenMetadata;
                  shortDescription := shortDescription tokenMetadata;
                  tokenomics := tokenomics tokenMetadata;
                  hashtags := hashtags tokenMetadata;
                  imageUrl := Some imageUrl';
                  animatedUrl := animatedUrl' |}).


End deployment_view.

(** ** Sample states and inputs *)

Module Samples.

Local Open Scope N_scope.

Definition context_of (who : address) : TxContext :=
  {| sender := who; epoch_timestamp_ms := 1000000;
     fresh_id := fun n => 1000 + N.of_nat n; ids_created := 0%nat |}.

Definition at_second (t : N) : Clock := {| timestamp_ms := t * 1000 |}.

(** The protection account 1 creates for token 100 at second 1000, with
    the parameters [deployer.js] passes: cooldown 300 s, cap 500 bps,
    trading enabled after 300 s. *)
Definition protection : anti_bot.TokenProtection :=
  {| anti_bot.id := 1000; anti_bot.token_id := 100; anti_bot.owner := 1;
     anti_bot.trading_enabled := false; anti_bot.enable_time := 1300;
     anti_bot.cooldown_period := 300; anti_bot.max_buy_percent := 500;
     anti_bot.whitelist := [1]; anti_bot.blacklist := ∅;
     anti_bot.buy_tracking := ∅ |}.

(** The same protection after its owner called [enable_trading]. *)
Definition protection_enabled : anti_bot.TokenProtection :=
  anti_bot.set_trading_enabled protection true.

(** [protection_enabled] once account 7 has bought [amount] at second
    [now]. *)
Definition protection_after_buy (amount now : N) : anti_bot.TokenProtection :=
  anti_bot.set_buy_tracking protection_enabled
    (<[7 := {| anti_bot.total_bought := amount;
               anti_bot.last_buy_time := now |}]> ∅).

(** The locker as [init] shares it, and an LP coin of type 55 worth 1000. *)
Definition locker : liquidity_locker.LiquidityLocker :=
  {| liquidity_locker.id := 1001; liquidity_locker.locks := ∅;
     liquidity_locker.min_lock_duration := 2592000;
     liquidity_locker.lock_count := 0 |}.

Definition lp_tokens : liquidity_locker.Coin :=
  {| liquidity_locker.coin_type := 55; liquidity_locker.value := 1000 |}.

(** The lock account 1 gets for [lp_tokens], locked at second 1000 for 30
    days, and the locker holding it under id 1000. *)
Definition lock : liquidity_locker.Lock :=
  {| liquidity_locker.token_balance := 1000;
     liquidity_locker.token_type := 55;
     liquidity_locker.locker := 1;
     liquidity_locker.unlock_time := 2593000 |}.

Definition locker_holding : liquidity_locker.LiquidityLocker :=
  {| liquidity_locker.id := 1001;
     liquidity_locker.locks := <[1000 := lock]> ∅;
     liquidity_locker.min_lock_duration := 2592000;
     liquidity_locker.lock_count := 1 |}.

(** The fee distributor as [init] shares it, and the fee configuration of
    token 100. *)
Definition distributor : fee_distributor.FeeDistributor :=
  {| fee_distributor.id := 1001;
     fee_distributor.protocol_fee_bps := 200;
     fee_distributor.creator_fee_bps := 800;
     fee_distributor.protocol_fee_recipient := 1;
     fee_distributor.protocol_balance := 0;
     fee_distributor.total_fees_collected := 0 |}.

Definition fee_config : fee_distributor.TokenFeeConfig :=
  {| fee_distributor.config_id := 1000;
     fee_distributor.token_id := 100;
     fee_distributor.creator := 2;
     fee_distributor.creator_balance := 0;
     fee_distributor.fees_collected := 0 |}.

(** A parsed request for a token called CatMoon with the given symbol. *)
Definition request_with_symbol (symbol : string)
  : text_parser.Parsed.TokenRequest :=
  {| text_parser.Parsed.isTokenRequest := true;
     text_parser.Parsed.confidence := 85;
     text_parser.Parsed.tokenName := Some "CatMoon"%string;
     text_parser.Parsed.tokenSymbol := Some symbol;
     text_parser.Parsed.memeTheme := Some "rocket cat"%string;
     text_parser.Parsed.emoji := None |}.

(** The ledger's answer to a [create_token] call that went through. *)
Definition token_created : deployer.LedgerResponse :=
  {| deployer.digest := "0xD16E57";
     deployer.events :=
       [{| deployer.type := "0x9::token_factory::TokenCreated";
           deployer.parsedJson :=
             Some {| deployer.token_id := Some "0x70CE";
                     deployer.pool_id := None |} |}] |}%string.

Definition step_done : deployer.Step.t :=
  {| deployer.Step.success := true;
     deployer.Step.transactionDigest := Some "0x57E9"%string;
     deployer.Step.error := None |}.

(** A world in which the request parses to CatMoon/CMON and the token is
    created; the four later steps go through or not as the flags say. *)
Definition world (protection fees liquidity lock : bool) : deployer.World :=
  {| deployer.completeTokenRequest :=
       fun _ => deployer.Return (request_with_symbol "CMON");
     deployer.randomPick := 0%nat;
     deployer.completeMetadata :=
       fun _ => deployer.Throw "completion unavailable";
     deployer.generateTokenImagery :=
       fun _ => {| deployer.staticImage := None;
                   deployer.animatedGif := None |};
     deployer.createSigner := deployer.Return tt;
     deployer.signAndExecuteTransactionBlock :=
       fun call =>
         match call with
         | deployer.create_token _ _ _ _ _ _ _ => deployer.Return token_created
         | deployer.create_protection _ _ _ _ =>
             if protection
             then deployer.Return {| deployer.digest := "0xA271";
                                     deployer.events := [] |}
             else deployer.Throw "transaction rejected"
         | deployer.create_token_fee_config _ _ =>
             if fees
             then deployer.Return {| deployer.digest := "0xFEE5";
                                     deployer.events := [] |}
             else deployer.Throw "transaction rejected"
         end;
     deployer.getAddress := deployer.Return "0xDE9107E2";
     deployer.createPool :=
       fun _ => if liquidity then (step_done, Some "0x9001")
                else (deployer.Step.failed "pool not created", None);
     deployer.depositLiquidity := fun _ _ _ _ => step_done;
     deployer.placeLimitOrders := fun _ _ => step_done;
     deployer.lockLiquidityAttempt :=
       fun _ _ => if lock then deployer.Return "0x10C2"
                  else deployer.Throw "No LP tokens found" |}%string.

(** The same world, but the deployer key is missing: [createSigner]
    throws. *)
Definition world_without_key : deployer.World :=
  let w := world true true true true in
  {| deployer.completeTokenRequest := deployer.completeTokenRequest w;
     deployer.randomPick := deployer.randomPick w;
     deployer.completeMetadata := deployer.completeMetadata w;
     deployer.generateTokenImagery := deployer.generateTokenImagery w;
     deployer.createSigner := deployer.Throw "Cannot read properties of undefined"%string;
     deployer.signAndExecuteTransactionBlock :=
       deployer.signAndExecuteTransactionBlock w;
     deployer.getAddress := deployer.getAddress w;
     deployer.createPool := deployer.createPool w;
     deployer.depositLiquidity := deployer.depositLiquidity w;
     deployer.placeLimitOrders := deployer.placeLimitOrders w;
     deployer.lockLiquidityAttempt := deployer.lockLiquidityAttempt w |}.

Definition sample_message : string :=
  "create a rocket cat token called CatMoon with symbol CMON".

End Samples.

(** ** Transactions on the shared locker *)

Module locker_history.

Import liquidity_locker.

(** The calls a transaction can make on the shared [LiquidityLocker]. *)
Inductive call : Type :=
| LockLiquidity (lp_tokens : Coin) (lock_duration : N)
| UnlockLiquidity (lock_id : address)
| UpdateMinLockDuration (cap : AdminCap) (new_duration : N).

Definition dispatch (c : call) (clock : Clock) (l : LiquidityLocker)
  : M LiquidityLocker :=
  match c with
  | LockLiquidity lp_tokens lock_duration =>
      lock_liquidity l clock lp_tokens lock_duration
  | UnlockLiquidity lock_id => unlock_liquidity l clock lock_id
  | UpdateMinLockDuration cap new_duration =>
      update_min_lock_duration cap l new_duration
  end.

Definition transact (l : LiquidityLocker) (t : call * Clock * TxContext)
  : LiquidityLocker :=
  let '(c, clock, context) := t in
  committed l (dispatch c clock l (begin_tx context)).

(** The locker states that exist on chain. *)
Inductive reachable : LiquidityLocker -> Prop :=
| reachable_init (c : TxContext) (cap : AdminCap) (l : LiquidityLocker)
                 (st : TxState) :
    init (begin_tx c) = Ok ((cap, l), st) -> reachable l
| reachable_transact (l : LiquidityLocker) (t : call * Clock * TxContext) :
    reachable l -> reachable (transact l t).

(** The value the locker holds in escrow: the balances of its locks. *)
Definition escrowed (l : LiquidityLocker) : N :=
  map_fold (fun _ lock total => (token_balance lock + total)%N) 0%N (locks l).

(** The value a call brings in, and the value a transaction sent out. *)
Definition deposited (c : call) : N :=
  match c with
  | LockLiquidity lp_tokens _ => value lp_tokens
  | _ => 0%N
  end.

Definition paid_out (st : TxState) : N :=
  foldr (fun t total => (snd t + total)%N) 0%N (transferred st).

End locker_history.

(** ** [dex/deepbook.js]: the order ladder *)

Module deepbook.

Record Order : Type := mkOrder {
  price : Z;
  quantity : Z;
  side : bool  (* true for buy, false for sell *)
}.

(** [generateOrderBook(basePrice, levels = 5, spreadPercent = 10)].  Prices
    and quantities are [BigInt]s, whose division truncates towards zero;
    [levels] counts the iterations of the two loops. *)
Definition generateOrderBook (basePrice : Z) (levels : nat)
           (spreadPercent : Z) : list Order :=
  (* Calculate spread *)
  let spread := Z.quot (basePrice * spreadPercent) 100 in
  let bidBasePrice := (basePrice - spread)%Z in
  let askBasePrice := (basePrice + spread)%Z in
  (* Generate bid orders (buys) *)
  map (fun i : nat =>
         (* Each level decreases in price by 5% *)
         let priceDrop := Z.quot (bidBasePrice * (Z.of_nat i * 5)) 100 in
         {| price := (bidBasePrice - priceDrop)%Z;
            (* Quantity increases as price decreases *)
            quantity := (10000000 * (Z.of_nat i + 1))%Z;
            side := true |})
      (seq 0 levels)
  ++
  (* Generate ask orders (sells) *)
  map (fun i : nat =>
         (* Each level increases in price by 5% *)
         let priceIncrease := Z.quot (askBasePrice * (Z.of_nat i * 5)) 100 in
         {| price := (askBasePrice + priceIncrease)%Z;
            quantity := (10000000 * (Z.of_nat i + 1))%Z;
            side := false |})
      (seq 0 levels).

End deepbook.

(** ** [listeners/telegram.js]: handling one message *)

Module telegram_bot.

Import telegram text_parser deployer.

Definition plural (n : Z) : string :=
  if (n =? 1)%Z then ""%string else "s"%string.

(** [getCooldownTimeRemaining(userId)]; [date_now] is what [Date.now()]
    answers. *)
Definition getCooldownTimeRemaining (userId date_now : Z)
           (userActivityTracker : gmap Z UserData) : string :=
  match userActivityTracker !! userId with
  | None => "no cooldown"%string
  | Some userData =>
      if negb (isCoolingDown userData) then "no cooldown"%string
      else
        let now := (date_now / 1000)%Z in
        let remaining := (cooldownUntil userData - now)%Z in
        if (remaining <=? 0)%Z then "cooldown ended"%string
        else
          let hours := (remaining / 3600)%Z in
          let minutes := (Z.rem remaining 3600 / 60)%Z in
          (pretty hours ++ " hour" ++ plural hours ++ " and "
             ++ pretty minutes ++ " minute" ++ plural minutes)%string
  end.

(** The text message a Telegram update carries. *)
Record Update : Type := mkUpdate {
  message_id : Z;
  from_id : Z;
  text : string
}.

(** The sending side of the Telegram context: both calls may throw. *)
Record Chat : Type := mkChat {
  reply : string -> js unit;
  sendChatAction : js unit
}.

(** What [processMessage] resolves to: [{skipped: true, reason}], the
    deployment result, or [{error}]. *)
Inductive Processed : Type :=
| Skipped (reason : string)
| Handled (deploymentResult : Outcome.t)
| Failed (error : string).

(** The two module-level collections of the listener. *)
Record BotState : Type := mkBotState {
  processedMessages : gset Z;
  userActivityTracker : gmap Z UserData
}.

Definition newline : string := String (ascii_of_N 10) EmptyString.
Definition quote : string := String (ascii_of_N 34) EmptyString.

Definition rateLimitNotice (cooldownTime : string) : string :=
  ("⚠️ Rate limit exceeded. Please try again in " ++ cooldownTime ++ ".")%string.

Definition notRecognized : string :=
  ("I didn't recognize that as a token creation request. Please describe the meme token you want to create, including a name and symbol."
     ++ newline ++ newline ++ "Example: " ++ quote
     ++ "Create a rocket cat token called CatMoon with symbol CMON"
     ++ quote)%string.

(** [s.length].  A JavaScript string is embedded as its UTF-8 encoding and
    its length is counted in UTF-16 code units: a byte [10xxxxxx] continues
    a character, and a character that starts with [11110xxx] and takes four
    bytes lies beyond the basic plane and takes two units. *)
Definition isContinuation (c : ascii) : bool :=
  ((128 <=? code c) && (code c <? 192))%N.

Fixpoint utf16_length (s : string) : nat :=
  match s with
  | EmptyString => 0
  | String c s' =>
      if (240 <=? code c)%N then
        match s' with
        | String _ (String _ (String _ rest)) => 2 + utf16_length rest
        | _ => 1 + utf16_length s'
        end
      else if isContinuation c then utf16_length s'
      else 1 + utf16_length s'
  end.

(** [processMessage(ctx)].  [date_now] is the clock reading of
    [isRateLimited], [date_later] the one of [getCooldownTimeRemaining].
    The collections are updated before anything can throw, so they are
    returned next to the result.  [replyWithSuccess] and [replyWithFailure]
    catch their own errors and their results are not used; the last branch
    tests two fields the deployment result does not have, so it is always
    taken. *)
Definition processMessage (world : World) (chat : Chat) (update : Update)
           (date_now date_later : Z) (state : BotState)
  : Processed * BotState :=
  let messageId := message_id update in
  let userId := from_id update in
  let messageText := text update in
  (* Skip if we've already processed this message *)
  if bool_decide (messageId ∈ processedMessages state)
  then (Skipped "Already processed", state)
  else
    (* Add to processed set *)
    let processed := {[messageId]} ∪ processedMessages state in
    (* Check for rate limiting *)
    let '(limited, tracker) :=
      isRateLimited userId date_now (userActivityTracker state) in
    (try_catch
       (if limited then
          let cooldownTime :=
            getCooldownTimeRemaining userId date_later tracker in
          reply chat (rateLimitNotice cooldownTime);;
          mret (Skipped "Rate limited")
        (* Skip commands *)
        else if String.prefix "/" messageText
        then mret (Skipped "Command message")
        (* Skip if message is too short *)
        else if (utf16_length messageText <? 5)%nat
        then mret (Skipped "Message too short")
        else
          (* Send typing indicator *)
          sendChatAction chat;;
          (* Process message as a token request *)
          let deploymentResult :=
            processTokenDeployment world messageText "telegram"
                                   (pretty userId) in
          (* Handle the result *)
          (if Outcome.success deploymentResult then mret tt
           else if match Outcome.reason deploymentResult with
                   | Some (String _ _ as why) =>
                       includes why "Deployment failed"
                   | _ => false
                   end
           then mret tt
           else reply chat notRecognized);;
          mret (Handled deploymentResult))
       Failed,
     {| processedMessages := processed; userActivityTracker := tracker |}).

(** A sequence of updates handled one after the other. *)
Definition processAll (world : World) (chat : Chat)
           (updates : list (Update * Z * Z)) (state : BotState) : BotState :=
  fold_left
    (fun st u => snd (processMessage world chat (fst (fst u)) (snd (fst u))
                                     (snd u) st))
    updates state.

End telegram_bot.

(** ** Answers of the rate limiter to one user's requests *)

Module rate_answers.

Import telegram.

(** The answers [isRateLimited] gives to the requests a user makes at the
    clock readings [dates], in order. *)
Fixpoint answers (userId : Z) (dates : list Z) (tracker : gmap Z UserData)
  : list bool :=
  match dates with
  | [] => []
  | date_now :: later =>
      let '(limited, tracker') := isRateLimited userId date_now tracker in
      limited :: answers userId later tracker'
  end.

End rate_answers.

(** ** More sample inputs *)

Module MoreSamples.

(** A chat that delivers everything, and one whose [reply] throws. *)
Definition chat : telegram_bot.Chat :=
  {| telegram_bot.reply := fun _ => deployer.Return tt;
     telegram_bot.sendChatAction := deployer.Return tt |}.

Definition chat_blocked : telegram_bot.Chat :=
  {| telegram_bot.reply := fun _ => deployer.Throw "Forbidden: bot was blocked by the user"%string;
     telegram_bot.sendChatAction := deployer.Return tt |}.

Definition bot_start : telegram_bot.BotState :=
  {| telegram_bot.processedMessages := ∅;
     telegram_bot.userActivityTracker := ∅ |}.

Definition update (message_id : Z) (text : string) : telegram_bot.Update :=
  {| telegram_bot.message_id := message_id;
     telegram_bot.from_id := 42;
     telegram_bot.text := text |}.





(** A user put in cooldown until second 87580. *)
Definition cooling : telegram.UserData :=
  {| telegram.count := 3; telegram.firstRequest := 1000;
     telegram.isCoolingDown := true; telegram.cooldownUntil := 87580 |}.

End MoreSamples.

(** * Properties *)

(** ** Reasoning about transactions *)

Ltac run_tx :=
  unfold mbind, M_bind, mret, M_ret, Sui.assert, Sui.fail, tx_sender,
    tx_epoch_timestamp_ms, emit, public_transfer, object_new, table_new,
    table_add, table_remove, vector_remove, balance_join, balance_split,
    Sui.add, Sui.sub, Sui.mul, Sui.div; simpl.

Lemma vector_index_of_found (v : list address) (a : address) :
  fst (vector_index_of v a) = vector_contains v a.
Proof.
  induction v as [|x v IH]; simpl; [reflexivity|].
  rewrite (N.eqb_sym a x).
  destruct (x =? a)%N; simpl; [reflexivity|].
  destruct (vector_index_of v a) as [found i]; simpl in *. exact IH.
Qed.

Lemma vector_index_of_lookup (v : list address) (a : address) :
  vector_contains v a = true ->
  v !! snd (vector_index_of v a) = Some a.
Proof.
  induction v as [|x v IH]; simpl; [discriminate|].
  rewrite (N.eqb_sym a x).
  destruct (x =? a)%N eqn:E; simpl.
  - intros _. apply N.eqb_eq in E. congruence.
  - intros H. destruct (vector_index_of v a) as [found i]; simpl in *. auto.
Qed.

Lemma table_contains_true {V} (t : gmap address V) (k : address) :
  table_contains t k = true <-> is_Some (t !! k).
Proof. unfold table_contains. apply bool_decide_eq_true. Qed.

Lemma table_contains_false {V} (t : gmap address V) (k : address) :
  table_contains t k = false <-> t !! k = None.
Proof.
  unfold table_contains. rewrite bool_decide_eq_false.
  rewrite eq_None_not_Some. reflexivity.
Qed.

(** ** Whitelist mutation *)

Section Whitelist.

Import anti_bot.

Local Open Scope N_scope.

(** C8. [add_to_whitelist] and [remove_from_whitelist] abort for a caller
    who is not the owner; for the owner, adding an address that is already
    whitelisted aborts with [EAddressAlreadyWhitelisted] and removing one
    that is absent aborts with [EAddressNotWhitelisted].  In each of these
    cases the stored protection, and so its whitelist, is what it was.  The
    other two cases do change the list: the address is appended, or its
    entry is taken out. *)
Theorem C8_whitelist_fail_loud (p : TokenProtection) (a : address)
        (st : TxState) :
  (sender (ctx st) <> owner p ->
     add_to_whitelist p a st = Fail (Abort 0) /\
     remove_from_whitelist p a st = Fail (Abort 0) /\
     committed p (add_to_whitelist p a st) = p /\
     committed p (remove_from_whitelist p a st) = p) /\
  (sender (ctx st) = owner p -> is_whitelisted p a = true ->
     add_to_whitelist p a st = Fail (Abort EAddressAlreadyWhitelisted) /\
     committed p (add_to_whitelist p a st) = p) /\
  (sender (ctx st) = owner p -> is_whitelisted p a = false ->
     remove_from_whitelist p a st = Fail (Abort EAddressNotWhitelisted) /\
     committed p (remove_from_whitelist p a st) = p) /\
  (sender (ctx st) = owner p -> is_whitelisted p a = false ->
     whitelist (committed p (add_to_whitelist p a st)) = whitelist p ++ [a]) /\
  (sender (ctx st) = owner p -> is_whitelisted p a = true ->
     exists i, whitelist p !! i = Some a /\
       whitelist (committed p (remove_from_whitelist p a st))
       = take i (whitelist p) ++ drop (S i) (whitelist p)).
Proof.
  unfold add_to_whitelist, remove_from_whitelist, is_whitelisted.
  pose proof (vector_index_of_found (whitelist p) a) as Hfound.
  pose proof (vector_index_of_lookup (whitelist p) a) as Hlookup.
  destruct (vector_index_of (whitelist p) a) as [found i]; simpl in *.
  run_tx.
  destruct (N.eqb_spec (owner p) (sender (ctx st))) as [Ho|Ho].
  - split; [intros Hne; congruence|].
    subst found.
    destruct (vector_contains (whitelist p) a) eqn:Hw; simpl.
    + rewrite (Hlookup eq_refl). simpl.
      repeat split; try discriminate; auto.
      intros _ _. exists i. auto.
    + repeat split; try discriminate; auto.
  - repeat split; auto; intros; congruence.
Qed.

Lemma C8_whitelist_fail_loud_witness :
  add_to_whitelist Samples.protection 1 (begin_tx (Samples.context_of 1))
  = Fail (Abort EAddressAlreadyWhitelisted) /\
  remove_from_whitelist Samples.protection 7 (begin_tx (Samples.context_of 1))
  = Fail (Abort EAddressNotWhitelisted) /\
  add_to_whitelist Samples.protection 7 (begin_tx (Samples.context_of 2))
  = Fail (Abort 0) /\
  whitelist (committed Samples.protection
               (add_to_whitelist Samples.protection 7
                  (begin_tx (Samples.context_of 1))))
  = [1; 7].
Proof.
  split; [|split; [|split]].
  - apply (C8_whitelist_fail_loud Samples.protection 1
             (begin_tx (Samples.context_of 1))); reflexivity.
  - apply (C8_whitelist_fail_loud Samples.protection 7
             (begin_tx (Samples.context_of 1))); reflexivity.
  - apply (C8_whitelist_fail_loud Samples.protection 7
             (begin_tx (Samples.context_of 2))). vm_compute. discriminate.
  - apply (C8_whitelist_fail_loud Samples.protection 7
             (begin_tx (Samples.context_of 1))); reflexivity.
Defined.

End Whitelist.

(** ** Trading activation, buy tracking and the buy cap *)

Section Trading.

Import anti_bot anti_bot_checks.

Local Open Scope N_scope.

Ltac tx_cases :=
  repeat (simpl;
    match goal with
    | |- context [if ?c then _ else _] => destruct c eqn:?
    | |- context [match ?t !! ?k with _ => _ end] => destruct (t !! k) eqn:?
    | |- context [let '(_, _) := ?x in _] => destruct x eqn:?
    end).

Lemma sample_protection_created :
  exists st, create_protection 100 300 500 300 (Samples.at_second 1000)
               (begin_tx (Samples.context_of 1))
             = Ok (Samples.protection, st).
Proof. eexists. vm_compute. reflexivity. Qed.

Lemma sample_protection_enabled :
  transact Samples.protection
           (EnableTrading, Samples.at_second 1100, Samples.context_of 1)
  = Samples.protection_enabled.
Proof. reflexivity. Qed.

(** No call turns the flag off: a call that commits leaves it set. *)
Lemma dispatch_keeps_trading_enabled (c : call) (clock : Clock)
      (p p' : TokenProtection) (st st' : TxState) :
  dispatch c clock p st = Ok (p', st') ->
  trading_enabled p = true -> trading_enabled p' = true.
Proof.
  destruct c; simpl;
    unfold check_can_buy, add_to_whitelist, remove_from_whitelist,
      add_to_blacklist, remove_from_blacklist, enable_trading,
      update_max_buy_percent, update_cooldown_period;
    run_tx; tx_cases; intros H Ht; inversion H; subst; simpl; auto.
Qed.

Lemma transact_keeps_trading_enabled (p : TokenProtection)
      (t : call * Clock * TxContext) :
  trading_enabled p = true -> trading_enabled (transact p t) = true.
Proof.
  destruct t as [[c clock] context]. unfold transact, committed.
  destruct (dispatch c clock p (begin_tx context)) as [[p' st']|f] eqn:E; auto.
  eapply dispatch_keeps_trading_enabled; eauto.
Qed.

Lemma history_keeps_trading_enabled (ts : list (call * Clock * TxContext))
      (p : TokenProtection) :
  trading_enabled p = true -> trading_enabled (history p ts) = true.
Proof.
  revert p. induction ts as [|t ts IH]; intros p Hp; simpl; [exact Hp|].
  apply IH. apply transact_keeps_trading_enabled. exact Hp.
Qed.

(** What [check_can_buy] does for a buyer on neither list whose purchase is
    within the limits, once trading is or can be enabled. *)
Lemma check_can_buy_passes (p : TokenProtection) (buyer : address)
      (amount total_supply : N) (clock : Clock) (st : TxState) :
  let now := timestamp_ms clock / 1000 in
  is_whitelisted p buyer = false ->
  blacklist p !! buyer = None ->
  trading_enabled p || (enable_time p <=? now) = true ->
  within_limits p buyer amount total_supply now = true ->
  exists st',
    check_can_buy p buyer amount total_supply clock st
    = Ok ((true,
           set_buy_tracking (set_trading_enabled p true)
             (<[buyer := {| total_bought := bought_so_far p buyer + amount;
                            last_buy_time := now |}]> (buy_tracking p))),
          st').
Proof.
  intros now Hw Hb Hen Hlim.
  unfold check_can_buy, within_limits, bought_so_far in *. fold now in Hlim |- *.
  rewrite Hw. apply table_contains_false in Hb. rewrite Hb.
  apply andb_true_iff in Hlim as [Hlim Htrack].
  apply andb_true_iff in Hlim as [Hmul Hcap].
  run_tx.
  destruct (trading_enabled p) eqn:Ht; simpl in *.
  - rewrite Hmul. simpl. rewrite Hcap. simpl.
    destruct (buy_tracking p !! buyer) as [info|] eqn:Hinfo; simpl.
    + apply andb_true_iff in Htrack as [Htrack Hadd].
      apply andb_true_iff in Htrack as [Hsub Hcool].
      rewrite Hsub. simpl. rewrite Hcool. simpl. rewrite Hadd. simpl.
      eexists. unfold set_buy_tracking, set_trading_enabled. simpl.
      rewrite Ht. reflexivity.
    + eexists. unfold set_buy_tracking, set_trading_enabled. simpl.
      rewrite Ht. reflexivity.
  - rewrite Hen. simpl. rewrite Hmul. simpl. rewrite Hcap. simpl.
    destruct (buy_tracking p !! buyer) as [info|] eqn:Hinfo; simpl.
    + apply andb_true_iff in Htrack as [Htrack Hadd].
      apply andb_true_iff in Htrack as [Hsub Hcool].
      rewrite Hsub. simpl. rewrite Hcool. simpl. rewrite Hadd. simpl.
      eexists. reflexivity.
    + eexists. reflexivity.
Qed.

(** Conversely, a call that answers [true] for a buyer who is not
    whitelisted went through every check, and stored exactly this. *)
Lemma check_can_buy_inv (p p' : TokenProtection) (buyer : address)
      (amount total_supply : N) (clock : Clock) (st st' : TxState) :
  let now := timestamp_ms clock / 1000 in
  is_whitelisted p buyer = false ->
  check_can_buy p buyer amount total_supply clock st = Ok ((true, p'), st') ->
  blacklist p !! buyer = None /\
  trading_enabled p || (enable_time p <=? now) = true /\
  within_limits p buyer amount total_supply now = true /\
  p' = set_buy_tracking (set_trading_enabled p true)
         (<[buyer := {| total_bought := bought_so_far p buyer + amount;
                        last_buy_time := now |}]> (buy_tracking p)).
Proof.
  intros now Hw H.
  assert (Hb : blacklist p !! buyer = None).
  { apply table_contains_false.
    unfold check_can_buy in H. rewrite Hw in H.
    destruct (table_contains (blacklist p) buyer); [|reflexivity].
    inversion H. }
  assert (Hen : trading_enabled p || (enable_time p <=? now) = true).
  { destruct (trading_enabled p || (enable_time p <=? now)) eqn:E; [reflexivity|].
    apply orb_false_iff in E as [Ht Hm].
    unfold check_can_buy in H. rewrite Hw in H.
    apply table_contains_false in Hb. rewrite Hb in H.
    fold now in H. rewrite Ht, Hm in H. simpl in H.
    unfold mbind, M_bind, mret, M_ret, Sui.assert, Sui.fail in H.
    simpl in H. rewrite Ht in H. discriminate. }
  assert (Hlim : within_limits p buyer amount total_supply now = true).
  { destruct (within_limits p buyer amount total_supply now) eqn:E;
      [reflexivity|exfalso].
    unfold check_can_buy in H. rewrite Hw in H.
    apply table_contains_false in Hb. rewrite Hb in H.
    fold now in H. unfold within_limits in E. revert H E.
    run_tx. tx_cases; intros H E; try discriminate;
      simpl in *; congruence. }
  destruct (check_can_buy_passes p buyer amount total_supply clock st
              Hw Hb Hen Hlim) as [st'' Heq].
  fold now in Heq. rewrite Heq in H. inversion H. auto.
Qed.

(** C3. The [trading_enabled] flag never goes back from [true] to [false],
    whatever calls follow.  For a buyer on neither list: while the flag is
    still [false], a [check_can_buy] before [enable_time] aborts with
    [ETradingNotEnabled]; a [check_can_buy] at or after [enable_time] that
    passes the buy-limit and cooldown checks answers [true] and leaves the
    flag set, for good. *)
Theorem C3_trading_enabled_monotonic (p : TokenProtection) (buyer : address)
        (amount total_supply : N) (clock : Clock) (st : TxState) :
  let now := timestamp_ms clock / 1000 in
  (forall ts, trading_enabled p = true ->
              trading_enabled (history p ts) = true) /\
  (is_whitelisted p buyer = false -> blacklist p !! buyer = None ->
   (trading_enabled p = false -> now < enable_time p ->
      check_can_buy p buyer amount total_supply clock st
      = Fail (Abort ETradingNotEnabled)) /\
   (enable_time p <= now ->
    within_limits p buyer amount total_supply now = true ->
      exists p' st',
        check_can_buy p buyer amount total_supply clock st
        = Ok ((true, p'), st') /\
        trading_enabled p' = true /\
        forall ts, trading_enabled (history p' ts) = true)).
Proof.
  intros now. split.
  - intros ts Hp. apply history_keeps_trading_enabled. exact Hp.
  - intros Hw Hb. split.
    + intros Ht Hearly.
      unfold check_can_buy. rewrite Hw.
      apply table_contains_false in Hb. rewrite Hb. fold now.
      apply N.leb_gt in Hearly. rewrite Ht, Hearly. simpl.
      run_tx. rewrite Ht. reflexivity.
    + intros Hlate Hlim.
      apply N.leb_le in Hlate.
      destruct (check_can_buy_passes p buyer amount total_supply clock st
                  Hw Hb) as [st' Heq]; fold now.
      * rewrite Hlate. apply orb_true_r.
      * exact Hlim.
      * eexists _, st'. split; [exact Heq|]. split; [reflexivity|].
        intros ts. apply history_keeps_trading_enabled. reflexivity.
Qed.

Lemma C3_trading_enabled_monotonic_witness :
  (forall ts, trading_enabled (history Samples.protection_enabled ts) = true) /\
  check_can_buy Samples.protection 7 50 1000 (Samples.at_second 1299)
                (begin_tx (Samples.context_of 7))
  = Fail (Abort ETradingNotEnabled) /\
  exists p' st',
    check_can_buy Samples.protection 7 50 1000 (Samples.at_second 1300)
                  (begin_tx (Samples.context_of 7))
    = Ok ((true, p'), st') /\
    trading_enabled p' = true /\
    forall ts, trading_enabled (history p' ts) = true.
Proof.
  split; [|split].
  - intros ts.
    apply (C3_trading_enabled_monotonic Samples.protection_enabled 7 50 1000
             (Samples.at_second 1299) (begin_tx (Samples.context_of 7))).
    reflexivity.
  - apply (C3_trading_enabled_monotonic Samples.protection 7 50 1000
             (Samples.at_second 1299) (begin_tx (Samples.context_of 7)));
      [reflexivity | reflexivity | reflexivity | vm_compute; reflexivity].
  - apply (C3_trading_enabled_monotonic Samples.protection 7 50 1000
             (Samples.at_second 1300) (begin_tx (Samples.context_of 7)));
      [reflexivity | reflexivity | vm_compute; discriminate
      | vm_compute; reflexivity].
Defined.

(** C3, as first stated, fails in two ways.  Once the owner has called
    [enable_trading], a buyer on neither list passes before [enable_time];
    and a first call at [enable_time] that exceeds the buy limit aborts, so
    that the flag it had set is discarded with the rest of the
    transaction. *)
Lemma C3_counterexample :
  (is_whitelisted Samples.protection_enabled 7 = false /\
   blacklist Samples.protection_enabled !! 7 = None /\
   timestamp_ms (Samples.at_second 1100) / 1000
     < enable_time Samples.protection_enabled /\
   verdict (check_can_buy Samples.protection_enabled 7 50 1000
              (Samples.at_second 1100) (begin_tx (Samples.context_of 7)))
   = Ok true) /\
  (is_whitelisted Samples.protection 7 = false /\
   blacklist Samples.protection !! 7 = None /\
   enable_time Samples.protection
     <= timestamp_ms (Samples.at_second 1300) / 1000 /\
   check_can_buy Samples.protection 7 51 1000 (Samples.at_second 1300)
                 (begin_tx (Samples.context_of 7))
   = Fail (Abort EExceedsMaxBuyLimit) /\
   trading_enabled
     (transact Samples.protection
        (CheckCanBuy 7 51 1000, Samples.at_second 1300, Samples.context_of 7))
   = false).
Proof.
  repeat split; try reflexivity; vm_compute; congruence.
Qed.

(** C4. A whitelisted buyer always passes, and the call stops there: no
    other check is made and nothing is stored, the tracking table
    included.  For every other buyer for whom [check_can_buy] answers
    [true], the buyer's record is upserted: [total_bought] grows by the
    amount (starting from 0 when there was no record), [last_buy_time] is
    the current time, and no other record is touched. *)
Theorem C4_tracking_upsert (p : TokenProtection) (buyer : address)
        (amount total_supply : N) (clock : Clock) (st : TxState) :
  let now := timestamp_ms clock / 1000 in
  (is_whitelisted p buyer = true ->
     check_can_buy p buyer amount total_supply clock st = Ok ((true, p), st)) /\
  (is_whitelisted p buyer = false ->
   forall p' st',
     check_can_buy p buyer amount total_supply clock st = Ok ((true, p'), st') ->
     buy_tracking p' !! buyer
     = Some {| total_bought := bought_so_far p buyer + amount;
               last_buy_time := now |} /\
     forall other, other <> buyer ->
       buy_tracking p' !! other = buy_tracking p !! other).
Proof.
  intros now. split.
  - intros Hw. unfold check_can_buy. rewrite Hw. reflexivity.
  - intros Hw p' st' H.
    destruct (check_can_buy_inv p p' buyer amount total_supply clock st st'
                Hw H) as (_ & _ & _ & ->).
    simpl. split.
    + apply lookup_insert_eq.
    + intros other Hne. apply lookup_insert_ne. congruence.
Qed.

Lemma C4_tracking_upsert_witness :
  check_can_buy Samples.protection 1 50 1000 (Samples.at_second 1000)
                (begin_tx (Samples.context_of 1))
  = Ok ((true, Samples.protection), begin_tx (Samples.context_of 1)) /\
  buy_tracking (Samples.protection_after_buy 50 1300) !! 7
  = Some {| total_bought := 50; last_buy_time := 1300 |}.
Proof.
  split.
  - apply (C4_tracking_upsert Samples.protection 1 50 1000
             (Samples.at_second 1000) (begin_tx (Samples.context_of 1))).
    reflexivity.
  - apply (C4_tracking_upsert Samples.protection_enabled 7 50 1000
             (Samples.at_second 1300) (begin_tx (Samples.context_of 7)))
      with (st' := begin_tx (Samples.context_of 7));
      [reflexivity | vm_compute; reflexivity].
Defined.

(** C4, as first stated, fails for whitelisted buyers: the owner of the
    sample protection passes, and no record is stored for the purchase. *)
Lemma C4_counterexample :
  exists p' st',
    check_can_buy Samples.protection 1 50 1000 (Samples.at_second 1300)
                  (begin_tx (Samples.context_of 1))
    = Ok ((true, p'), st') /\
    buy_tracking p' !! 1
    <> Some {| total_bought := bought_so_far Samples.protection 1 + 50;
               last_buy_time := 1300 |}.
Proof.
  exists Samples.protection, (begin_tx (Samples.context_of 1)).
  split; [reflexivity|]. vm_compute. discriminate.
Qed.

(** The outcome of [check_can_buy] does not depend on the [total_bought] a
    buyer has on record, short of the sum leaving [u64]. *)
Lemma check_can_buy_ignores_total_bought (p : TokenProtection)
      (buyer : address) (amount total_supply : N) (clock : Clock)
      (st : TxState) (info : BuyInfo) (v : N) :
  buy_tracking p !! buyer = Some info ->
  total_bought info + amount <= MAX_U64 ->
  v + amount <= MAX_U64 ->
  verdict (check_can_buy (with_total_bought p buyer v) buyer amount
                         total_supply clock st)
  = verdict (check_can_buy p buyer amount total_supply clock st).
Proof.
  intros Hinfo Hold Hnew.
  apply N.leb_le in Hold, Hnew.
  unfold check_can_buy, with_total_bought, is_whitelisted.
  cbn [whitelist blacklist trading_enabled enable_time set_buy_tracking].
  destruct (vector_contains (whitelist p) buyer); [reflexivity|].
  destruct (table_contains (blacklist p) buyer); [reflexivity|].
  destruct (negb (trading_enabled p)
            && (enable_time p <=? timestamp_ms clock / 1000));
    run_tx; rewrite ?lookup_alter_eq, ?Hinfo; simpl;
    tx_cases; try reflexivity; simpl in *; congruence.
Qed.

(** C9. The buy cap binds each purchase on its own.  A passing call has
    [amount <= total_supply * max_buy_percent / 10000]; the accumulated
    [total_bought] is stored but plays no part in the outcome; and two
    passing purchases of account 7, each at the cap of 50 and a cooldown
    apart, leave it with 100 bought against a cap of 50. *)
Theorem C9_cap_per_transaction_only :
  (forall p buyer amount total_supply clock st p' st',
     is_whitelisted p buyer = false ->
     check_can_buy p buyer amount total_supply clock st = Ok ((true, p'), st') ->
     amount <= total_supply * max_buy_percent p / 10000) /\
  (forall p buyer amount total_supply clock st info v,
     buy_tracking p !! buyer = Some info ->
     total_bought info + amount <= MAX_U64 ->
     v + amount <= MAX_U64 ->
     verdict (check_can_buy (with_total_bought p buyer v) buyer amount
                            total_supply clock st)
     = verdict (check_can_buy p buyer amount total_supply clock st)) /\
  (exists p1 p2 st1 st2,
     is_whitelisted Samples.protection_enabled 7 = false /\
     check_can_buy Samples.protection_enabled 7 50 1000
                   (Samples.at_second 1300) (begin_tx (Samples.context_of 7))
     = Ok ((true, p1), st1) /\
     check_can_buy p1 7 50 1000
                   (Samples.at_second 1600) (begin_tx (Samples.context_of 7))
     = Ok ((true, p2), st2) /\
     total_supply_cap p2 1000 = 50 /\
     bought_so_far p2 7 = 100 /\
     total_supply_cap p2 1000 < bought_so_far p2 7).
Proof.
  split; [|split].
  - intros p buyer amount total_supply clock st p' st' Hw H.
    destruct (check_can_buy_inv p p' buyer amount total_supply clock st st'
                Hw H) as (_ & _ & Hlim & _).
    unfold within_limits in Hlim.
    apply andb_true_iff in Hlim as [Hlim _].
    apply andb_true_iff in Hlim as [_ Hcap].
    apply N.leb_le. exact Hcap.
  - intros. eapply check_can_buy_ignores_total_bought; eauto.
  - exists (Samples.protection_after_buy 50 1300),
           (Samples.protection_after_buy 100 1600),
           (begin_tx (Samples.context_of 7)),
           (begin_tx (Samples.context_of 7)).
    repeat split; vm_compute; reflexivity.
Qed.

Lemma C9_cap_per_transaction_only_witness :
  (50 <= 1000 * max_buy_percent (Samples.protection_after_buy 50 1300) / 10000)
  /\ bought_so_far (Samples.protection_after_buy 100 1600) 7 = 100.
Proof.
  split.
  - apply (proj1 C9_cap_per_transaction_only
             (Samples.protection_after_buy 50 1300) 7 50 1000
             (Samples.at_second 1600) (begin_tx (Samples.context_of 7))
             (Samples.protection_after_buy 100 1600)
             (begin_tx (Samples.context_of 7)));
      vm_compute; reflexivity.
  - reflexivity.
Defined.

End Trading.

(** ** The liquidity lock *)

Section Locker.

Import liquidity_locker.

Local Open Scope N_scope.

Lemma sample_locker_initialised :
  exists cap st, init (begin_tx (Samples.context_of 1))
                 = Ok ((cap, Samples.locker), st).
Proof. eexists _, _. vm_compute. reflexivity. Qed.

(** What [lock_liquidity] stores: the whole coin, under the fresh id, for
    the sender, until [now + lock_duration]. *)
Lemma lock_liquidity_stores (l0 : LiquidityLocker) (clock0 : Clock)
      (coin : Coin) (lock_duration : N) (st0 : TxState) :
  let now := timestamp_ms clock0 / 1000 in
  let lock_id := fresh_id (ctx st0) (ids_created (ctx st0)) in
  let lock := {| token_balance := value coin; token_type := coin_type coin;
                 locker := sender (ctx st0);
                 unlock_time := now + lock_duration |} in
  (min_lock_duration l0 <= lock_duration ->
   now + lock_duration <= MAX_U64 ->
   locks l0 !! lock_id = None ->
   lock_count l0 + 1 <= MAX_U64 ->
   exists l st1, lock_liquidity l0 clock0 coin lock_duration st0 = Ok (l, st1)) /\
  (forall l st1,
     lock_liquidity l0 clock0 coin lock_duration st0 = Ok (l, st1) ->
     locks l = <[lock_id := lock]> (locks l0) /\
     min_lock_duration l0 <= lock_duration).
Proof.
  intros now lock_id lock. subst lock_id lock.
  unfold lock_liquidity. fold now. run_tx. split.
  - intros Hmin Hadd Hfresh Hcount.
    apply N.leb_le in Hmin, Hadd, Hcount.
    rewrite Hmin. simpl. rewrite Hadd. simpl. rewrite Hfresh. simpl.
    rewrite Hcount. eexists _, _. reflexivity.
  - intros l st1.
    destruct (min_lock_duration l0 <=? lock_duration) eqn:Hmin; simpl;
      [|discriminate].
    destruct (now + lock_duration <=? MAX_U64); simpl; [|discriminate].
    destruct (locks l0 !! fresh_id (ctx st0) (ids_created (ctx st0))); simpl;
      [discriminate|].
    destruct (lock_count l0 + 1 <=? MAX_U64); simpl; [|discriminate].
    intros H. inversion H. simpl. split; [reflexivity|].
    apply N.leb_le. exact Hmin.
Qed.

(** C2. For a lock held by the locker: [unlock_liquidity] aborts for a
    caller other than the depositor ([EInvalidLock]) and, for the
    depositor, while [now < unlock_time] ([ELockStillActive]) -- so also
    one second before maturity; from [now = unlock_time] on it succeeds for
    the depositor, removes the record and sends the depositor one coin
    worth the whole locked balance; unlocking the same id again aborts
    ([ELockNotFound]); and an aborted unlock leaves the locker as it was.
    The balance of a lock is the value of the coin that [lock_liquidity]
    took, and its [unlock_time] is the time of locking plus the
    duration. *)
Theorem C2_unlock_at_maturity (l : LiquidityLocker) (lock_id : address)
        (lock : Lock) (clock : Clock) (st : TxState) :
  let now := timestamp_ms clock / 1000 in
  locks l !! lock_id = Some lock ->
  (sender (ctx st) <> locker lock ->
     unlock_liquidity l clock lock_id st = Fail (Abort EInvalidLock)) /\
  (sender (ctx st) = locker lock -> now < unlock_time lock ->
     unlock_liquidity l clock lock_id st = Fail (Abort ELockStillActive)) /\
  (sender (ctx st) = locker lock -> now + 1 = unlock_time lock ->
     unlock_liquidity l clock lock_id st = Fail (Abort ELockStillActive)) /\
  (forall f, unlock_liquidity l clock lock_id st = Fail f ->
     committed l (unlock_liquidity l clock lock_id st) = l) /\
  (sender (ctx st) = locker lock -> unlock_time lock <= now ->
     exists l' st',
       unlock_liquidity l clock lock_id st = Ok (l', st') /\
       locks l' = delete lock_id (locks l) /\
       transferred st' = transferred st ++ [(locker lock, token_balance lock)] /\
       forall clock2 st2,
         unlock_liquidity l' clock2 lock_id st2 = Fail (Abort ELockNotFound) /\
         committed l' (unlock_liquidity l' clock2 lock_id st2) = l') /\
  (forall l0 clock0 coin lock_duration st0 st1,
     lock_liquidity l0 clock0 coin lock_duration st0 = Ok (l, st1) ->
     lock_id = fresh_id (ctx st0) (ids_created (ctx st0)) ->
     token_balance lock = value coin /\
     locker lock = sender (ctx st0) /\
     unlock_time lock = timestamp_ms clock0 / 1000 + lock_duration).
Proof.
  intros now Hlock.
  assert (Hc : table_contains (locks l) lock_id = true).
  { apply table_contains_true. rewrite Hlock. eauto. }
  assert (Hlate : forall (Hs : sender (ctx st) = locker lock),
             now < unlock_time lock ->
             unlock_liquidity l clock lock_id st = Fail (Abort ELockStillActive)).
  { intros Hs Ht. unfold unlock_liquidity. run_tx. rewrite Hc. simpl.
    rewrite Hlock. simpl. rewrite Hs, N.eqb_refl. simpl. fold now.
    apply N.leb_gt in Ht. rewrite Ht. reflexivity. }
  split; [|split; [|split; [|split; [|split]]]].
  - intros Hs. unfold unlock_liquidity. run_tx. rewrite Hc. simpl.
    rewrite Hlock. simpl.
    destruct (N.eqb_spec (locker lock) (sender (ctx st))); [congruence|].
    reflexivity.
  - exact Hlate.
  - intros Hs Ht. apply Hlate; [exact Hs|]. lia.
  - intros f Hf. rewrite Hf. reflexivity.
  - intros Hs Ht. apply N.leb_le in Ht.
    unfold unlock_liquidity. run_tx. rewrite Hc. simpl.
    rewrite Hlock. simpl. rewrite Hs, N.eqb_refl. simpl. fold now.
    rewrite Ht. simpl. eexists _, _. split; [reflexivity|]. simpl.
    split; [reflexivity|]. split; [reflexivity|].
    intros clock2 st2.
    assert (Hgone : table_contains (delete lock_id (locks l)) lock_id = false).
    { apply table_contains_false. apply lookup_delete_eq. }
    rewrite Hgone. simpl. split; reflexivity.
  - intros l0 clock0 coin lock_duration st0 st1 Hl Hid.
    destruct (lock_liquidity_stores l0 clock0 coin lock_duration st0)
      as [_ Hstored].
    destruct (Hstored l st1 Hl) as [Hlocks _].
    rewrite Hlocks, Hid, lookup_insert_eq in Hlock.
    inversion Hlock. simpl. auto.
Qed.

Lemma sample_lock_taken :
  exists st, lock_liquidity Samples.locker (Samples.at_second 1000)
               Samples.lp_tokens 2592000 (begin_tx (Samples.context_of 1))
             = Ok (Samples.locker_holding, st).
Proof. eexists. vm_compute. reflexivity. Qed.

Lemma C2_unlock_at_maturity_witness :
  unlock_liquidity Samples.locker_holding (Samples.at_second 2592999) 1000
                   (begin_tx (Samples.context_of 1))
  = Fail (Abort ELockStillActive) /\
  unlock_liquidity Samples.locker_holding (Samples.at_second 2593000) 1000
                   (begin_tx (Samples.context_of 2))
  = Fail (Abort EInvalidLock) /\
  exists l' st',
    unlock_liquidity Samples.locker_holding (Samples.at_second 2593000) 1000
                     (begin_tx (Samples.context_of 1))
    = Ok (l', st') /\
    locks l' = delete 1000 (locks Samples.locker_holding) /\
    transferred st' = [(1, 1000)].
Proof.
  assert (Hlock : locks Samples.locker_holding !! 1000 = Some Samples.lock)
    by (vm_compute; reflexivity).
  split; [|split].
  - apply (C2_unlock_at_maturity Samples.locker_holding 1000 Samples.lock
             (Samples.at_second 2592999) (begin_tx (Samples.context_of 1))
             Hlock);
      vm_compute; reflexivity.
  - apply (C2_unlock_at_maturity Samples.locker_holding 1000 Samples.lock
             (Samples.at_second 2593000) (begin_tx (Samples.context_of 2))
             Hlock).
    vm_compute. discriminate.
  - destruct (C2_unlock_at_maturity Samples.locker_holding 1000 Samples.lock
                (Samples.at_second 2593000) (begin_tx (Samples.context_of 1))
                Hlock) as (_ & _ & _ & _ & Hok & _).
    destruct Hok as (l' & st' & Hrun & Hlocks & Hsent & _);
      [reflexivity | vm_compute; discriminate |].
    exists l', st'. auto.
Defined.

End Locker.

(** ** Fee routing *)

Section Fees.

Import fee_distributor.

Local Open Scope N_scope.

Lemma sample_distributor_initialised :
  exists cap st, init (begin_tx (Samples.context_of 1))
                 = Ok ((cap, Samples.distributor), st).
Proof. eexists _, _. vm_compute. reflexivity. Qed.

(** The protocol's share never exceeds the fee. *)
Lemma protocol_share_le (fee p c : N) :
  0 < p + c -> fee * p / (p + c) <= fee.
Proof.
  intros Hpos.
  apply N.Div0.div_le_upper_bound. nia.
Qed.

Lemma protocol_share_floor (fee p c : N) :
  0 < p + c -> fee * p / (p + c) * (p + c) <= fee * p.
Proof.
  intros Hpos. rewrite N.mul_comm. apply N.Div0.mul_div_le.
Qed.

(** A call of [collect_fees] that commits has split the fee like this. *)
Lemma collect_fees_inv (d d' : FeeDistributor) (config config' : TokenFeeConfig)
      (fee : N) (st st' : TxState) :
  collect_fees d config fee st = Ok ((d', config'), st') ->
  let p := protocol_fee_bps d in
  let c := creator_fee_bps d in
  0 < p + c /\
  protocol_balance d' = protocol_balance d + fee * p / (p + c) /\
  creator_balance config' = creator_balance config + (fee - fee * p / (p + c)) /\
  protocol_fee_bps d' = p /\ creator_fee_bps d' = c.
Proof.
  unfold collect_fees. run_tx.
  repeat (match goal with
          | |- context [if ?b then _ else _] => destruct b eqn:?
          end; simpl; try discriminate).
  intros H. inversion H. simpl.
  apply N.eqb_neq in Heqb1. repeat split; try reflexivity. lia.
Qed.

(** C6. Within [u64], the split is exact.  When the divisor
    [protocol_fee_bps + creator_fee_bps] is positive and the product
    [fee * protocol_fee_bps], the two balances and the two counters stay
    within [u64], [collect_fees] commits; and whenever it commits, the
    protocol balance grows by [fee * protocol_fee_bps / (protocol_fee_bps +
    creator_fee_bps)] rounded down, the creator balance by the fee less
    that amount, the two amounts add up to the fee, and the creator's
    amount is never below its exact share: the truncation remainder is the
    creator's.  Outside [u64] the call aborts and nothing is split: when
    the sum of the shares, the product, one of the balances or one of the
    counters would leave [u64], the call stops on that operation with an
    arithmetic overflow, and on a zero divisor it stops on the division;
    either way the distributor and the configuration stay as they were. *)
Theorem C6_fee_split_exact (d : FeeDistributor) (config : TokenFeeConfig)
        (fee : N) (st : TxState) :
  let p := protocol_fee_bps d in
  let c := creator_fee_bps d in
  let protocol_amount := fee * p / (p + c) in
  let creator_amount := fee - protocol_amount in
  (0 < p + c -> p + c <= MAX_U64 -> fee * p <= MAX_U64 ->
   protocol_balance d + protocol_amount <= MAX_U64 ->
   creator_balance config + creator_amount <= MAX_U64 ->
   total_fees_collected d + fee <= MAX_U64 ->
   fees_collected config + fee <= MAX_U64 ->
   exists d' config' st',
     collect_fees d config fee st = Ok ((d', config'), st')) /\
  (forall d' config' st',
     collect_fees d config fee st = Ok ((d', config'), st') ->
     protocol_balance d' = protocol_balance d + protocol_amount /\
     creator_balance config' = creator_balance config + creator_amount /\
     protocol_amount + creator_amount = fee /\
     protocol_amount * (p + c) <= fee * p /\
     fee * c <= creator_amount * (p + c)) /\
  (0 < p + c ->
   MAX_U64 < p + c \/ MAX_U64 < fee * p \/
   MAX_U64 < protocol_balance d + protocol_amount \/
   MAX_U64 < creator_balance config + creator_amount \/
   MAX_U64 < total_fees_collected d + fee \/
   MAX_U64 < fees_collected config + fee ->
   collect_fees d config fee st = Fail Overflow /\
   committed (d, config) (collect_fees d config fee st) = (d, config)) /\
  (p + c = 0 ->
   collect_fees d config fee st = Fail DivisionByZero /\
   committed (d, config) (collect_fees d config fee st) = (d, config)).
Proof.
  intros p c protocol_amount creator_amount. split; [|split; [|split]].
  - intros Hpos Hsum Hmul Hpb Hcb Htotal Hcollected.
    pose proof (protocol_share_le fee p c Hpos) as Hle.
    fold protocol_amount in Hle.
    unfold collect_fees. run_tx. fold p c.
    apply N.leb_le in Hsum, Hmul, Hpb, Hcb, Htotal, Hcollected.
    rewrite Hsum. simpl. rewrite Hmul. simpl.
    destruct (N.eqb_spec (p + c) 0) as [E|_]; [lia|]. simpl.
    fold protocol_amount.
    apply N.leb_le in Hle. rewrite Hle. simpl.
    rewrite Hpb. simpl. fold creator_amount. rewrite Hcb. simpl.
    rewrite Htotal. simpl. rewrite Hcollected. simpl.
    eexists _, _, _. reflexivity.
  - intros d' config' st' H.
    destruct (collect_fees_inv d d' config config' fee st st' H)
      as (Hpos & Hp & Hc & _).
    fold p c in Hpos, Hp, Hc. fold protocol_amount in Hp, Hc.
    fold creator_amount in Hc.
    pose proof (protocol_share_le fee p c Hpos) as Hle.
    pose proof (protocol_share_floor fee p c Hpos) as Hfloor.
    fold protocol_amount in Hle, Hfloor.
    split; [exact Hp|]. split; [exact Hc|].
    unfold creator_amount. split; [lia|]. split; [exact Hfloor|].
    rewrite N.mul_sub_distr_r. nia.
  - intros Hpos Hout.
    pose proof (protocol_share_le fee p c Hpos) as Hle.
    fold protocol_amount in Hle.
    assert (Hfail : collect_fees d config fee st = Fail Overflow).
    { unfold collect_fees. run_tx. fold p c.
      destruct (N.leb_spec (p + c) MAX_U64); simpl; [|reflexivity].
      destruct (N.leb_spec (fee * p) MAX_U64); simpl; [|reflexivity].
      destruct (N.eqb_spec (p + c) 0) as [E|_]; [lia|]. simpl.
      fold protocol_amount.
      apply N.leb_le in Hle. rewrite Hle. simpl.
      destruct (N.leb_spec (protocol_balance d + protocol_amount) MAX_U64);
        simpl; [|reflexivity].
      fold creator_amount.
      destruct (N.leb_spec (creator_balance config + creator_amount) MAX_U64);
        simpl; [|reflexivity].
      destruct (N.leb_spec (total_fees_collected d + fee) MAX_U64);
        simpl; [|reflexivity].
      destruct (N.leb_spec (fees_collected config + fee) MAX_U64);
        simpl; [|reflexivity].
      lia. }
    rewrite Hfail. split; reflexivity.
  - intros Hzero.
    assert (Hfail : collect_fees d config fee st = Fail DivisionByZero).
    { unfold collect_fees. run_tx. fold p c. rewrite Hzero. simpl.
      assert (Hp : p = 0) by lia. rewrite Hp, N.mul_0_r. reflexivity. }
    rewrite Hfail. split; reflexivity.
Qed.

Lemma C6_fee_split_exact_witness :
  (exists d' config' st',
     collect_fees Samples.distributor Samples.fee_config 1001
                  (begin_tx (Samples.context_of 3))
     = Ok ((d', config'), st') /\
     protocol_balance d' = 200 /\ creator_balance config' = 801) /\
  collect_fees Samples.distributor Samples.fee_config 100000000000000000
               (begin_tx (Samples.context_of 3))
  = Fail Overflow /\
  committed (Samples.distributor, Samples.fee_config)
    (collect_fees Samples.distributor Samples.fee_config 100000000000000000
                  (begin_tx (Samples.context_of 3)))
  = (Samples.distributor, Samples.fee_config).
Proof.
  split.
  - destruct (C6_fee_split_exact Samples.distributor Samples.fee_config 1001
                (begin_tx (Samples.context_of 3))) as (Hruns & Hsplit & _).
    destruct Hruns as (d' & config' & st' & H);
      try (vm_compute; reflexivity); try (vm_compute; discriminate).
    exists d', config', st'. split; [exact H|].
    destruct (Hsplit d' config' st' H) as (Hp & Hc & _).
    split; [exact Hp | exact Hc].
  - destruct (C6_fee_split_exact Samples.distributor Samples.fee_config
                100000000000000000 (begin_tx (Samples.context_of 3)))
      as (_ & _ & Hout & _).
    apply Hout; [vm_compute; reflexivity|].
    right. left. vm_compute. reflexivity.
Defined.

(** C6, as first stated for any fee amount, fails where the product leaves
    [u64]: on a fee of 10^17 the multiplication by 200 aborts the call, and
    nothing is split. *)
Lemma C6_counterexample :
  100000000000000000 <= MAX_U64 /\
  collect_fees Samples.distributor Samples.fee_config 100000000000000000
               (begin_tx (Samples.context_of 3))
  = Fail Overflow.
Proof. split; [vm_compute; discriminate | vm_compute; reflexivity]. Qed.

(** Every call leaves the two shares adding up to 1000. *)
Lemma dispatch_keeps_fee_budget (c : call) (d d' : FeeDistributor)
      (st st' : TxState) :
  dispatch c d st = Ok (d', st') ->
  protocol_fee_bps d + creator_fee_bps d = 1000 ->
  protocol_fee_bps d' + creator_fee_bps d' = 1000.
Proof.
  destruct c as [config fee|cap|cap pf cf|cap a]; simpl.
  - unfold mbind, M_bind at 1.
    destruct (collect_fees d config fee st) as [[[d1 c1] st1]|f] eqn:E;
      [|discriminate].
    simpl. intros H. injection H as Hd Hst. subst d' st'.
    destruct (collect_fees_inv d d1 config c1 fee st st1 E)
      as (_ & _ & _ & -> & ->). trivial.
  - unfold withdraw_protocol_fees. run_tx.
    repeat (match goal with
            | |- context [if ?b then _ else _] => destruct b eqn:?
            end; simpl; try discriminate).
    intros H. inversion H. simpl. trivial.
  - unfold update_fee_distribution. run_tx.
    destruct (pf + cf <=? MAX_U64); simpl; [|discriminate].
    destruct (N.eqb_spec (pf + cf) 1000); simpl; [|discriminate].
    intros H. inversion H. simpl. auto.
  - unfold update_protocol_fee_recipient. run_tx.
    intros H. inversion H. simpl. trivial.
Qed.

Lemma reachable_fee_budget (d : FeeDistributor) :
  reachable d -> protocol_fee_bps d + creator_fee_bps d = 1000.
Proof.
  induction 1 as [c cap d st Hinit|d t Hr IH].
  - unfold init in Hinit. revert Hinit. run_tx.
    intros H. inversion H. reflexivity.
  - unfold transact, committed.
    destruct (dispatch (fst t) d (begin_tx (snd t))) as [[d' st']|f] eqn:E;
      [|exact IH].
    eapply dispatch_keeps_fee_budget; eauto.
Qed.

(** C10. In every distributor state that [init] and the module's calls can
    produce, [protocol_fee_bps + creator_fee_bps] is 1000, so the divisor
    of the fee split is positive and [collect_fees] never stops on a
    division by zero. *)
Theorem C10_fee_divisor_positive (d : FeeDistributor) :
  reachable d ->
  protocol_fee_bps d + creator_fee_bps d = 1000 /\
  0 < protocol_fee_bps d + creator_fee_bps d /\
  forall config fee st, collect_fees d config fee st <> Fail DivisionByZero.
Proof.
  intros Hr. pose proof (reachable_fee_budget d Hr) as Hsum.
  split; [exact Hsum|]. split; [lia|].
  intros config fee st. unfold collect_fees. run_tx. rewrite Hsum. simpl.
  repeat (match goal with
          | |- context [if ?b then _ else _] => destruct b eqn:?
          end; simpl; try discriminate).
Qed.

Lemma C10_fee_divisor_positive_witness :
  reachable Samples.distributor /\
  protocol_fee_bps Samples.distributor + creator_fee_bps Samples.distributor
  = 1000.
Proof.
  assert (Hr : reachable Samples.distributor).
  { apply (reachable_init (Samples.context_of 1) {| cap_id := 1000 |}
                          Samples.distributor
                          {| ctx := {| sender := 1; epoch_timestamp_ms := 1000000;
                                       fresh_id := fun n => 1000 + N.of_nat n;
                                       ids_created := 2 |};
                             emitted := []; transferred := [] |}).
    reflexivity. }
  split; [exact Hr|].
  apply (C10_fee_divisor_positive Samples.distributor Hr).
Defined.

End Fees.

(** ** Rate limiting *)

Section RateLimit.

Import telegram rate_view.

Local Open Scope Z_scope.

Lemma isRateLimited_check (userId date_now : Z) (m : gmap Z UserData) :
  isRateLimited userId date_now m
  = (fst (check (m !! userId) (date_now / 1000)),
     <[userId := snd (check (m !! userId) (date_now / 1000))]> m).
Proof.
  unfold isRateLimited, check.
  destruct (m !! userId) as [ud|] eqn:E; [|reflexivity].
  destruct (isCoolingDown ud).
  - destruct (date_now / 1000 <? cooldownUntil ud); [|reflexivity].
    simpl. rewrite insert_id; [reflexivity | exact E].
  - destruct (date_now / 1000 - firstRequest ud <? RATE_LIMIT.timeWindow);
      [|reflexivity].
    destruct (RATE_LIMIT.maxRequests <=? count ud); reflexivity.
Qed.

Lemma serve_by_others (userId : Z) (requests : list (Z * Z))
      (m : gmap Z UserData) :
  by_others userId requests -> serve m requests !! userId = m !! userId.
Proof.
  unfold by_others, serve. intros H. revert m.
  induction H as [|r rs Hr _ IH]; intros m; simpl; [reflexivity|].
  rewrite IH, isRateLimited_check. simpl.
  apply lookup_insert_ne. exact Hr.
Qed.

(** C5. With [maxRequests = 3], [timeWindow = 3600] and [cooldown = 86400]:
    when a user's request at second [t0] opens a window, that request and
    the next two within the window are allowed; the fourth within the
    window is rate-limited and starts a cooldown until [t3 + 86400]; every
    request before that time is rejected and changes nothing; and the
    first request at or after it is allowed and restarts the window with a
    count of 1.  Requests of other users in between make no difference. *)
Theorem C5_rate_window (tracker : gmap Z UserData) (userId : Z)
        (d0 d1 d2 d3 : Z) (others1 others2 others3 : list (Z * Z)) :
  let t0 := d0 / 1000 in
  let t1 := d1 / 1000 in
  let t2 := d2 / 1000 in
  let t3 := d3 / 1000 in
  let m0 := snd (isRateLimited userId d0 tracker) in
  let m1 := snd (isRateLimited userId d1 (serve m0 others1)) in
  let m2 := snd (isRateLimited userId d2 (serve m1 others2)) in
  let m3 := snd (isRateLimited userId d3 (serve m2 others3)) in
  RATE_LIMIT.maxRequests = 3 /\ RATE_LIMIT.timeWindow = 3600 /\
  RATE_LIMIT.cooldown = 86400 /\
  (opens_window (tracker !! userId) t0 = true ->
   by_others userId others1 -> by_others userId others2 ->
   by_others userId others3 ->
   t1 - t0 < 3600 -> t2 - t0 < 3600 -> t3 - t0 < 3600 ->
   fst (isRateLimited userId d0 tracker) = false /\
   fst (isRateLimited userId d1 (serve m0 others1)) = false /\
   fst (isRateLimited userId d2 (serve m1 others2)) = false /\
   fst (isRateLimited userId d3 (serve m2 others3)) = true /\
   m3 !! userId = Some {| count := 3; firstRequest := t0;
                          isCoolingDown := true;
                          cooldownUntil := t3 + 86400 |} /\
   (forall others d,
      by_others userId others -> d / 1000 < t3 + 86400 ->
      isRateLimited userId d (serve m3 others) = (true, serve m3 others) /\
      serve m3 others !! userId = m3 !! userId) /\
   (forall others d,
      by_others userId others -> t3 + 86400 <= d / 1000 ->
      fst (isRateLimited userId d (serve m3 others)) = false /\
      snd (isRateLimited userId d (serve m3 others)) !! userId
      = Some {| count := 1; firstRequest := d / 1000;
                isCoolingDown := false;
                cooldownUntil := t3 + 86400 |})).
Proof.
  intros t0 t1 t2 t3 m0 m1 m2 m3.
  split; [reflexivity|]. split; [reflexivity|]. split; [reflexivity|].
  intros Hopen Ho1 Ho2 Ho3 H1 H2 H3.
  assert (E0 : check (tracker !! userId) t0
               = (false, {| count := 1; firstRequest := t0;
                            isCoolingDown := false;
                            cooldownUntil :=
                              match tracker !! userId with
                              | Some ud => cooldownUntil ud
                              | None => 0
                              end |})).
  { unfold check, opens_window in *.
    destruct (tracker !! userId) as [ud|]; [|reflexivity].
    destruct (isCoolingDown ud) eqn:Ec.
    - apply Z.leb_le in Hopen.
      destruct (Z.ltb_spec t0 (cooldownUntil ud)); [lia|reflexivity].
    - apply negb_true_iff in Hopen. rewrite Hopen. reflexivity. }
  set (cu := match tracker !! userId with
             | Some ud => cooldownUntil ud
             | None => 0
             end) in E0.
  assert (L0 : m0 !! userId
               = Some {| count := 1; firstRequest := t0;
                         isCoolingDown := false; cooldownUntil := cu |}).
  { unfold m0. rewrite isRateLimited_check. fold t0. rewrite E0. simpl.
    apply lookup_insert_eq. }
  assert (R1 : isRateLimited userId d1 (serve m0 others1)
               = (false, <[userId := {| count := 2; firstRequest := t0;
                                        isCoolingDown := false;
                                        cooldownUntil := cu |}]>
                           (serve m0 others1))).
  { rewrite isRateLimited_check, serve_by_others, L0 by assumption.
    fold t1. unfold check, RATE_LIMIT.timeWindow, RATE_LIMIT.maxRequests.
    simpl. destruct (Z.ltb_spec (t1 - t0) 3600); [reflexivity|lia]. }
  assert (L1 : m1 !! userId
               = Some {| count := 2; firstRequest := t0;
                         isCoolingDown := false; cooldownUntil := cu |}).
  { unfold m1. rewrite R1. simpl. apply lookup_insert_eq. }
  assert (R2 : isRateLimited userId d2 (serve m1 others2)
               = (false, <[userId := {| count := 3; firstRequest := t0;
                                        isCoolingDown := false;
                                        cooldownUntil := cu |}]>
                           (serve m1 others2))).
  { rewrite isRateLimited_check, serve_by_others, L1 by assumption.
    fold t2. unfold check, RATE_LIMIT.timeWindow, RATE_LIMIT.maxRequests.
    simpl. destruct (Z.ltb_spec (t2 - t0) 3600); [reflexivity|lia]. }
  assert (L2 : m2 !! userId
               = Some {| count := 3; firstRequest := t0;
                         isCoolingDown := false; cooldownUntil := cu |}).
  { unfold m2. rewrite R2. simpl. apply lookup_insert_eq. }
  assert (R3 : isRateLimited userId d3 (serve m2 others3)
               = (true, <[userId := {| count := 3; firstRequest := t0;
                                       isCoolingDown := true;
                                       cooldownUntil := t3 + 86400 |}]>
                          (serve m2 others3))).
  { rewrite isRateLimited_check, serve_by_others, L2 by assumption.
    fold t3. unfold check, RATE_LIMIT.timeWindow, RATE_LIMIT.maxRequests,
               RATE_LIMIT.cooldown.
    simpl. destruct (Z.ltb_spec (t3 - t0) 3600); [reflexivity|lia]. }
  assert (L3 : m3 !! userId
               = Some {| count := 3; firstRequest := t0;
                         isCoolingDown := true;
                         cooldownUntil := t3 + 86400 |}).
  { unfold m3. rewrite R3. simpl. apply lookup_insert_eq. }
  split.
  { rewrite isRateLimited_check. fold t0. rewrite E0. reflexivity. }
  split; [rewrite R1; reflexivity|].
  split; [rewrite R2; reflexivity|].
  split; [rewrite R3; reflexivity|].
  split; [exact L3|].
  split.
  - intros others d Ho Hd.
    pose proof (serve_by_others userId others m3 Ho) as Hs.
    split; [|exact Hs].
    rewrite isRateLimited_check, Hs, L3. unfold check. simpl.
    destruct (Z.ltb_spec (d / 1000) (t3 + 86400)); [|lia].
    simpl. rewrite insert_id; [reflexivity|]. rewrite Hs. exact L3.
  - intros others d Ho Hd.
    pose proof (serve_by_others userId others m3 Ho) as Hs.
    rewrite isRateLimited_check, Hs, L3. unfold check. simpl.
    destruct (Z.ltb_spec (d / 1000) (t3 + 86400)); [lia|].
    simpl. split; [reflexivity|]. apply lookup_insert_eq.
Qed.

Lemma C5_rate_window_witness :
  let m0 := snd (isRateLimited 42 1000000 ∅) in
  let m1 := snd (isRateLimited 42 1060000 (serve m0 [(7, 1030000)])) in
  let m2 := snd (isRateLimited 42 1120000 (serve m1 [])) in
  let m3 := snd (isRateLimited 42 1180000 (serve m2 [])) in
  fst (isRateLimited 42 1120000 (serve m1 [])) = false /\
  fst (isRateLimited 42 1180000 (serve m2 [])) = true /\
  m3 !! 42 = Some {| count := 3; firstRequest := 1000;
                     isCoolingDown := true; cooldownUntil := 87580 |}.
Proof.
  intros m0 m1 m2 m3.
  destruct (C5_rate_window ∅ 42 1000000 1060000 1120000 1180000
              [(7, 1030000)] [] []) as (_ & _ & _ & H).
  assert (Hseven : by_others 42 [(7, 1030000)])
    by (constructor; [simpl; discriminate | constructor]).
  assert (Hnone : by_others 42 []) by constructor.
  specialize (H eq_refl Hseven Hnone Hnone eq_refl eq_refl eq_refl).
  destruct H as (_ & _ & H2 & H3 & L3 & _).
  split; [exact H2|]. split; [exact H3 | exact L3].
Defined.

End RateLimit.

(** ** Symbol validation *)

Section Symbol.

Import text_parser ascii_text.

Lemma reverse_onto_twice (s acc r : string) :
  reverse_onto (reverse_onto s acc) r = reverse_onto acc (s ++ r)%string.
Proof.
  revert acc r. induction s as [|c s IH]; intros acc r; simpl; [reflexivity|].
  rewrite IH. reflexivity.
Qed.

Lemma append_empty_r (s : string) : (s ++ "")%string = s.
Proof.
  induction s as [|c s IH]; [reflexivity|].
  change (String c (s ++ "")%string = String c s). rewrite IH. reflexivity.
Qed.

Lemma reverse_involutive (s : string) : reverse (reverse s) = s.
Proof.
  unfold reverse. rewrite reverse_onto_twice, append_empty_r. reflexivity.
Qed.

Lemma whitespace_not_kept (c : ascii) :
  isWhiteSpace c = true -> isWord (upper c) = false.
Proof.
  destruct c as [[] [] [] [] [] [] [] []]; vm_compute; congruence.
Qed.

Lemma kept_trimStart (s : string) : kept (trimStart s) = kept s.
Proof.
  induction s as [|c s IH]; simpl; [reflexivity|].
  destruct (isWhiteSpace c) eqn:E; [|reflexivity].
  rewrite IH. unfold kept. simpl.
  rewrite (whitespace_not_kept c E). reflexivity.
Qed.

Lemma kept_reverse_onto (s acc : string) :
  kept (reverse_onto s acc) = reverse_onto (kept s) (kept acc).
Proof.
  revert acc. induction s as [|c s IH]; intros acc; simpl; [reflexivity|].
  rewrite IH. unfold kept. simpl.
  destruct (isWord (upper c)); reflexivity.
Qed.

Lemma kept_reverse (s : string) : kept (reverse s) = reverse (kept s).
Proof. unfold reverse. apply kept_reverse_onto. Qed.

(** Trimming is subsumed by the removal of non-word characters. *)
Lemma formatSymbol_kept (s : string) :
  formatSymbol s = keep_chars isWord (toUpperCase s).
Proof.
  unfold formatSymbol, trim, trimEnd. fold (kept (reverse (trimStart (reverse (trimStart s))))).
  rewrite kept_reverse, kept_trimStart, kept_reverse, reverse_involutive.
  apply kept_trimStart.
Qed.

(** Only letters, digits and the underscore are left in a stored symbol,
    and no lower-case letter. *)
Lemma formatSymbol_chars (s : string) :
  all_chars (fun c => isWord c && negb (isLower c)) (formatSymbol s) = true.
Proof.
  rewrite formatSymbol_kept. unfold toUpperCase.
  induction s as [|c s IH]; simpl; [reflexivity|].
  destruct (isWord (upper c)) eqn:E; [|exact IH].
  simpl. rewrite E, IH.
  replace (isLower (upper c)) with false; [reflexivity|].
  clear. destruct c as [[] [] [] [] [] [] [] []]; vm_compute; reflexivity.
Qed.

(** C7. For a request that is a token request with confidence at least 70,
    a non-empty name and a non-empty ASCII symbol: the stored symbol is the
    raw one trimmed, upper-cased and stripped of every character other
    than letters, digits and the underscore; the request is rejected with
    the symbol-length reason when that symbol has fewer than 2 or more
    than 5 characters, and accepted otherwise. *)
Theorem C7_symbol_validation (request : Parsed.TokenRequest) (pick : nat)
        (name symbol : string) :
  Parsed.isTokenRequest request = true ->
  (70 <= Parsed.confidence request)%Z ->
  Parsed.tokenName request = Some name -> name <> EmptyString ->
  Parsed.tokenSymbol request = Some symbol -> symbol <> EmptyString ->
  is_ascii_text symbol = true ->
  let normalized := keep_chars isWord (toUpperCase (trim symbol)) in
  let result := validateTokenParams request pick in
  tokenSymbol result = Some normalized /\
  normalized = keep_chars isWord (toUpperCase symbol) /\
  all_chars (fun c => isWord c && negb (isLower c)) normalized = true /\
  ((String.length normalized < 2 \/ 5 < String.length normalized)%nat ->
     isValid result = false /\
     reason result = Some "Token symbol must be 2-5 characters"%string) /\
  ((2 <= String.length normalized <= 5)%nat ->
     isValid result = true /\ reason result = None).
Proof.
  intros Hreq Hconf Hname Hne Hsym Hse _ normalized result.
  assert (Hres : result =
    if (String.length normalized <? 2)%nat || (5 <? String.length normalized)%nat
    then {| isValid := false;
            reason := Some "Token symbol must be 2-5 characters"%string;
            tokenName := Some (formatName name);
            tokenSymbol := Some normalized;
            memeTheme := None; emoji := None |}
    else {| isValid := true; reason := None;
            tokenName := Some (formatName name);
            tokenSymbol := Some normalized;
            memeTheme :=
              if truthy (Parsed.memeTheme request)
              then trim <$> Parsed.memeTheme request
              else Some "Generic meme token"%string;
            emoji :=
              if truthy (Parsed.emoji request) then Parsed.emoji request
              else defaultEmojis !! (pick mod 8)%nat |}).
  { unfold result, validateTokenParams. rewrite Hreq, Hname, Hsym.
    destruct (Z.ltb_spec (Parsed.confidence request) 70); [lia|]. simpl.
    destruct name; [congruence|]. destruct symbol; [congruence|].
    reflexivity. }
  split; [|split; [|split; [|split]]].
  - rewrite Hres. destruct (_ || _); reflexivity.
  - apply formatSymbol_kept.
  - apply formatSymbol_chars.
  - intros Hlen. rewrite Hres.
    destruct (Nat.ltb_spec (String.length normalized) 2);
      destruct (Nat.ltb_spec 5 (String.length normalized)); simpl; auto; lia.
  - intros Hlen. rewrite Hres.
    destruct (Nat.ltb_spec (String.length normalized) 2);
      destruct (Nat.ltb_spec 5 (String.length normalized)); simpl; auto; lia.
Qed.

Lemma C7_symbol_validation_witness :
  let result :=
    validateTokenParams (Samples.request_with_symbol " cmon ") 0 in
  tokenSymbol result = Some "CMON"%string /\ isValid result = true.
Proof.
  intros result.
  destruct (C7_symbol_validation (Samples.request_with_symbol " cmon ") 0
              "CatMoon" " cmon ")
    as (Hs & _ & _ & _ & Hok);
    try reflexivity; try discriminate; try (vm_compute; discriminate).
  split; [exact Hs|]. apply Hok. vm_compute. split; lia.
Defined.

(** The symbols the specification lists. *)
Lemma symbol_examples :
  let verdict symbol :=
    isValid (validateTokenParams (Samples.request_with_symbol symbol) 0) in
  verdict "AB"%string = true /\ verdict "ABCDE"%string = true /\
  verdict "A"%string = false /\ verdict "ABCDEF"%string = false /\
  verdict "ab$"%string = true.
Proof. repeat split; vm_compute; reflexivity. Qed.

(** C7, as first stated, fails on its own example and on the underscore:
    the symbol ["ab$"] is normalised to ["AB"] and accepted, and ["a_"],
    which has a single alphanumeric character, is stored as ["A_"] and
    accepted. *)
Lemma C7_counterexample :
  let result := validateTokenParams (Samples.request_with_symbol "ab$") 0 in
  let result' := validateTokenParams (Samples.request_with_symbol "a_") 0 in
  (isValid result = true /\ reason result = None /\
   tokenSymbol result = Some "AB"%string) /\
  (isValid result' = true /\ tokenSymbol result' = Some "A_"%string).
Proof. repeat split; vm_compute; reflexivity. Qed.

End Symbol.

(** ** Reporting of the deployment workflow *)

Section Reporting.

Import text_parser deployer.



Import deployment_view.









End Reporting.

(** * Further properties of the modelled code *)

(** ** The anti-bot engine beyond the claims *)

Section AntiBotMore.

Import anti_bot anti_bot_checks.

Local Open Scope N_scope.

Ltac branch :=
  repeat (simpl;
    match goal with
    | |- context [if ?c then _ else _] => destruct c eqn:?
    | |- context [match ?t !! ?k with _ => _ end] => destruct (t !! k) eqn:?
    | |- context [let '(_, _) := ?x in _] => destruct x eqn:?
    end).

Lemma vector_contains_elem (v : list address) (a : address) :
  vector_contains v a = true <-> a ∈ v.
Proof.
  unfold vector_contains. rewrite existsb_exists. split.
  - intros (x & Hin & Heq). apply N.eqb_eq in Heq. subst x.
    apply list_elem_of_In. exact Hin.
  - intros Hin. exists a. split; [apply list_elem_of_In; exact Hin|].
    apply N.eqb_refl.
Qed.

Lemma vector_contains_not_elem (v : list address) (a : address) :
  vector_contains v a = false <-> a ∉ v.
Proof.
  rewrite <- vector_contains_elem. destruct (vector_contains v a); split;
    congruence.
Qed.

(** A buyer with a purchase on record must wait out the cooldown: inside
    it the call aborts with [EInsufficientCooldown]; from
    [last_buy_time + cooldown_period] on it passes; and a clock reading
    before the recorded purchase stops the call on the subtraction. *)
Theorem cooldown_enforced (p : TokenProtection) (buyer : address)
        (amount total_supply : N) (clock : Clock) (st : TxState)
        (info : BuyInfo) :
  let now := timestamp_ms clock / 1000 in
  is_whitelisted p buyer = false ->
  blacklist p !! buyer = None ->
  trading_enabled p = true ->
  buy_tracking p !! buyer = Some info ->
  total_supply * max_buy_percent p <= MAX_U64 ->
  amount <= total_supply * max_buy_percent p / 10000 ->
  (now < last_buy_time info ->
     check_can_buy p buyer amount total_supply clock st = Fail Underflow) /\
  (last_buy_time info <= now < last_buy_time info + cooldown_period p ->
     check_can_buy p buyer amount total_supply clock st
     = Fail (Abort EInsufficientCooldown)) /\
  (last_buy_time info + cooldown_period p <= now ->
   total_bought info + amount <= MAX_U64 ->
     exists st',
       check_can_buy p buyer amount total_supply clock st
       = Ok ((true,
              set_buy_tracking p
                (<[buyer := {| total_bought := total_bought info + amount;
                               last_buy_time := now |}]> (buy_tracking p))),
             st')).
Proof.
  intros now Hw Hb Ht Hinfo Hmul Hcap.
  apply table_contains_false in Hb. apply N.leb_le in Hmul, Hcap.
  unfold check_can_buy. rewrite Hw, Hb, Ht. simpl. run_tx.
  rewrite Ht. simpl. rewrite Hmul. simpl. rewrite Hcap. simpl.
  rewrite Hinfo. fold now. split; [|split].
  - intros Hback. apply N.leb_gt in Hback. rewrite Hback. reflexivity.
  - intros [Hge Hin]. apply N.leb_le in Hge. rewrite Hge. simpl.
    destruct (N.leb_spec (cooldown_period p) (now - last_buy_time info));
      [|reflexivity].
    apply N.leb_le in Hge. lia.
  - intros Hout Hadd.
    assert (Hge : (last_buy_time info <=? now) = true) by (apply N.leb_le; lia).
    rewrite Hge. simpl.
    assert (Hcool : (cooldown_period p <=? now - last_buy_time info) = true)
      by (apply N.leb_le; apply N.leb_le in Hge; lia).
    rewrite Hcool. simpl. apply N.leb_le in Hadd. rewrite Hadd. simpl.
    eexists. reflexivity.
Qed.

Lemma set_blacklist_same (p : TokenProtection) (b : gmap address bool) :
  set_blacklist (set_blacklist p b) (blacklist p) = p.
Proof. destruct p. reflexivity. Qed.

Lemma set_whitelist_same (p : TokenProtection) (w : list address) :
  set_whitelist (set_whitelist p w) (whitelist p) = p.
Proof. destruct p. reflexivity. Qed.

(** Blacklisting by the owner: the address is refused from then on -- the
    check answers [false] without aborting and without touching the state
    -- unless it is whitelisted, which wins; and removing the entry gives
    back the protection as it was. *)
Theorem blacklist_refuses_buyer (p : TokenProtection) (a : address)
        (st : TxState) :
  sender (ctx st) = owner p ->
  blacklist p !! a = None ->
  exists p1 st1,
    add_to_blacklist p a st = Ok (p1, st1) /\
    blacklist p1 = <[a := true]> (blacklist p) /\
    (forall amount total_supply clock st2,
       check_can_buy p1 a amount total_supply clock st2
       = Ok ((is_whitelisted p a, p1), st2)) /\
    (forall st3, sender (ctx st3) = owner p ->
       exists st3', remove_from_blacklist p1 a st3 = Ok (p, st3')).
Proof.
  intros Ho Hb.
  unfold add_to_blacklist. run_tx. rewrite Ho, N.eqb_refl. simpl.
  rewrite Hb. simpl. eexists _, _. split; [reflexivity|].
  split; [reflexivity|]. split.
  - intros amount total_supply clock st2.
    unfold check_can_buy, is_whitelisted. simpl.
    destruct (vector_contains (whitelist p) a); [reflexivity|].
    assert (Hc : table_contains (<[a := true]> (blacklist p)) a = true).
    { apply table_contains_true. rewrite lookup_insert_eq. eauto. }
    rewrite Hc. reflexivity.
  - intros st3 Ho3. unfold remove_from_blacklist. run_tx.
    rewrite Ho3, N.eqb_refl. simpl.
    assert (Hc : table_contains (<[a := true]> (blacklist p)) a = true).
    { apply table_contains_true. rewrite lookup_insert_eq. eauto. }
    rewrite Hc. simpl. rewrite lookup_insert_eq. simpl.
    rewrite delete_insert_id by exact Hb.
    eexists. rewrite set_blacklist_same. reflexivity.
Qed.

(** The blacklist is fail-loud too, with borrowed codes: adding an
    address that is already listed stops in [table::add], and removing one
    that is not listed aborts with the constant named
    [EAddressNotWhitelisted]. *)
Theorem blacklist_errors (p : TokenProtection) (a : address) (st : TxState) :
  sender (ctx st) = owner p ->
  (is_Some (blacklist p !! a) ->
     add_to_blacklist p a st = Fail EFieldAlreadyExists) /\
  (blacklist p !! a = None ->
     remove_from_blacklist p a st = Fail (Abort EAddressNotWhitelisted)).
Proof.
  intros Ho. split.
  - intros [v Hv]. unfold add_to_blacklist. run_tx.
    rewrite Ho, N.eqb_refl. simpl. rewrite Hv. reflexivity.
  - intros Hb. unfold remove_from_blacklist. run_tx.
    rewrite Ho, N.eqb_refl. simpl.
    apply table_contains_false in Hb. rewrite Hb. reflexivity.
Qed.

(** [create_protection] commits exactly when [now + enable_time_delay]
    fits in [u64].  The protection it shares belongs to the sender, has
    trading disabled until [now + enable_time_delay], and lists the sender
    alone: the sender can buy at once, anybody else is turned away until
    the enable time. *)
Theorem created_protection_gate (token cooldown max_buy delay : N)
        (clock : Clock) (st : TxState) :
  let now := timestamp_ms clock / 1000 in
  let creator := sender (ctx st) in
  (MAX_U64 < now + delay ->
     create_protection token cooldown max_buy delay clock st = Fail Overflow) /\
  (now + delay <= MAX_U64 ->
     exists p st',
       create_protection token cooldown max_buy delay clock st = Ok (p, st') /\
       owner p = creator /\ token_id p = token /\
       trading_enabled p = false /\ enable_time p = now + delay /\
       cooldown_period p = cooldown /\ max_buy_percent p = max_buy /\
       whitelist p = [creator] /\ blacklist p = ∅ /\ buy_tracking p = ∅ /\
       (forall amount total_supply clock2 st2,
          check_can_buy p creator amount total_supply clock2 st2
          = Ok ((true, p), st2)) /\
       (forall buyer amount total_supply clock2 st2,
          buyer <> creator ->
          timestamp_ms clock2 / 1000 < now + delay ->
          check_can_buy p buyer amount total_supply clock2 st2
          = Fail (Abort ETradingNotEnabled))).
Proof.
  intros now creator. unfold create_protection. fold now. run_tx. split.
  - intros Hover. apply N.leb_gt in Hover. rewrite Hover. reflexivity.
  - intros Hfits. apply N.leb_le in Hfits. rewrite Hfits. simpl.
    eexists _, _. split; [reflexivity|]. simpl.
    repeat (split; [reflexivity|]). split.
    + intros amount total_supply clock2 st2.
      unfold check_can_buy, is_whitelisted. simpl.
      fold creator. rewrite N.eqb_refl. reflexivity.
    + intros buyer amount total_supply clock2 st2 Hne Hearly.
      unfold check_can_buy, is_whitelisted. simpl. fold creator.
      destruct (N.eqb_spec buyer creator); [congruence|]. simpl.
      apply N.leb_gt in Hearly. rewrite Hearly. reflexivity.
Qed.

Lemma vector_index_of_app_new (v : list address) (a : address) :
  vector_contains v a = false ->
  vector_index_of (v ++ [a]) a = (true, length v).
Proof.
  induction v as [|x v IH]; simpl.
  - intros _. rewrite N.eqb_refl. reflexivity.
  - rewrite (N.eqb_sym a x). destruct (x =? a); simpl; [discriminate|].
    intros H. rewrite (IH H). reflexivity.
Qed.

(** Whitelisting an address and removing it again, both by the owner,
    gives back the protection as it was. *)
Theorem whitelist_add_remove (p : TokenProtection) (a : address)
        (st st2 : TxState) :
  sender (ctx st) = owner p -> sender (ctx st2) = owner p ->
  is_whitelisted p a = false ->
  exists p1 st1 st2',
    add_to_whitelist p a st = Ok (p1, st1) /\
    is_whitelisted p1 a = true /\
    remove_from_whitelist p1 a st2 = Ok (p, st2').
Proof.
  intros Ho Ho2 Hw. unfold is_whitelisted in Hw.
  unfold add_to_whitelist, is_whitelisted. run_tx.
  rewrite Ho, N.eqb_refl. simpl. rewrite Hw. simpl.
  eexists _, _, _. split; [reflexivity|]. simpl. split.
  - apply vector_contains_elem. set_solver.
  - unfold remove_from_whitelist. simpl.
    rewrite (vector_index_of_app_new _ _ Hw). run_tx.
    rewrite Ho2, N.eqb_refl. simpl.
    rewrite lookup_app_r by reflexivity. rewrite Nat.sub_diag. simpl.
    rewrite take_app_length.
    rewrite drop_ge by (rewrite length_app; simpl; lia).
    rewrite app_nil_r, set_whitelist_same. reflexivity.
Qed.

Lemma dispatch_whitelist_NoDup (c : call) (clock : Clock)
      (p p' : TokenProtection) (st st' : TxState) :
  dispatch c clock p st = Ok (p', st') ->
  NoDup (whitelist p) -> NoDup (whitelist p').
Proof.
  destruct c; simpl;
    unfold check_can_buy, add_to_whitelist, remove_from_whitelist,
      add_to_blacklist, remove_from_blacklist, enable_trading,
      update_max_buy_percent, update_cooldown_period;
    run_tx.
  - branch; intros H Hnd; inversion H; subst; simpl; auto.
  - destruct (owner p =? sender (ctx st)); simpl; [|discriminate].
    destruct (is_whitelisted p a) eqn:Hw; simpl; [discriminate|].
    intros H Hnd. inversion H; subst. simpl.
    apply NoDup_app. split; [exact Hnd|]. split; [|apply NoDup_singleton].
    intros x Hx Hxa. apply list_elem_of_singleton in Hxa. subst x.
    apply vector_contains_not_elem in Hw. contradiction.
  - destruct (owner p =? sender (ctx st)); simpl; [|discriminate].
    destruct (vector_index_of (whitelist p) a) as [found i]. simpl.
    destruct found; simpl; [|discriminate].
    destruct (whitelist p !! i) as [x|] eqn:Hi; simpl; [|discriminate].
    intros H Hnd. inversion H; subst. simpl.
    rewrite <- (take_drop_middle _ _ _ Hi) in Hnd.
    apply NoDup_app in Hnd as (Ht & Hdisj & Hd).
    apply NoDup_cons in Hd as [_ Hd].
    apply NoDup_app. split; [exact Ht|]. split; [|exact Hd].
    intros y Hy Hy'. apply (Hdisj y Hy). right. exact Hy'.
  - branch; intros H Hnd; inversion H; subst; simpl; auto.
  - branch; intros H Hnd; inversion H; subst; simpl; auto.
  - branch; intros H Hnd; inversion H; subst; simpl; auto.
  - branch; intros H Hnd; inversion H; subst; simpl; auto.
  - branch; intros H Hnd; inversion H; subst; simpl; auto.
Qed.

(** The whitelist never holds an address twice: no call introduces a
    duplicate, so a removal that commits takes the address off the list
    for good -- the address is no longer whitelisted afterwards. *)
Theorem whitelist_without_duplicates (p : TokenProtection) :
  NoDup (whitelist p) ->
  (forall ts, NoDup (whitelist (history p ts))) /\
  (forall a st p' st',
     remove_from_whitelist p a st = Ok (p', st') ->
     is_whitelisted p' a = false).
Proof.
  intros Hnd. split.
  - intros ts. revert p Hnd. induction ts as [|t ts IH]; intros p Hnd; simpl;
      [exact Hnd|].
    apply IH. destruct t as [[c clock] context]. unfold transact, committed.
    destruct (dispatch c clock p (begin_tx context)) as [[p' st']|f] eqn:E;
      [|exact Hnd].
    eapply dispatch_whitelist_NoDup; eauto.
  - intros a st p' st'. unfold remove_from_whitelist, is_whitelisted. run_tx.
    destruct (owner p =? sender (ctx st)); simpl; [|discriminate].
    pose proof (vector_index_of_found (whitelist p) a) as Hfound.
    pose proof (vector_index_of_lookup (whitelist p) a) as Hlookup.
    destruct (vector_index_of (whitelist p) a) as [found i]. simpl in *.
    destruct found; simpl; [|discriminate].
    rewrite (Hlookup (eq_sym Hfound)). simpl.
    intros H. inversion H; subst. simpl.
    apply vector_contains_not_elem.
    rewrite <- (take_drop_middle _ _ _ (Hlookup (eq_sym Hfound))) in Hnd.
    apply NoDup_app in Hnd as (_ & Hdisj & Hd).
    apply NoDup_cons in Hd as [Hnotin _].
    intros Hin. apply elem_of_app in Hin as [Hin|Hin].
    + apply (Hdisj a Hin). left.
    + contradiction.
Qed.

Lemma dispatch_keeps_identity (c : call) (clock : Clock)
      (p p' : TokenProtection) (st st' : TxState) :
  dispatch c clock p st = Ok (p', st') ->
  id p' = id p /\ token_id p' = token_id p /\ owner p' = owner p /\
  enable_time p' = enable_time p.
Proof.
  destruct c; simpl;
    unfold check_can_buy, add_to_whitelist, remove_from_whitelist,
      add_to_blacklist, remove_from_blacklist, enable_trading,
      update_max_buy_percent, update_cooldown_period;
    run_tx; branch; intros H; inversion H; subst; simpl; auto.
Qed.

(** Nothing re-assigns a protection: whatever calls are made, its owner,
    its token, its object id and its enable time stay what
    [create_protection] made them. *)
Theorem protection_identity_fixed (p : TokenProtection)
        (ts : list (call * Clock * TxContext)) :
  id (history p ts) = id p /\
  token_id (history p ts) = token_id p /\
  owner (history p ts) = owner p /\
  enable_time (history p ts) = enable_time p.
Proof.
  revert p. induction ts as [|t ts IH]; intros p; simpl; [auto|].
  destruct (IH (transact p t)) as (H1 & H2 & H3 & H4).
  rewrite H1, H2, H3, H4. clear IH H1 H2 H3 H4.
  destruct t as [[c clock] context]. unfold transact, committed.
  destruct (dispatch c clock p (begin_tx context)) as [[p' st']|f] eqn:E;
    [|auto].
  eapply dispatch_keeps_identity; eauto.
Qed.

(** Every call but [check_can_buy] is the owner's: made by anybody else
    it aborts with code 0 and the protection stays as it is. *)
Theorem only_owner_configures (p : TokenProtection) (c : call)
        (clock : Clock) (context : TxContext) :
  sender context <> owner p ->
  (forall buyer amount total_supply,
     c <> CheckCanBuy buyer amount total_supply) ->
  dispatch c clock p (begin_tx context) = Fail (Abort 0) /\
  transact p (c, clock, context) = p.
Proof.
  intros Hne Hc.
  assert (H : dispatch c clock p (begin_tx context) = Fail (Abort 0)).
  { destruct c; simpl;
      try (exfalso; eapply Hc; reflexivity);
      unfold add_to_whitelist, remove_from_whitelist,
        add_to_blacklist, remove_from_blacklist, enable_trading,
        update_max_buy_percent, update_cooldown_period;
      run_tx;
      destruct (N.eqb_spec (owner p) (sender context)); congruence. }
  split; [exact H|]. unfold transact. rewrite H. reflexivity.
Qed.

Lemma dispatch_tracking_grows (c : call) (clock : Clock)
      (p p' : TokenProtection) (st st' : TxState) (buyer : address)
      (info : BuyInfo) :
  dispatch c clock p st = Ok (p', st') ->
  buy_tracking p !! buyer = Some info ->
  exists info',
    buy_tracking p' !! buyer = Some info' /\
    total_bought info <= total_bought info' /\
    last_buy_time info <= last_buy_time info'.
Proof.
  intros H Hinfo.
  assert (Hsame : buy_tracking p' = buy_tracking p ->
                  exists info', buy_tracking p' !! buyer = Some info' /\
                    total_bought info <= total_bought info' /\
                    last_buy_time info <= last_buy_time info').
  { intros ->. exists info. split; [exact Hinfo|]. split; apply N.le_refl. }
  destruct c as [b amount total_supply| | | | | | |]; simpl in H;
    try (apply Hsame; revert H;
         unfold add_to_whitelist, remove_from_whitelist,
           add_to_blacklist, remove_from_blacklist, enable_trading,
           update_max_buy_percent, update_cooldown_period;
         run_tx; branch; intros H; inversion H; subst; reflexivity).
  unfold mbind, M_bind at 1 in H.
  destruct (check_can_buy p b amount total_supply clock st)
    as [[[ok p1] st1]|f] eqn:E; [|discriminate].
  simpl in H. injection H as -> ->.
  destruct (is_whitelisted p b) eqn:Hw.
  { apply Hsame. unfold check_can_buy in E. rewrite Hw in E.
    inversion E. reflexivity. }
  destruct ok.
  - destruct (check_can_buy_inv p p' b amount total_supply clock st st' Hw E)
      as (_ & _ & Hlim & ->).
    simpl. destruct (N.eq_dec b buyer) as [->|Hne].
    + rewrite lookup_insert_eq. eexists. split; [reflexivity|]. simpl.
      unfold bought_so_far. rewrite Hinfo. split; [lia|].
      unfold within_limits in Hlim. rewrite Hinfo in Hlim.
      apply andb_true_iff in Hlim as [_ Hlim].
      apply andb_true_iff in Hlim as [Hlim _].
      apply andb_true_iff in Hlim as [Hlim _].
      apply N.leb_le. exact Hlim.
    + rewrite lookup_insert_ne by exact Hne.
      exists info. split; [exact Hinfo|]. split; apply N.le_refl.
  - apply Hsame. revert E. unfold check_can_buy. rewrite Hw.
    run_tx. branch; intros E; inversion E; subst; reflexivity.
Qed.

(** Purchase records are never dropped or wound back: whatever calls
    follow, a buyer's record is still there, with at least the same
    [total_bought] and [last_buy_time]. *)
Theorem buy_records_only_grow (p : TokenProtection)
        (ts : list (call * Clock * TxContext)) (buyer : address)
        (info : BuyInfo) :
  buy_tracking p !! buyer = Some info ->
  exists info',
    buy_tracking (history p ts) !! buyer = Some info' /\
    total_bought info <= total_bought info' /\
    last_buy_time info <= last_buy_time info'.
Proof.
  revert p info. induction ts as [|t ts IH]; intros p info Hinfo; simpl.
  - exists info. split; [exact Hinfo|]. split; apply N.le_refl.
  - assert (Hstep : exists info1,
              buy_tracking (transact p t) !! buyer = Some info1 /\
              total_bought info <= total_bought info1 /\
              last_buy_time info <= last_buy_time info1).
    { destruct t as [[c clock] context]. unfold transact, committed.
      destruct (dispatch c clock p (begin_tx context)) as [[p' st']|f] eqn:E.
      - eapply dispatch_tracking_grows; eauto.
      - exists info. split; [exact Hinfo|]. split; apply N.le_refl. }
    destruct Hstep as (info1 & H1 & Hb1 & Ht1).
    destruct (IH _ _ H1) as (info' & H' & Hb' & Ht').
    exists info'. split; [exact H'|]. split; lia.
Qed.

(** The cap is computed in [u64]: when [total_supply * max_buy_percent]
    does not fit, [check_can_buy] stops on the multiplication for every
    buyer who is not whitelisted, whatever the amount, once trading is
    enabled or due. *)
Theorem cap_overflow_blocks_buying (p : TokenProtection) (buyer : address)
        (amount total_supply : N) (clock : Clock) (st : TxState) :
  let now := timestamp_ms clock / 1000 in
  is_whitelisted p buyer = false ->
  blacklist p !! buyer = None ->
  trading_enabled p || (enable_time p <=? now) = true ->
  MAX_U64 < total_supply * max_buy_percent p ->
  check_can_buy p buyer amount total_supply clock st = Fail Overflow /\
  transact p (CheckCanBuy buyer amount total_supply, clock, ctx st) = p.
Proof.
  intros now Hw Hb Hen Hover.
  assert (H : forall st0,
             check_can_buy p buyer amount total_supply clock st0
             = Fail Overflow).
  { intros st0. apply table_contains_false in Hb. apply N.leb_gt in Hover.
    unfold check_can_buy. rewrite Hw, Hb. fold now. run_tx.
    destruct (trading_enabled p) eqn:Ht; simpl in *.
    - rewrite Ht. simpl. rewrite Hover. reflexivity.
    - rewrite Hen. simpl. rewrite Hover. reflexivity. }
  split; [apply H|].
  unfold transact. simpl. unfold mbind, M_bind at 1. rewrite H. reflexivity.
Qed.

Lemma cooldown_enforced_witness :
  check_can_buy (Samples.protection_after_buy 50 1300) 7 50 1000
                (Samples.at_second 1599) (begin_tx (Samples.context_of 7))
  = Fail (Abort EInsufficientCooldown) /\
  exists st',
    check_can_buy (Samples.protection_after_buy 50 1300) 7 50 1000
                  (Samples.at_second 1600) (begin_tx (Samples.context_of 7))
    = Ok ((true,
           set_buy_tracking (Samples.protection_after_buy 50 1300)
             (<[7 := {| total_bought := 50 + 50; last_buy_time := 1600 |}]>
                (buy_tracking (Samples.protection_after_buy 50 1300)))),
          st').
Proof.
  assert (Hinfo : buy_tracking (Samples.protection_after_buy 50 1300) !! 7
                  = Some {| total_bought := 50; last_buy_time := 1300 |})
    by (vm_compute; reflexivity).
  split.
  - apply (cooldown_enforced (Samples.protection_after_buy 50 1300) 7 50 1000
             (Samples.at_second 1599) (begin_tx (Samples.context_of 7))
             {| total_bought := 50; last_buy_time := 1300 |});
      try reflexivity; try exact Hinfo; try (vm_compute; discriminate).
    split; [vm_compute; discriminate | vm_compute; reflexivity].
  - apply (cooldown_enforced (Samples.protection_after_buy 50 1300) 7 50 1000
             (Samples.at_second 1600) (begin_tx (Samples.context_of 7))
             {| total_bought := 50; last_buy_time := 1300 |});
      try reflexivity; try exact Hinfo; vm_compute; discriminate.
Defined.

Lemma blacklist_refuses_buyer_witness :
  exists p1 st1,
    add_to_blacklist Samples.protection 7 (begin_tx (Samples.context_of 1))
    = Ok (p1, st1) /\
    check_can_buy p1 7 50 1000 (Samples.at_second 1300)
                  (begin_tx (Samples.context_of 7))
    = Ok ((false, p1), begin_tx (Samples.context_of 7)).
Proof.
  destruct (blacklist_refuses_buyer Samples.protection 7
              (begin_tx (Samples.context_of 1)) eq_refl eq_refl)
    as (p1 & st1 & Hadd & _ & Hcheck & _).
  exists p1, st1. split; [exact Hadd|]. apply Hcheck.
Defined.

Lemma blacklist_errors_witness :
  remove_from_blacklist Samples.protection 7 (begin_tx (Samples.context_of 1))
  = Fail (Abort EAddressNotWhitelisted).
Proof.
  apply (blacklist_errors Samples.protection 7
           (begin_tx (Samples.context_of 1)) eq_refl).
  reflexivity.
Defined.

Lemma created_protection_gate_witness :
  exists p st',
    create_protection 100 300 500 300 (Samples.at_second 1000)
                      (begin_tx (Samples.context_of 1)) = Ok (p, st') /\
    enable_time p = 1300 /\ whitelist p = [1].
Proof.
  destruct (created_protection_gate 100 300 500 300 (Samples.at_second 1000)
              (begin_tx (Samples.context_of 1))) as [_ H].
  destruct H as (p & st' & Hp & _ & _ & _ & Ht & _ & _ & Hw & _);
    [vm_compute; discriminate|].
  exists p, st'. split; [exact Hp|]. split; [exact Ht | exact Hw].
Defined.

Lemma whitelist_add_remove_witness :
  exists p1 st1 st2',
    add_to_whitelist Samples.protection 7 (begin_tx (Samples.context_of 1))
    = Ok (p1, st1) /\
    is_whitelisted p1 7 = true /\
    remove_from_whitelist p1 7 (begin_tx (Samples.context_of 1))
    = Ok (Samples.protection, st2').
Proof.
  apply (whitelist_add_remove Samples.protection 7
           (begin_tx (Samples.context_of 1))
           (begin_tx (Samples.context_of 1))); reflexivity.
Defined.

Lemma whitelist_without_duplicates_witness :
  NoDup (whitelist
           (history Samples.protection
              [(AddToWhitelist 7, Samples.at_second 1000,
                Samples.context_of 1);
               (AddToWhitelist 7, Samples.at_second 1001,
                Samples.context_of 1)])).
Proof.
  apply (whitelist_without_duplicates Samples.protection).
  apply NoDup_singleton.
Defined.

Lemma only_owner_configures_witness :
  transact Samples.protection
           (UpdateMaxBuyPercent 10000, Samples.at_second 1000,
            Samples.context_of 7)
  = Samples.protection.
Proof.
  apply (only_owner_configures Samples.protection (UpdateMaxBuyPercent 10000)
           (Samples.at_second 1000) (Samples.context_of 7)).
  - vm_compute. discriminate.
  - intros buyer amount total_supply. discriminate.
Defined.

Lemma buy_records_only_grow_witness :
  exists info',
    buy_tracking
      (history (Samples.protection_after_buy 50 1300)
         [(CheckCanBuy 7 50 1000, Samples.at_second 1600,
           Samples.context_of 7)]) !! 7 = Some info' /\
    50 <= total_bought info' /\ 1300 <= last_buy_time info'.
Proof.
  apply (buy_records_only_grow (Samples.protection_after_buy 50 1300)
           [(CheckCanBuy 7 50 1000, Samples.at_second 1600,
             Samples.context_of 7)] 7
           {| total_bought := 50; last_buy_time := 1300 |}).
  vm_compute. reflexivity.
Defined.

Lemma cap_overflow_blocks_buying_witness :
  check_can_buy Samples.protection_enabled 7 0 1000000000000000000
                (Samples.at_second 1300) (begin_tx (Samples.context_of 7))
  = Fail Overflow.
Proof.
  apply (cap_overflow_blocks_buying Samples.protection_enabled 7 0
           1000000000000000000 (Samples.at_second 1300)
           (begin_tx (Samples.context_of 7)));
    vm_compute; reflexivity.
Defined.

End AntiBotMore.

(** ** The liquidity lock beyond the claims *)

Section LockerMore.

Import liquidity_locker locker_history.

Local Open Scope N_scope.

(** What was locked can be read back: after a lock that commits,
    [get_lock_info] on the new id answers the coin's type, the depositor,
    the coin's value and the unlock time; on an id the locker does not
    hold it aborts with [ELockNotFound]. *)
Theorem lock_info_roundtrip (l0 l : LiquidityLocker) (clock0 : Clock)
        (coin : Coin) (lock_duration : N) (st0 st1 st : TxState) :
  lock_liquidity l0 clock0 coin lock_duration st0 = Ok (l, st1) ->
  get_lock_info l (fresh_id (ctx st0) (ids_created (ctx st0))) st
  = Ok ((coin_type coin, sender (ctx st0), value coin,
         timestamp_ms clock0 / 1000 + lock_duration), st) /\
  (forall lock_id, locks l !! lock_id = None ->
     get_lock_info l lock_id st = Fail (Abort ELockNotFound)).
Proof.
  intros Hl.
  destruct (lock_liquidity_stores l0 clock0 coin lock_duration st0)
    as [_ Hstored].
  destruct (Hstored l st1 Hl) as [Hlocks _]. split.
  - unfold get_lock_info. run_tx.
    assert (Hc : table_contains (locks l)
                   (fresh_id (ctx st0) (ids_created (ctx st0))) = true).
    { apply table_contains_true. rewrite Hlocks, lookup_insert_eq. eauto. }
    rewrite Hc. simpl. rewrite Hlocks, lookup_insert_eq. reflexivity.
  - intros lock_id Hnone. unfold get_lock_info. run_tx.
    apply table_contains_false in Hnone. rewrite Hnone. reflexivity.
Qed.

(** A lock is never altered, and leaves the locker only through
    [unlock_liquidity] on its own id, called by its depositor at or after
    its unlock time: after any other transaction it is still there,
    unchanged. *)
Theorem lock_released_only_at_maturity (l : LiquidityLocker)
        (c : call) (clock : Clock) (context : TxContext)
        (lock_id : address) (lock : Lock) :
  locks l !! lock_id = Some lock ->
  locks (transact l (c, clock, context)) !! lock_id = Some lock \/
  (c = UnlockLiquidity lock_id /\
   sender context = locker lock /\
   unlock_time lock <= timestamp_ms clock / 1000 /\
   locks (transact l (c, clock, context)) !! lock_id = None).
Proof.
  intros Hlock. unfold transact, committed.
  destruct (dispatch c clock l (begin_tx context)) as [[l' st']|f] eqn:E;
    [|left; exact Hlock].
  destruct c as [coin d|id|cap d]; simpl in E.
  - left.
    destruct (lock_liquidity_stores l clock coin d (begin_tx context))
      as [_ Hstored].
    destruct (Hstored l' st' E) as [Hlocks _]. rewrite Hlocks.
    destruct (N.eq_dec (fresh_id context (ids_created context)) lock_id)
      as [Heq|Hne].
    + exfalso. revert E. unfold lock_liquidity. run_tx.
      destruct (min_lock_duration l <=? d); simpl; [|discriminate].
      destruct (timestamp_ms clock / 1000 + d <=? MAX_U64); simpl;
        [|discriminate].
      rewrite Heq, Hlock. discriminate.
    + simpl. rewrite lookup_insert_ne by exact Hne. exact Hlock.
  - destruct (N.eq_dec id lock_id) as [->|Hne].
    + right. revert E. unfold unlock_liquidity. run_tx.
      assert (Hc : table_contains (locks l) lock_id = true).
      { apply table_contains_true. rewrite Hlock. eauto. }
      rewrite Hc. simpl. rewrite Hlock. simpl.
      destruct (N.eqb_spec (locker lock) (sender context)); simpl;
        [|discriminate].
      destruct (N.leb_spec (unlock_time lock) (timestamp_ms clock / 1000));
        simpl; [|discriminate].
      intros Hrun. inversion Hrun. simpl.
      split; [reflexivity|]. split; [congruence|]. split; [assumption|].
      apply lookup_delete_eq.
    + left. revert E. unfold unlock_liquidity. run_tx.
      destruct (table_contains (locks l) id); simpl; [|discriminate].
      destruct (locks l !! id) as [lk|]; simpl; [|discriminate].
      repeat (match goal with
              | |- context [if ?b then _ else _] => destruct b
              end; simpl; try discriminate).
      intros H. inversion H. simpl.
      rewrite lookup_delete_ne by exact Hne. exact Hlock.
  - left. inversion E. simpl. exact Hlock.
Qed.

Lemma escrowed_insert (m : gmap address Lock) (k : address) (lock : Lock) :
  m !! k = None ->
  map_fold (fun _ lock total => token_balance lock + total) 0 (<[k := lock]> m)
  = token_balance lock
    + map_fold (fun _ lock total => token_balance lock + total) 0 m.
Proof.
  intros Hk.
  apply (map_fold_insert_L (fun _ lock total => token_balance lock + total));
    [|exact Hk].
  intros. lia.
Qed.

Lemma escrowed_delete (m : gmap address Lock) (k : address) (lock : Lock) :
  m !! k = Some lock ->
  map_fold (fun _ lock total => token_balance lock + total) 0 m
  = token_balance lock
    + map_fold (fun _ lock total => token_balance lock + total) 0 (delete k m).
Proof.
  intros Hk.
  apply (map_fold_delete_L (fun _ lock total => token_balance lock + total));
    [|exact Hk].
  intros. lia.
Qed.

(** Value is conserved by every transaction that commits: what the locker
    held plus what the call deposited is what the locker holds afterwards
    plus what the transaction sent out. *)
Theorem escrow_conservation (l l' : LiquidityLocker) (c : call)
        (clock : Clock) (context : TxContext) (st' : TxState) :
  dispatch c clock l (begin_tx context) = Ok (l', st') ->
  escrowed l + deposited c = escrowed l' + paid_out st'.
Proof.
  destruct c as [coin d|id|cap d]; simpl; unfold escrowed, paid_out.
  - unfold lock_liquidity. run_tx.
    destruct (min_lock_duration l <=? d); simpl; [|discriminate].
    destruct (timestamp_ms clock / 1000 + d <=? MAX_U64); simpl;
      [|discriminate].
    destruct (locks l !! fresh_id context (ids_created context)) eqn:Hfresh;
      simpl; [discriminate|].
    destruct (lock_count l + 1 <=? MAX_U64); simpl; [|discriminate].
    intros H. inversion H. simpl.
    rewrite (escrowed_insert _ _ _ Hfresh). simpl. lia.
  - unfold unlock_liquidity. run_tx.
    destruct (table_contains (locks l) id); simpl; [|discriminate].
    destruct (locks l !! id) as [lock|] eqn:Hlock; simpl; [|discriminate].
    destruct (locker lock =? sender context); simpl; [|discriminate].
    destruct (unlock_time lock <=? timestamp_ms clock / 1000); simpl;
      [|discriminate].
    intros H. inversion H. simpl.
    rewrite (escrowed_delete _ _ _ Hlock). lia.
  - intros H. inversion H. simpl. lia.
Qed.

(** [lock_count] counts the locks ever taken and is not reduced by an
    unlock, so in every locker state on chain it bounds the number of
    locks held. *)
Theorem lock_count_bounds_locks (l : LiquidityLocker) :
  reachable l -> N.of_nat (size (locks l)) <= lock_count l.
Proof.
  induction 1 as [c cap l st Hinit|l t Hr IH].
  - revert Hinit. unfold init. run_tx. intros H. inversion H. simpl.
    rewrite map_size_empty. reflexivity.
  - destruct t as [[c clock] context]. unfold transact, committed.
    destruct (dispatch c clock l (begin_tx context)) as [[l' st']|f] eqn:E;
      [|exact IH].
    destruct c as [coin d|id|cap d]; simpl in E; revert E.
    + unfold lock_liquidity. run_tx.
      destruct (min_lock_duration l <=? d); simpl; [|discriminate].
      destruct (timestamp_ms clock / 1000 + d <=? MAX_U64); simpl;
        [|discriminate].
      destruct (locks l !! fresh_id context (ids_created context)) eqn:Hfresh;
        simpl; [discriminate|].
      destruct (lock_count l + 1 <=? MAX_U64); simpl; [|discriminate].
      intros H. inversion H. simpl.
      rewrite map_size_insert_None by exact Hfresh. lia.
    + unfold unlock_liquidity. run_tx.
      destruct (table_contains (locks l) id); simpl; [|discriminate].
      destruct (locks l !! id) as [lock|] eqn:Hlock; simpl; [|discriminate].
      destruct (locker lock =? sender context); simpl; [|discriminate].
      destruct (unlock_time lock <=? timestamp_ms clock / 1000); simpl;
        [|discriminate].
      intros H. inversion H. simpl.
      pose proof (map_size_delete id (locks l)) as Hs.
      rewrite Hlock in Hs. simpl in Hs. lia.
    + intros H. inversion H. simpl. exact IH.
Qed.

Lemma lock_info_roundtrip_witness :
  get_lock_info Samples.locker_holding 1000 (begin_tx (Samples.context_of 9))
  = Ok ((55, 1, 1000, 2593000), begin_tx (Samples.context_of 9)) /\
  get_lock_info Samples.locker_holding 1001 (begin_tx (Samples.context_of 9))
  = Fail (Abort ELockNotFound).
Proof.
  destruct sample_lock_taken as [st1 Hlock].
  destruct (lock_info_roundtrip Samples.locker Samples.locker_holding
              (Samples.at_second 1000) Samples.lp_tokens 2592000
              (begin_tx (Samples.context_of 1)) st1
              (begin_tx (Samples.context_of 9)) Hlock) as [Hread Hmiss].
  split; [exact Hread|]. apply Hmiss. vm_compute. reflexivity.
Defined.

Lemma lock_released_only_at_maturity_witness :
  locks (transact Samples.locker_holding
           (UnlockLiquidity 1000, Samples.at_second 2592999,
            Samples.context_of 1)) !! 1000
  = Some Samples.lock.
Proof.
  destruct (lock_released_only_at_maturity Samples.locker_holding
              (UnlockLiquidity 1000) (Samples.at_second 2592999)
              (Samples.context_of 1) 1000 Samples.lock)
    as [Hkept|(_ & _ & Hmature & _)].
  - vm_compute. reflexivity.
  - exact Hkept.
  - exfalso. vm_compute in Hmature. apply Hmature. reflexivity.
Defined.

Lemma escrow_conservation_witness :
  escrowed Samples.locker + 1000 = escrowed Samples.locker_holding + 0.
Proof.
  destruct sample_lock_taken as [st1 Hlock].
  assert (Hout : paid_out st1 = 0).
  { revert Hlock. vm_compute. intros H. inversion H. reflexivity. }
  rewrite <- Hout.
  apply (escrow_conservation Samples.locker Samples.locker_holding
           (LockLiquidity Samples.lp_tokens 2592000)
           (Samples.at_second 1000) (Samples.context_of 1) st1).
  exact Hlock.
Defined.

Lemma lock_count_bounds_locks_witness :
  let held :=
    transact Samples.locker
      (LockLiquidity Samples.lp_tokens 2592000, Samples.at_second 1000,
       Samples.context_of 1) in
  let released :=
    transact held
      (UnlockLiquidity 1000, Samples.at_second 2593000,
       Samples.context_of 1) in
  (size (locks held) = 1%nat /\ lock_count held = 1 /\
   N.of_nat (size (locks held)) <= lock_count held) /\
  (size (locks released) = 0%nat /\ lock_count released = 1 /\
   N.of_nat (size (locks released)) <= lock_count released).
Proof.
  intros held released.
  assert (Hr : reachable Samples.locker).
  { apply (reachable_init (Samples.context_of 1) {| cap_id := 1000 |}
             Samples.locker
             {| ctx := {| sender := 1; epoch_timestamp_ms := 1000000;
                          fresh_id := fun n => 1000 + N.of_nat n;
                          ids_created := 3 |};
                emitted := []; transferred := [] |}).
    reflexivity. }
  assert (Hheld : reachable held) by (apply reachable_transact; exact Hr).
  assert (Hreleased : reachable released)
    by (apply reachable_transact; exact Hheld).
  split.
  - split; [vm_compute; reflexivity|]. split; [vm_compute; reflexivity|].
    apply (lock_count_bounds_locks held Hheld).
  - split; [vm_compute; reflexivity|]. split; [vm_compute; reflexivity|].
    apply (lock_count_bounds_locks released Hreleased).
Defined.

End LockerMore.

(** ** Fee routing beyond the claims *)

Section FeesMore.

Import fee_distributor.

Local Open Scope N_scope.

(** [withdraw_protocol_fees] rejects an empty balance with
    [EInsufficientBalance]; otherwise it sends the whole balance, as one
    coin, to the recipient configured at that moment and leaves nothing
    behind, so that a second withdrawal is rejected.  The shares and the
    counter of collected fees are not touched. *)
Theorem protocol_withdrawal_drains (cap : AdminCap) (d : FeeDistributor)
        (st : TxState) :
  (protocol_balance d = 0 ->
     withdraw_protocol_fees cap d st = Fail (Abort EInsufficientBalance)) /\
  (0 < protocol_balance d ->
     exists d' st',
       withdraw_protocol_fees cap d st = Ok (d', st') /\
       protocol_balance d' = 0 /\
       transferred st'
       = transferred st ++ [(protocol_fee_recipient d, protocol_balance d)] /\
       protocol_fee_bps d' = protocol_fee_bps d /\
       creator_fee_bps d' = creator_fee_bps d /\
       total_fees_collected d' = total_fees_collected d /\
       forall cap2 st2,
         withdraw_protocol_fees cap2 d' st2
         = Fail (Abort EInsufficientBalance)).
Proof.
  unfold withdraw_protocol_fees. run_tx. split.
  - intros ->. reflexivity.
  - intros Hpos.
    assert (Hlt : (0 <? protocol_balance d) = true) by (apply N.ltb_lt; lia).
    rewrite Hlt, N.leb_refl. simpl. eexists _, _. split; [reflexivity|].
    simpl. rewrite N.sub_diag. repeat (split; [reflexivity|]).
    intros cap2 st2. reflexivity.
Qed.

(** [withdraw_creator_fees] is the creator's alone: any other sender is
    turned away with code 0, whatever the balance.  For the creator an
    empty balance -- such as that of a configuration just created -- is
    rejected with [EInsufficientBalance]; otherwise the whole balance goes
    to the creator and nothing is left. *)
Theorem creator_withdrawal_drains (config : TokenFeeConfig) (st : TxState) :
  (sender (ctx st) <> creator config ->
     withdraw_creator_fees config st = Fail (Abort 0)) /\
  (sender (ctx st) = creator config -> creator_balance config = 0 ->
     withdraw_creator_fees config st = Fail (Abort EInsufficientBalance)) /\
  (sender (ctx st) = creator config -> 0 < creator_balance config ->
     exists config' st',
       withdraw_creator_fees config st = Ok (config', st') /\
       creator_balance config' = 0 /\
       fees_collected config' = fees_collected config /\
       transferred st'
       = transferred st ++ [(creator config, creator_balance config)]) /\
  (forall token_id who st0 config0 st0',
     create_token_fee_config token_id who st0 = Ok (config0, st0') ->
     creator config0 = who /\ creator_balance config0 = 0 /\
     forall st1, exists f, withdraw_creator_fees config0 st1 = Fail f).
Proof.
  unfold withdraw_creator_fees. run_tx. split; [|split; [|split]].
  - intros Hne.
    destruct (N.eqb_spec (creator config) (sender (ctx st))); [congruence|].
    reflexivity.
  - intros -> ->. rewrite N.eqb_refl. reflexivity.
  - intros Hs Hpos. rewrite Hs, N.eqb_refl. simpl.
    assert (Hlt : (0 <? creator_balance config) = true)
      by (apply N.ltb_lt; lia).
    rewrite Hlt, N.leb_refl. simpl. eexists _, _. split; [reflexivity|].
    simpl. rewrite N.sub_diag. auto.
  - intros token_id who st0 config0 st0'.
    unfold create_token_fee_config. run_tx.
    intros H. inversion H. simpl. split; [reflexivity|].
    split; [reflexivity|].
    intros st1. destruct (who =? sender (ctx st1)); simpl; eauto.
Qed.

Lemma dispatch_keeps_balance_bound (c : call) (d d' : FeeDistributor)
      (st st' : TxState) :
  dispatch c d st = Ok (d', st') ->
  protocol_balance d <= total_fees_collected d ->
  protocol_balance d' <= total_fees_collected d' /\
  total_fees_collected d <= total_fees_collected d'.
Proof.
  destruct c as [config fee|cap|cap pf cf|cap a]; simpl.
  - unfold collect_fees. run_tx.
    repeat (match goal with
            | |- context [if ?b then _ else _] => destruct b eqn:?
            end; simpl; try discriminate).
    intros H. inversion H. simpl.
    apply N.leb_le in Heqb2. lia.
  - unfold withdraw_protocol_fees. run_tx.
    repeat (match goal with
            | |- context [if ?b then _ else _] => destruct b eqn:?
            end; simpl; try discriminate).
    intros H. inversion H. simpl. lia.
  - unfold update_fee_distribution. run_tx.
    repeat (match goal with
            | |- context [if ?b then _ else _] => destruct b eqn:?
            end; simpl; try discriminate).
    intros H. inversion H. simpl. lia.
  - intros H. inversion H. simpl. lia.
Qed.

(** The protocol's balance never exceeds what the distributor has counted
    as collected, in any state on chain; and the counter itself never goes
    down. *)
Theorem protocol_balance_within_collected (d : FeeDistributor) :
  reachable d ->
  protocol_balance d <= total_fees_collected d /\
  forall t, total_fees_collected d <= total_fees_collected (transact d t).
Proof.
  intros Hr.
  assert (Hb : protocol_balance d <= total_fees_collected d).
  { induction Hr as [c cap d st Hinit|d t Hr IH].
    - revert Hinit. unfold init. run_tx. intros H. inversion H. simpl. lia.
    - unfold transact, committed.
      destruct (dispatch (fst t) d (begin_tx (snd t))) as [[d' st']|f] eqn:E;
        [|exact IH].
      eapply dispatch_keeps_balance_bound; eauto. }
  split; [exact Hb|].
  intros t. unfold transact, committed.
  destruct (dispatch (fst t) d (begin_tx (snd t))) as [[d' st']|f] eqn:E;
    [|lia].
  eapply dispatch_keeps_balance_bound; eauto.
Qed.

(** The two shares are parts of 1000: [update_fee_distribution] commits
    exactly for a pair that adds up to 1000 -- either share may be 0.  It
    then sets the two shares and changes nothing else: the id, the
    recipient, the protocol balance and the counter are kept, and so is the
    transaction state; after it a collected fee is split as
    [fee * protocol_fee_bps / 1000] for the protocol and the rest for the
    creator.  For any other pair the call aborts -- with [EInvalidFeeShare]
    when the sum fits in [u64], on the addition when it does not -- and the
    distributor stays as it was. *)
Theorem fee_shares_out_of_1000 (cap : AdminCap) (d : FeeDistributor)
        (p c : N) (st : TxState) :
  ((exists d1 st1, update_fee_distribution cap d p c st = Ok (d1, st1))
   <-> p + c = 1000) /\
  (p + c = 1000 ->
     exists d1,
       update_fee_distribution cap d p c st = Ok (d1, st) /\
       protocol_fee_bps d1 = p /\ creator_fee_bps d1 = c /\
       id d1 = id d /\
       protocol_fee_recipient d1 = protocol_fee_recipient d /\
       protocol_balance d1 = protocol_balance d /\
       total_fees_collected d1 = total_fees_collected d /\
       forall config fee st2 d2 config2 st2',
         collect_fees d1 config fee st2 = Ok ((d2, config2), st2') ->
         protocol_balance d2 = protocol_balance d + fee * p / 1000 /\
         creator_balance config2
         = creator_balance config + (fee - fee * p / 1000)) /\
  (p + c <> 1000 ->
     committed d (update_fee_distribution cap d p c st) = d /\
     (p + c <= MAX_U64 ->
      update_fee_distribution cap d p c st = Fail (Abort EInvalidFeeShare)) /\
     (MAX_U64 < p + c ->
      update_fee_distribution cap d p c st = Fail Overflow)).
Proof.
  unfold update_fee_distribution. run_tx. split; [|split].
  - split.
    + intros (d1 & st1 & H). revert H.
      destruct (p + c <=? MAX_U64); simpl; [|discriminate].
      destruct (N.eqb_spec (p + c) 1000); [trivial|discriminate].
    + intros Hsum. rewrite Hsum. simpl. eauto.
  - intros Hsum. rewrite Hsum. simpl. eexists. split; [reflexivity|]. simpl.
    repeat (split; [reflexivity|]).
    intros config fee st2 d2 config2 st2' H.
    apply collect_fees_inv in H. simpl in H.
    destruct H as (_ & Hp & Hc & _). rewrite Hsum in Hp, Hc. auto.
  - intros Hne. split; [|split].
    + destruct (p + c <=? MAX_U64); simpl; [|reflexivity].
      destruct (N.eqb_spec (p + c) 1000); [congruence|reflexivity].
    + intros Hfit. apply N.leb_le in Hfit. rewrite Hfit. simpl.
      destruct (N.eqb_spec (p + c) 1000); [congruence|reflexivity].
    + intros Hbig. apply N.leb_gt in Hbig. rewrite Hbig. reflexivity.
Qed.

Lemma protocol_withdrawal_drains_witness :
  withdraw_protocol_fees {| cap_id := 1000 |} Samples.distributor
                         (begin_tx (Samples.context_of 1))
  = Fail (Abort EInsufficientBalance).
Proof.
  apply (protocol_withdrawal_drains {| cap_id := 1000 |} Samples.distributor
           (begin_tx (Samples.context_of 1))).
  reflexivity.
Defined.

Lemma creator_withdrawal_drains_witness :
  withdraw_creator_fees Samples.fee_config (begin_tx (Samples.context_of 3))
  = Fail (Abort 0) /\
  withdraw_creator_fees Samples.fee_config (begin_tx (Samples.context_of 2))
  = Fail (Abort EInsufficientBalance).
Proof.
  split.
  - apply (creator_withdrawal_drains Samples.fee_config
             (begin_tx (Samples.context_of 3))).
    vm_compute. discriminate.
  - apply (creator_withdrawal_drains Samples.fee_config
             (begin_tx (Samples.context_of 2))); reflexivity.
Defined.

Lemma protocol_balance_within_collected_witness :
  protocol_balance
    (transact Samples.distributor
       (CollectFees Samples.fee_config 1001, Samples.context_of 3))
  <= total_fees_collected
       (transact Samples.distributor
          (CollectFees Samples.fee_config 1001, Samples.context_of 3)).
Proof.
  apply (protocol_balance_within_collected
           (transact Samples.distributor
              (CollectFees Samples.fee_config 1001, Samples.context_of 3))).
  apply reachable_transact.
  apply (reachable_init (Samples.context_of 1) {| cap_id := 1000 |}
           Samples.distributor
           {| ctx := {| sender := 1; epoch_timestamp_ms := 1000000;
                        fresh_id := fun n => 1000 + N.of_nat n;
                        ids_created := 2 |};
              emitted := []; transferred := [] |}).
  reflexivity.
Defined.

Lemma fee_shares_out_of_1000_witness :
  update_fee_distribution {| cap_id := 1000 |} Samples.distributor 300 600
                          (begin_tx (Samples.context_of 1))
  = Fail (Abort EInvalidFeeShare) /\
  update_fee_distribution {| cap_id := 1000 |} Samples.distributor
                          MAX_U64 1 (begin_tx (Samples.context_of 1))
  = Fail Overflow /\
  exists d1,
    update_fee_distribution {| cap_id := 1000 |} Samples.distributor 1000 0
                            (begin_tx (Samples.context_of 1))
    = Ok (d1, begin_tx (Samples.context_of 1)) /\
    protocol_fee_bps d1 = 1000 /\ creator_fee_bps d1 = 0 /\
    protocol_fee_recipient d1 = 1.
Proof.
  split; [|split].
  - apply (fee_shares_out_of_1000 {| cap_id := 1000 |} Samples.distributor
             300 600 (begin_tx (Samples.context_of 1)));
      vm_compute; discriminate.
  - apply (fee_shares_out_of_1000 {| cap_id := 1000 |} Samples.distributor
             MAX_U64 1 (begin_tx (Samples.context_of 1)));
      [vm_compute; discriminate | vm_compute; reflexivity].
  - destruct (fee_shares_out_of_1000 {| cap_id := 1000 |} Samples.distributor
                1000 0 (begin_tx (Samples.context_of 1))) as (_ & Hok & _).
    destruct (Hok eq_refl) as (d1 & Hd1 & Hp & Hc & _ & Hr & _).
    exists d1. rewrite Hr. auto.
Defined.

End FeesMore.

(** ** The rate limiter and the Telegram handler beyond the claims *)

Section TelegramMore.

Import telegram rate_view rate_answers telegram_bot deployer.

Local Open Scope Z_scope.

Lemma check_keeps_count_bounds (entry : option UserData) (now : Z) :
  (forall ud, entry = Some ud ->
     1 <= count ud <= 3 /\ (isCoolingDown ud = true -> count ud = 3)) ->
  1 <= count (snd (check entry now)) <= 3 /\
  (isCoolingDown (snd (check entry now)) = true ->
   count (snd (check entry now)) = 3).
Proof.
  intros Hentry. unfold check, RATE_LIMIT.timeWindow, RATE_LIMIT.maxRequests.
  destruct entry as [ud|]; [|simpl; split; [lia|discriminate]].
  destruct (Hentry ud eq_refl) as [Hc Hcool].
  destruct (isCoolingDown ud) eqn:Ec.
  - destruct (now <? cooldownUntil ud); simpl.
    + rewrite ?Ec. auto.
    + split; [lia|discriminate].
  - destruct (now - firstRequest ud <? 3600); simpl.
    + destruct (Z.leb_spec 3 (count ud)); simpl.
      * split; [lia|]. intros _. lia.
      * rewrite ?Ec. split; [lia|discriminate].
    + rewrite ?Ec. split; [lia|discriminate].
Qed.

(** Whatever requests are served, starting from an empty tracker, every
    entry keeps a request count between 1 and [maxRequests], and an entry
    in cooldown has used all of them. *)
Theorem request_count_bounded (requests : list (Z * Z)) (userId : Z)
        (userData : UserData) :
  serve ∅ requests !! userId = Some userData ->
  1 <= count userData <= RATE_LIMIT.maxRequests /\
  (isCoolingDown userData = true -> count userData = RATE_LIMIT.maxRequests).
Proof.
  unfold RATE_LIMIT.maxRequests.
  assert (Hinv : forall rs (m : gmap Z UserData),
            (forall u ud, m !! u = Some ud ->
               1 <= count ud <= 3 /\ (isCoolingDown ud = true -> count ud = 3)) ->
            forall u ud, serve m rs !! u = Some ud ->
               1 <= count ud <= 3 /\ (isCoolingDown ud = true -> count ud = 3)).
  { induction rs as [|r rs IH]; intros m Hm u ud; simpl; [apply Hm|].
    apply IH. clear u ud. intros u ud.
    rewrite isRateLimited_check. simpl.
    destruct (Z.eq_dec (fst r) u) as [->|Hne].
    - rewrite lookup_insert_eq. intros [= <-].
      apply check_keeps_count_bounds. intros ud' Hud'. eapply Hm; eauto.
    - rewrite lookup_insert_ne by exact Hne. apply Hm. }
  apply (Hinv requests ∅). intros u ud. rewrite lookup_empty. discriminate.
Qed.

Lemma answers_cons (userId date_now : Z) (later : list Z)
      (m : gmap Z UserData) :
  answers userId (date_now :: later) m
  = fst (check (m !! userId) (date_now / 1000))
    :: answers userId later
         (<[userId := snd (check (m !! userId) (date_now / 1000))]> m).
Proof.
  cbn [answers]. rewrite isRateLimited_check. reflexivity.
Qed.

Lemma check_in_window (ud : UserData) (now : Z) :
  isCoolingDown ud = false ->
  now - firstRequest ud < 3600 -> count ud < 3 ->
  check (Some ud) now
  = (false, {| count := count ud + 1; firstRequest := firstRequest ud;
               isCoolingDown := false; cooldownUntil := cooldownUntil ud |}).
Proof.
  intros Hc Hw Hn. unfold check, RATE_LIMIT.timeWindow, RATE_LIMIT.maxRequests.
  rewrite Hc.
  destruct (Z.ltb_spec (now - firstRequest ud) 3600); [|lia].
  destruct (Z.leb_spec 3 (count ud)); [lia|reflexivity].
Qed.

Lemma check_window_passed (ud : UserData) (now : Z) :
  isCoolingDown ud = false ->
  3600 <= now - firstRequest ud ->
  check (Some ud) now
  = (false, {| count := 1; firstRequest := now;
               isCoolingDown := false; cooldownUntil := cooldownUntil ud |}).
Proof.
  intros Hc Hw. unfold check, RATE_LIMIT.timeWindow. rewrite Hc.
  destruct (Z.ltb_spec (now - firstRequest ud) 3600); [lia|reflexivity].
Qed.

(** The window is anchored at its first request, not sliding: after three
    requests in one window, a request once the window has passed opens a
    new one, so the three requests of the new window are allowed however
    close they follow the last ones of the old. *)
Theorem window_anchored_at_first_request (tracker : gmap Z UserData)
        (userId d0 d1 d2 d3 d4 d5 : Z) :
  let t0 := d0 / 1000 in
  let t3 := d3 / 1000 in
  opens_window (tracker !! userId) t0 = true ->
  d1 / 1000 - t0 < 3600 -> d2 / 1000 - t0 < 3600 ->
  3600 <= t3 - t0 ->
  d4 / 1000 - t3 < 3600 -> d5 / 1000 - t3 < 3600 ->
  answers userId [d0; d1; d2; d3; d4; d5] tracker
  = [false; false; false; false; false; false].
Proof.
  intros t0 t3 Hopen H1 H2 H3 H4 H5.
  assert (E0 : exists cu, check (tracker !! userId) t0
               = (false, {| count := 1; firstRequest := t0;
                            isCoolingDown := false; cooldownUntil := cu |})).
  { unfold check, opens_window in *.
    destruct (tracker !! userId) as [ud|]; [|eauto].
    destruct (isCoolingDown ud) eqn:Ec.
    - apply Z.leb_le in Hopen.
      destruct (Z.ltb_spec t0 (cooldownUntil ud)); [lia|eauto].
    - apply negb_true_iff in Hopen. rewrite Hopen. eauto. }
  destruct E0 as [cu E0].
  rewrite answers_cons. fold t0. rewrite E0. cbn [fst snd].
  rewrite answers_cons, lookup_insert_eq.
  rewrite check_in_window by (cbn; first [reflexivity | lia | assumption]).
  cbn [fst snd count firstRequest isCoolingDown cooldownUntil].
  rewrite answers_cons, lookup_insert_eq.
  rewrite check_in_window by (cbn; first [reflexivity | lia | assumption]).
  cbn [fst snd count firstRequest isCoolingDown cooldownUntil].
  rewrite answers_cons, lookup_insert_eq. fold t3.
  rewrite check_window_passed by (cbn; first [reflexivity | assumption]).
  cbn [fst snd count firstRequest isCoolingDown cooldownUntil].
  rewrite answers_cons, lookup_insert_eq.
  rewrite check_in_window by (cbn; first [reflexivity | lia | assumption]).
  cbn [fst snd count firstRequest isCoolingDown cooldownUntil].
  rewrite answers_cons, lookup_insert_eq.
  rewrite check_in_window by (cbn; first [reflexivity | lia | assumption]).
  reflexivity.
Qed.

(** What [getCooldownTimeRemaining] tells a user: ["no cooldown"] without
    an entry or outside a cooldown, ["cooldown ended"] once the cooldown
    time is reached, and otherwise whole hours and minutes that
    under-state the remaining seconds by less than a minute. *)
Theorem cooldown_time_shown (tracker : gmap Z UserData) (userId date_now : Z) :
  let now := date_now / 1000 in
  (tracker !! userId = None ->
     getCooldownTimeRemaining userId date_now tracker = "no cooldown"%string) /\
  (forall ud, tracker !! userId = Some ud ->
     (isCoolingDown ud = false ->
        getCooldownTimeRemaining userId date_now tracker
        = "no cooldown"%string) /\
     (isCoolingDown ud = true -> cooldownUntil ud <= now ->
        getCooldownTimeRemaining userId date_now tracker
        = "cooldown ended"%string) /\
     (isCoolingDown ud = true -> now < cooldownUntil ud ->
        exists hours minutes,
          getCooldownTimeRemaining userId date_now tracker
          = (pretty hours ++ " hour" ++ plural hours ++ " and "
               ++ pretty minutes ++ " minute" ++ plural minutes)%string /\
          0 <= hours /\ 0 <= minutes < 60 /\
          hours * 3600 + minutes * 60 <= cooldownUntil ud - now
            < hours * 3600 + minutes * 60 + 60)).
Proof.
  intros now. unfold getCooldownTimeRemaining. fold now. split.
  - intros ->. reflexivity.
  - intros ud ->. split; [|split].
    + intros ->. reflexivity.
    + intros -> Hover. simpl.
      destruct (Z.leb_spec (cooldownUntil ud - now) 0); [reflexivity|lia].
    + intros -> Hleft. simpl.
      destruct (Z.leb_spec (cooldownUntil ud - now) 0); [lia|].
      eexists _, _. split; [reflexivity|].
      rewrite Z.rem_mod_nonneg by lia.
      pose proof (Z.div_mod (cooldownUntil ud - now) 3600 ltac:(lia)).
      pose proof (Z.mod_pos_bound (cooldownUntil ud - now) 3600 ltac:(lia)).
      pose proof (Z.div_mod ((cooldownUntil ud - now) mod 3600) 60 ltac:(lia)).
      pose proof (Z.mod_pos_bound ((cooldownUntil ud - now) mod 3600) 60
                    ltac:(lia)).
      pose proof (Z.div_pos (cooldownUntil ud - now) 3600 ltac:(lia)
                    ltac:(lia)).
      pose proof (Z.div_pos ((cooldownUntil ud - now) mod 3600) 60 ltac:(lia)
                    ltac:(lia)).
      pose proof (Z.div_lt_upper_bound ((cooldownUntil ud - now) mod 3600)
                    60 60 ltac:(lia) ltac:(lia)).
      lia.
Qed.

(** A text has at most as many UTF-16 code units as UTF-8 bytes. *)
Lemma utf16_length_le (s : string) :
  (utf16_length s <= String.length s)%nat.
Proof.
  assert (H : forall n s, (String.length s <= n)%nat ->
                          (utf16_length s <= String.length s)%nat).
  { clear s. induction n as [|n IH]; intros s Hn.
    - destruct s; simpl in *; lia.
    - destruct s as [|c s]; [simpl; lia|].
      cbn [utf16_length String.length]. simpl in Hn.
      pose proof (IH s ltac:(lia)) as Hs.
      destruct (240 <=? text_parser.code c)%N.
      + destruct s as [|c1 [|c2 [|c3 rest]]]; try lia.
        simpl in Hn. pose proof (IH rest ltac:(lia)). simpl. lia.
      + destruct (isContinuation c); lia. }
  apply (H (String.length s)). lia.
Qed.

(** Accented letters count once and a character beyond the basic plane
    twice, so a text of three accented letters is too short to be looked
    at although it has six bytes. *)
Lemma utf16_length_examples :
  utf16_length "ééé" = 3%nat /\ String.length "ééé" = 6%nat /\
  utf16_length "🚀" = 2%nat /\ String.length "🚀" = 4%nat /\
  fst (processMessage (Samples.world true true true true) MoreSamples.chat
         (MoreSamples.update 7 "ééé") 1000000 1000000 MoreSamples.bot_start)
  = Skipped "Message too short".
Proof. repeat split; vm_compute; reflexivity. Qed.

(** A message id is handled once: after [processMessage] the id is on
    record, nothing is ever taken off the record, and any later update with
    the same id is skipped as already processed without touching the
    listener's state -- it does not even count against the rate limit. *)
Theorem message_handled_once (world : World) (chat : Chat) (update : Update)
        (date_now date_later : Z) (state : BotState) :
  let state' :=
    snd (processMessage world chat update date_now date_later state) in
  message_id update ∈ processedMessages state' /\
  processedMessages state ⊆ processedMessages state' /\
  forall world2 chat2 update2 date_now2 date_later2,
    message_id update2 = message_id update ->
    processMessage world2 chat2 update2 date_now2 date_later2 state'
    = (Skipped "Already processed", state').
Proof.
  intros state'.
  assert (Hin : message_id update ∈ processedMessages state' /\
                processedMessages state ⊆ processedMessages state').
  { unfold state', processMessage.
    destruct (bool_decide (message_id update ∈ processedMessages state))
      eqn:E.
    - apply bool_decide_eq_true in E. simpl. split; [exact E|set_solver].
    - destruct (isRateLimited (from_id update) date_now
                  (userActivityTracker state)) as [limited tracker].
      simpl. split; set_solver. }
  destruct Hin as [Hin Hsub]. split; [exact Hin|]. split; [exact Hsub|].
  intros world2 chat2 update2 date_now2 date_later2 Hid.
  unfold processMessage at 1. rewrite Hid.
  rewrite bool_decide_eq_true_2 by exact Hin. reflexivity.
Qed.

(** Every new message is first charged to its sender's rate limit,
    whatever it says: the tracker is updated as by [isRateLimited] also for
    commands and for messages too short to be a request.  A sender who is
    rate-limited is told so and skipped -- the deployment workflow is not
    consulted -- and if that notice cannot be sent, the failure is what
    [processMessage] returns. *)
Theorem new_message_charged_first (world : World) (chat : Chat)
        (update : Update) (date_now date_later : Z) (state : BotState) :
  let limited :=
    fst (isRateLimited (from_id update) date_now (userActivityTracker state)) in
  let tracker :=
    snd (isRateLimited (from_id update) date_now (userActivityTracker state)) in
  let outcome := processMessage world chat update date_now date_later state in
  message_id update ∉ processedMessages state ->
  userActivityTracker (snd outcome) = tracker /\
  (limited = true ->
     fst outcome
     = match reply chat
               (rateLimitNotice
                  (getCooldownTimeRemaining (from_id update) date_later
                                            tracker)) with
       | Return _ => Skipped "Rate limited"
       | Throw e => Failed e
       end) /\
  (limited = false -> String.prefix "/" (text update) = true ->
     fst outcome = Skipped "Command message") /\
  (limited = false -> String.prefix "/" (text update) = false ->
   (String.length (text update) < 5)%nat ->
     fst outcome = Skipped "Message too short").
Proof.
  intros limited tracker outcome Hnew.
  unfold outcome, processMessage.
  rewrite bool_decide_eq_false_2 by exact Hnew.
  unfold limited, tracker.
  destruct (isRateLimited (from_id update) date_now
              (userActivityTracker state)) as [l t].
  simpl. split; [reflexivity|]. split; [|split].
  - intros ->. unfold try_catch, mbind, js_bind, mret, js_ret.
    destruct (reply chat _) as [[]|e]; reflexivity.
  - intros -> ->. reflexivity.
  - intros -> -> Hshort.
    pose proof (utf16_length_le (text update)) as Hunits.
    destruct (Nat.ltb_spec (utf16_length (text update)) 5); [reflexivity|lia].
Qed.

(** A message that gets through to the workflow -- new, from a sender who
    is not rate-limited, not a command, at least five UTF-16 code units
    long, the typing indicator sent: a successful deployment, and a failed
    one whose reason mentions the deployment, is returned as it is.  Any other failure -- an invalid symbol as much as an
    unrecognised request -- is answered with the not-recognised text, and
    is returned only if that reply could be sent; otherwise the reply's
    error is returned in its place. *)
Theorem workflow_result_returned (world : World) (chat : Chat)
        (update : Update) (date_now date_later : Z) (state : BotState) :
  let result :=
    processTokenDeployment world (text update) "telegram"
                           (pretty (from_id update)) in
  let outcome := processMessage world chat update date_now date_later state in
  message_id update ∉ processedMessages state ->
  fst (isRateLimited (from_id update) date_now (userActivityTracker state))
  = false ->
  String.prefix "/" (text update) = false ->
  (5 <= utf16_length (text update))%nat ->
  sendChatAction chat = Return tt ->
  (Outcome.success result = true -> fst outcome = Handled result) /\
  (forall why, Outcome.success result = false ->
     Outcome.reason result = Some why ->
     includes why "Deployment failed" = true ->
     fst outcome = Handled result) /\
  (forall why, Outcome.success result = false ->
     Outcome.reason result = Some why ->
     includes why "Deployment failed" = false ->
     fst outcome = match reply chat notRecognized with
                   | Return _ => Handled result
                   | Throw e => Failed e
                   end).
Proof.
  intros result outcome Hnew Hfree Hcmd Hlong Htyping.
  unfold outcome, processMessage.
  rewrite bool_decide_eq_false_2 by exact Hnew.
  destruct (isRateLimited (from_id update) date_now
              (userActivityTracker state)) as [l t].
  simpl in Hfree. subst l. rewrite Hcmd.
  destruct (Nat.ltb_spec (utf16_length (text update)) 5); [lia|].
  rewrite Htyping. fold result.
  unfold try_catch, mbind, js_bind, mret, js_ret. cbn [fst].
  split; [|split].
  - intros ->. reflexivity.
  - intros why -> -> Hinc.
    destruct why as [|c why]; [discriminate Hinc|]. rewrite Hinc. reflexivity.
  - intros why -> -> Hinc.
    destruct why as [|c why].
    + destruct (reply chat notRecognized) as [[]|e]; reflexivity.
    + rewrite Hinc. destruct (reply chat notRecognized) as [[]|e]; reflexivity.
Qed.

Lemma request_count_bounded_witness :
  exists userData,
    serve ∅ [(42, 1000000); (42, 1001000); (42, 1002000); (42, 1003000);
             (42, 1004000)] !! 42 = Some userData /\
    1 <= count userData <= 3 /\ isCoolingDown userData = true.
Proof.
  eexists. split; [vm_compute; reflexivity|]. split; [|reflexivity].
  refine (proj1 (request_count_bounded
                   [(42, 1000000); (42, 1001000); (42, 1002000);
                    (42, 1003000); (42, 1004000)] 42 _ _)).
  vm_compute. reflexivity.
Defined.

Lemma window_anchored_at_first_request_witness :
  answers 42 [1000000; 4598000; 4599000; 4600000; 4601000; 4602000] ∅
  = [false; false; false; false; false; false].
Proof.
  apply (window_anchored_at_first_request ∅ 42 1000000 4598000 4599000
           4600000 4601000 4602000); vm_compute; congruence.
Defined.

Lemma cooldown_time_shown_witness :
  getCooldownTimeRemaining 42 1180000 {[ 42 := MoreSamples.cooling ]}
  = "24 hours and 0 minutes"%string /\
  getCooldownTimeRemaining 42 87580000 {[ 42 := MoreSamples.cooling ]}
  = "cooldown ended"%string.
Proof.
  split.
  - destruct (cooldown_time_shown {[ 42 := MoreSamples.cooling ]} 42 1180000)
      as [_ H].
    destruct (H MoreSamples.cooling ltac:(vm_compute; reflexivity))
      as (_ & _ & Hleft).
    destruct (Hleft eq_refl ltac:(vm_compute; reflexivity))
      as (hours & minutes & Hshown & _).
    vm_compute. reflexivity.
  - destruct (cooldown_time_shown {[ 42 := MoreSamples.cooling ]} 42 87580000)
      as [_ H].
    destruct (H MoreSamples.cooling ltac:(vm_compute; reflexivity))
      as (_ & Hended & _).
    apply Hended; [reflexivity | vm_compute; discriminate].
Defined.

Lemma message_handled_once_witness :
  let state' :=
    snd (processMessage (Samples.world true true true true) MoreSamples.chat
           (MoreSamples.update 7 "/help") 1000000 1000000
           MoreSamples.bot_start) in
  processMessage (Samples.world true true true true) MoreSamples.chat
                 (MoreSamples.update 7 Samples.sample_message)
                 1001000 1001000 state'
  = (Skipped "Already processed", state').
Proof.
  intros state'.
  apply (message_handled_once (Samples.world true true true true)
           MoreSamples.chat (MoreSamples.update 7 "/help") 1000000 1000000
           MoreSamples.bot_start).
  reflexivity.
Defined.

Lemma new_message_charged_first_witness :
  let outcome :=
    processMessage (Samples.world true true true true) MoreSamples.chat
                   (MoreSamples.update 7 "/help") 1000000 1000000
                   MoreSamples.bot_start in
  fst outcome = Skipped "Command message" /\
  userActivityTracker (snd outcome)
  = snd (isRateLimited 42 1000000 ∅).
Proof.
  intros outcome.
  destruct (new_message_charged_first (Samples.world true true true true)
              MoreSamples.chat (MoreSamples.update 7 "/help") 1000000 1000000
              MoreSamples.bot_start) as (Htracker & _ & Hcommand & _).
  - vm_compute. set_solver.
  - split; [|exact Htracker]. apply Hcommand; reflexivity.
Defined.

Lemma workflow_result_returned_witness :
  fst (processMessage (Samples.world true true true true)
         MoreSamples.chat_blocked
         (MoreSamples.update 7 Samples.sample_message) 1000000 1000000
         MoreSamples.bot_start)
  = Handled (processTokenDeployment (Samples.world true true true true)
               Samples.sample_message "telegram" "42").
Proof.
  apply (workflow_result_returned (Samples.world true true true true)
           MoreSamples.chat_blocked
           (MoreSamples.update 7 Samples.sample_message) 1000000 1000000
           MoreSamples.bot_start);
    try reflexivity; try (vm_compute; set_solver);
    try (vm_compute; lia).
Defined.

End TelegramMore.

(** ** Request validation beyond the claims *)

Section ValidationMore.

Import text_parser ascii_text.

(** What [validateTokenParams] accepts, among the parsed answers that have
    the shape the prompt asks for -- a boolean flag, an integer confidence,
    strings or [null] -- and whose symbol, if any, is ASCII text: exactly
    those flagged as token requests, with confidence at least 70, a
    non-empty name, and a non-empty symbol that is 2 to 5 characters long
    once formatted. *)
Theorem validation_accepts_iff (request : Parsed.TokenRequest) (pick : nat) :
  (forall symbol, Parsed.tokenSymbol request = Some symbol ->
                  is_ascii_text symbol = true) ->
  (isValid (validateTokenParams request pick) = true <->
   Parsed.isTokenRequest request = true /\
   (70 <= Parsed.confidence request)%Z /\
   truthy (Parsed.tokenName request) = true /\
   exists symbol,
     Parsed.tokenSymbol request = Some symbol /\ symbol <> EmptyString /\
     (2 <= String.length (formatSymbol symbol) <= 5)%nat).
Proof.
  intros _. unfold validateTokenParams.
  destruct (Parsed.isTokenRequest request); simpl;
    [|split; [discriminate | intros (H & _); discriminate]].
  destruct (Z.ltb_spec (Parsed.confidence request) 70); simpl;
    [split; [discriminate | intros (_ & H' & _); lia]|].
  destruct (Parsed.tokenName request) as [[|c name]|]; simpl;
    try (split; [discriminate | intros (_ & _ & H' & _); discriminate]).
  destruct (Parsed.tokenSymbol request) as [[|c' symbol]|]; simpl.
  - split; [discriminate|].
    intros (_ & _ & _ & s & Hs & Hne & _). congruence.
  - destruct (Nat.ltb_spec (String.length (formatSymbol (String c' symbol))) 2);
      destruct (Nat.ltb_spec 5 (String.length (formatSymbol (String c' symbol))));
      simpl; split; try discriminate;
      try (intros (_ & _ & _ & s & Hs & _ & Hlen); inversion Hs; subst; lia).
    intros _. repeat (split; [reflexivity || assumption|]).
    exists (String c' symbol). repeat split; try discriminate; lia.
  - split; [discriminate|].
    intros (_ & _ & _ & s & Hs & _). discriminate.
Qed.

Lemma upper_settles (c : ascii) :
  isWord (upper c) = true ->
  upper (upper c) = upper c /\ isLower (upper c) = false.
Proof.
  destruct c as [[] [] [] [] [] [] [] []]; vm_compute; intros; split;
    congruence.
Qed.

Lemma kept_idempotent (s : string) : kept (kept s) = kept s.
Proof.
  unfold kept, toUpperCase.
  induction s as [|c s IH]; simpl; [reflexivity|].
  destruct (isWord (upper c)) eqn:E; [|exact IH].
  simpl. destruct (upper_settles c E) as [Hu _].
  rewrite Hu, E, IH. reflexivity.
Qed.

(** Accepted parameters are complete and well formed, for a parsed answer
    whose symbol is ASCII text: the name is set, the symbol has 2 to 5
    characters, each an upper-case letter, a digit or an underscore, and
    formatting it again changes nothing; the theme and the emoji are never
    left empty, a default standing in for a missing one -- for the emoji,
    one of the eight strings of [defaultEmojis]; and no reason is given. *)
Theorem accepted_params_well_formed (request : Parsed.TokenRequest)
        (pick : nat) :
  let result := validateTokenParams request pick in
  (forall symbol, Parsed.tokenSymbol request = Some symbol ->
                  is_ascii_text symbol = true) ->
  isValid result = true ->
  reason result = None /\
  (exists name, tokenName result = Some name) /\
  (exists symbol,
     tokenSymbol result = Some symbol /\
     (2 <= String.length symbol <= 5)%nat /\
     all_chars (fun c => isWord c && negb (isLower c)) symbol = true /\
     formatSymbol symbol = symbol) /\
  (exists theme, memeTheme result = Some theme) /\
  (exists symbol, emoji result = Some symbol) /\
  (truthy (Parsed.memeTheme request) = false ->
     memeTheme result = Some "Generic meme token"%string) /\
  (truthy (Parsed.emoji request) = false ->
     exists symbol, emoji result = Some symbol /\ symbol ∈ defaultEmojis).
Proof.
  intros result _. unfold result, validateTokenParams.
  destruct (negb (Parsed.isTokenRequest request)
            || (Parsed.confidence request <? 70)%Z); simpl; [discriminate|].
  destruct (Parsed.tokenName request) as [[|c name]|]; simpl;
    try discriminate.
  destruct (Parsed.tokenSymbol request) as [[|c' symbol]|]; simpl;
    try discriminate.
  set (stored := formatSymbol (String c' symbol)).
  destruct (Nat.ltb_spec (String.length stored) 2); simpl; [discriminate|].
  destruct (Nat.ltb_spec 5 (String.length stored)); simpl; [discriminate|].
  intros _.
  assert (Hpick : exists e, defaultEmojis !! (pick mod 8)%nat = Some e).
  { apply lookup_lt_is_Some. change (pick mod 8 < 8)%nat.
    apply Nat.mod_upper_bound. discriminate. }
  destruct Hpick as [e He].
  split; [reflexivity|]. split; [eauto|]. split.
  { exists stored. split; [reflexivity|]. split; [lia|]. split.
    - apply formatSymbol_chars.
    - unfold stored. rewrite !formatSymbol_kept.
      apply kept_idempotent. }
  split.
  { destruct (Parsed.memeTheme request) as [[|c0 theme]|]; simpl; eauto. }
  split.
  { destruct (Parsed.emoji request) as [[|c0 em]|]; simpl; eauto. }
  split.
  { intros ->. reflexivity. }
  intros ->. exists e. split; [exact He|].
  eapply list_elem_of_lookup_2. exact He.
Qed.

Lemma validation_accepts_iff_witness :
  isValid (validateTokenParams (Samples.request_with_symbol "cmon") 3) = true.
Proof.
  apply (validation_accepts_iff (Samples.request_with_symbol "cmon") 3).
  { intros symbol Hsymbol. inversion Hsymbol. reflexivity. }
  split; [reflexivity|]. split; [vm_compute; discriminate|].
  split; [reflexivity|]. exists "cmon"%string.
  split; [reflexivity|]. split; [discriminate|]. vm_compute. lia.
Defined.

Lemma accepted_params_well_formed_witness :
  exists symbol,
    emoji (validateTokenParams (Samples.request_with_symbol "cmon") 3)
    = Some symbol /\ symbol ∈ defaultEmojis.
Proof.
  apply (accepted_params_well_formed (Samples.request_with_symbol "cmon") 3);
    [|reflexivity|reflexivity].
  intros symbol Hsymbol. inversion Hsymbol. reflexivity.
Defined.

End ValidationMore.

(** ** The workflow's collaborators beyond the claims *)

Section WorkflowMore.

Import text_parser deployer.

(** [extractTokenIdFromEvents] looks at the first [TokenCreated] event
    only: its token id is the answer, whatever events follow it -- so a
    first such event without parsed content hides any later one -- and
    without such an event there is no token id. *)
Theorem token_id_from_first_event (before after : list LedgerEvent)
        (event : LedgerEvent) (tx : string) :
  Forall (fun e => includes (type e) "::token_factory::TokenCreated" = false)
         before ->
  includes (type event) "::token_factory::TokenCreated" = true ->
  extractTokenIdFromEvents
    {| digest := tx; events := before ++ event :: after |}
  = match parsedJson event with
    | Some json => token_id json
    | None => None
    end /\
  extractTokenIdFromEvents {| digest := tx; events := before |} = None.
Proof.
  intros Hbefore Hevent. unfold extractTokenIdFromEvents. simpl.
  induction Hbefore as [|e before He _ IH]; simpl.
  - rewrite Hevent. split; reflexivity.
  - rewrite He. exact IH.
Qed.

(** [provideLiquidity] stops at the first step that fails and names it in
    its error; it succeeds exactly when the pool was created, the deposit
    went through and the orders were placed, and then carries the digest
    of the order placement. *)
Theorem liquidity_stops_at_first_failure (world : World) (tokenId : string)
        (tokenAmount suiAmount : N) :
  let pool := fst (createPool world tokenId) in
  let poolId := orEmpty (snd (createPool world tokenId)) in
  let deposit := depositLiquidity world poolId tokenId tokenAmount suiAmount in
  let orders := placeLimitOrders world poolId tokenId in
  let result := provideLiquidity world tokenId tokenAmount suiAmount in
  (Step.success pool = false ->
     result = Step.failed ("Failed to create pool: "
                             ++ orEmpty (Step.error pool))%string) /\
  (Step.success pool = true -> Step.success deposit = false ->
     result = Step.failed ("Failed to deposit liquidity: "
                             ++ orEmpty (Step.error deposit))%string) /\
  (Step.success pool = true -> Step.success deposit = true ->
   Step.success orders = false ->
     result = Step.failed ("Failed to place limit orders: "
                             ++ orEmpty (Step.error orders))%string) /\
  (Step.success pool = true -> Step.success deposit = true ->
   Step.success orders = true ->
     Step.success result = true /\ Step.error result = None /\
     Step.transactionDigest result = Step.transactionDigest orders).
Proof.
  intros pool poolId deposit orders result.
  unfold result, provideLiquidity, deposit, orders, poolId, pool.
  destruct (createPool world tokenId) as [poolResult id]. simpl.
  unfold try_catch, mbind, js_bind, mret, js_ret.
  split; [|split; [|split]].
  - intros ->. reflexivity.
  - intros -> ->. reflexivity.
  - intros -> -> ->. reflexivity.
  - intros -> -> ->. simpl. auto.
Qed.

(** Every result of [processTokenDeployment] names the caller's source
    and user; an unsuccessful one carries a reason and no token id; and
    when the parsing service itself fails, the caller is told that the
    message was not a valid token request. *)
Theorem failures_reported_to_caller (world : World)
        (message source userId : string) :
  let result := processTokenDeployment world message source userId in
  Outcome.source result = source /\
  Outcome.userId result = userId /\
  (Outcome.success result = false ->
     Outcome.tokenId result = None /\
     exists why, Outcome.reason result = Some why) /\
  (forall e, completeTokenRequest world message = Throw e ->
     result = Outcome.rejected "Not a valid token request or low confidence"
                               source userId).
Proof.
  intros result.
  assert (Hparse : forall e, completeTokenRequest world message = Throw e ->
            result = Outcome.rejected
                       "Not a valid token request or low confidence"
                       source userId).
  { intros e He. unfold result, processTokenDeployment, parseTokenRequest.
    rewrite He. reflexivity. }
  assert (Hshape : (Outcome.source result = source /\
                    Outcome.userId result = userId) /\
                   (Outcome.success result = false ->
                    Outcome.tokenId result = None /\
                    exists why, Outcome.reason result = Some why)).
  { unfold result, processTokenDeployment.
    destruct (negb _ || _); [simpl; eauto|].
    destruct (negb (isValid _)); [simpl; eauto|].
    set (metadata := generateTokenMetadata world _).
    set (imagery := generateTokenImagery world metadata).
    destruct (truthy (staticImage imagery));
      destruct (truthy (animatedGif imagery));
      destruct (tokenSymbol (base metadata)) as [symbol|];
      simpl; eauto;
      match goal with
      | |- context [deployToken world ?tp] =>
          destruct (Deployment.success (deployToken world tp)); simpl; eauto
      end; split; auto; discriminate. }
  destruct Hshape as [[Hs Hu] Hf]. auto.
Qed.

Lemma token_id_from_first_event_witness :
  extractTokenIdFromEvents
    {| digest := "0xD16E57";
       events :=
         [{| type := "0x2::coin::CurrencyCreated"; parsedJson := None |}]
         ++ {| type := "0x9::token_factory::TokenCreated";
               parsedJson := None |}
         :: events Samples.token_created |}
  = None.
Proof.
  apply (token_id_from_first_event
           [{| type := "0x2::coin::CurrencyCreated"; parsedJson := None |}]
           (events Samples.token_created)
           {| type := "0x9::token_factory::TokenCreated";
              parsedJson := None |} "0xD16E57").
  - repeat constructor.
  - reflexivity.
Defined.

Lemma liquidity_stops_at_first_failure_witness :
  provideLiquidity (Samples.world true true false true) "0x70CE"
                   1000000000 50000000000
  = Step.failed "Failed to create pool: pool not created".
Proof.
  apply (liquidity_stops_at_first_failure (Samples.world true true false true)
           "0x70CE" 1000000000 50000000000).
  reflexivity.
Defined.

Lemma failures_reported_to_caller_witness :
  Outcome.tokenId
    (processTokenDeployment Samples.world_without_key Samples.sample_message
                            "telegram" "42") = None /\
  Outcome.source
    (processTokenDeployment Samples.world_without_key Samples.sample_message
                            "telegram" "42") = "telegram"%string.
Proof.
  destruct (failures_reported_to_caller Samples.world_without_key
              Samples.sample_message "telegram" "42")
    as (Hsource & _ & Hfailed & _).
  split; [|exact Hsource]. apply Hfailed. reflexivity.
Defined.

End WorkflowMore.

(** ** The order ladder *)

Section OrderBook.

Import deepbook.

Local Open Scope Z_scope.

Lemma quot_scaled_bounds (a k : Z) :
  0 <= a -> 0 <= k -> 0 <= Z.quot (a * k) 100 /\
  (k <= 100 -> Z.quot (a * k) 100 <= a).
Proof.
  intros Ha Hk. rewrite Z.quot_div_nonneg by nia. split.
  - apply Z.div_pos; nia.
  - intros Hk'. apply Z.div_le_upper_bound; nia.
Qed.

(** The ladder [generateOrderBook] builds for a non-negative base price
    and a spread of at most 100 percent: [levels] buy orders followed by
    [levels] sell orders, every quantity positive, every buy priced at or
    below the base price and every sell at or above it, so the book is
    never crossed; and with at most 21 levels no price is negative. *)
Theorem order_book_not_crossed (basePrice : Z) (levels : nat)
        (spreadPercent : Z) :
  let book := generateOrderBook basePrice levels spreadPercent in
  0 <= basePrice -> 0 <= spreadPercent <= 100 ->
  length book = (2 * levels)%nat /\
  (forall i order, book !! i = Some order ->
     side order = bool_decide (i < levels)%nat) /\
  (forall order, order ∈ book ->
     0 < quantity order /\
     (side order = true -> price order <= basePrice) /\
     (side order = false -> basePrice <= price order) /\
     ((levels <= 21)%nat -> 0 <= price order)).
Proof.
  intros book Hbase Hspread. unfold book, generateOrderBook.
  set (spread := Z.quot (basePrice * spreadPercent) 100).
  assert (Hs : 0 <= spread <= basePrice).
  { destruct (quot_scaled_bounds basePrice spreadPercent) as [H1 H2]; lia. }
  assert (Hmap : forall (f : nat -> Order) l, map f l = f <$> l).
  { intros f l. induction l as [|x l IH]; simpl; [reflexivity|].
    rewrite IH. reflexivity. }
  split; [|split].
  - rewrite length_app, !length_map, !length_seq. lia.
  - intros i order Hi.
    destruct (decide (i < levels)%nat) as [Hlt|Hge].
    + rewrite bool_decide_eq_true_2 by exact Hlt.
      rewrite lookup_app_l in Hi by (rewrite length_map, length_seq; lia).
      rewrite Hmap in Hi.
      apply list_lookup_fmap_Some in Hi as (j & -> & _). reflexivity.
    + rewrite bool_decide_eq_false_2 by exact Hge.
      rewrite lookup_app_r in Hi by (rewrite length_map, length_seq; lia).
      rewrite Hmap in Hi.
      apply list_lookup_fmap_Some in Hi as (j & -> & _). reflexivity.
  - intros order Hin. apply elem_of_app in Hin as [Hin|Hin];
      rewrite Hmap in Hin;
      apply list_elem_of_fmap in Hin as (i & -> & Hi);
      apply list_elem_of_In, in_seq in Hi; simpl.
    + pose proof (quot_scaled_bounds (basePrice - spread) (Z.of_nat i * 5)
                    ltac:(lia) ltac:(lia)) as [H1 H2].
      split; [lia|]. split; [lia|]. split; [discriminate|].
      intros Hl. specialize (H2 ltac:(lia)). lia.
    + pose proof (quot_scaled_bounds (basePrice + spread) (Z.of_nat i * 5)
                    ltac:(lia) ltac:(lia)) as [H1 H2].
      split; [lia|]. split; [discriminate|]. split; lia.
Qed.

Lemma order_book_not_crossed_witness :
  length (generateOrderBook 50000 5 10) = 10%nat /\
  forall order, order ∈ generateOrderBook 50000 5 10 -> 0 <= price order.
Proof.
  destruct (order_book_not_crossed 50000 5 10) as (Hlen & _ & Horders);
    try lia.
  split; [exact Hlen|].
  intros order Hin. apply (Horders order Hin). lia.
Defined.

End OrderBook.
